(** * Kairos check-in subsystem: a shallow embedding

    The development follows three source files of the repository:
    - [src/check_in_manager.py]   (class [CheckInManager]),
    - [src/check_in_scheduler.py] (class [CheckInScheduler]),
    - [src/activity_analyzer.py]  (class [ActivityAnalyzer]),
    together with the table layout of [src/migrations/add_check_in_system.py]
    and the reply branch of [handle_text] in [src/bot.py].

    Conventions of the embedding.
    - A naive Python [datetime] is an integer number of microseconds since
      an arbitrary midnight.  SQLite stores the values as ISO text whose
      lexicographic order is the chronological one, so the comparisons of
      the SQL statements are comparisons on [Z].
    - A table is the list of its rows in rowid order; a [NULL] column is
      [None].
    - The persistent store and the in-memory pointer of the manager are
      threaded explicitly; a Python exception is the [Raises] outcome.
    - Calls that leave the process (the chat transport, the text
      generation service, the wall clock) are arguments of the operation
      that performs them. *)

From Stdlib Require Import ZArith List String Ascii Bool Lia.
Import ListNotations.
Open Scope Z_scope.

(** ** Wall clock and calendar arithmetic *)

Definition datetime := Z.

Definition us_per_second : Z := 1000000.
Definition us_per_minute : Z := 60 * us_per_second.
Definition us_per_hour : Z := 60 * us_per_minute.
Definition us_per_day : Z := 24 * us_per_hour.

(** [timedelta(minutes=m)] *)
Definition timedelta_minutes (m : Z) : Z := m * us_per_minute.
Arguments timedelta_minutes : simpl never.

(** [dt.replace(second=0, microsecond=0)] *)
Definition replace_second0 (t : datetime) : datetime := t - t mod us_per_minute.

(** [dt.date()], as a day number. *)
Definition date_of (t : datetime) : Z := t / us_per_day.

(** [dt_time(hour, minute)] raises [ValueError] outside the dial. *)
Definition dt_time (hour minute : Z) : option (Z * Z) :=
  if (0 <=? hour) && (hour <? 24) && (0 <=? minute) && (minute <? 60)
  then Some (hour, minute) else None.

(** [datetime.combine(day, dt_time(hour, minute))] *)
Definition datetime_combine (day : Z) (tm : Z * Z) : datetime :=
  day * us_per_day + fst tm * us_per_hour + snd tm * us_per_minute.

(** ** Outcomes of fallible code *)

Inductive outcome (A : Type) : Type :=
| Returns (a : A)
| Raises (msg : string).
Arguments Returns {A} a.
Arguments Raises {A} msg.

(** ** Text helpers used by [handle_wake_button] *)

(** [s.split(':')] *)
Fixpoint split_colon (s : string) : list string :=
  match s with
  | EmptyString => [EmptyString]
  | String c rest =>
      let parts := split_colon rest in
      if Ascii.eqb c ":"%char then EmptyString :: parts
      else match parts with
           | [] => [String c EmptyString]
           | p :: ps => String c p :: ps
           end
  end.

Definition digit_of (c : ascii) : option Z :=
  let n := Z.of_N (N_of_ascii c) in
  if (48 <=? n) && (n <=? 57) then Some (n - 48) else None.

Fixpoint digits_value (acc : Z) (s : string) : option Z :=
  match s with
  | EmptyString => Some acc
  | String c rest =>
      match digit_of c with
      | Some d => digits_value (10 * acc + d) rest
      | None => None
      end
  end.

(** [int(s)] on the plain decimal literals: an optional sign followed by
    at least one ASCII digit.  Python accepts more spellings (surrounding
    blanks, underscores, other scripts); on those the embedding answers
    [None], which the callers below turn into [Raises], so every success of
    the embedding is a success of the source with the same value.  The one
    text the subsystem ever stores in [default_wake_time] is the column
    default ['08:00']. *)
Definition py_int (s : string) : option Z :=
  match s with
  | EmptyString => None
  | String c rest =>
      if Ascii.eqb c "-"%char then
        match rest with
        | EmptyString => None
        | _ => option_map Z.opp (digits_value 0 rest)
        end
      else if Ascii.eqb c "+"%char then
        match rest with
        | EmptyString => None
        | _ => digits_value 0 rest
        end
      else digits_value 0 s
  end.

(** ** Data model (tables of [add_check_in_system.py]) *)

Inductive status : Type := pending | sent | completed | missed | sleeping.

Definition status_eqb (a b : status) : bool :=
  match a, b with
  | pending, pending | sent, sent | completed, completed
  | missed, missed | sleeping, sleeping => true
  | _, _ => false
  end.

(** A row of [check_ins]. *)
Record check_in : Type := mk_check_in {
  ci_id : Z;
  ci_scheduled_time : datetime;
  ci_sent_time : option datetime;
  ci_response_time : option datetime;
  ci_status : status;
  ci_retry_count : Z
}.

(** A row of [user_config]. *)
Record user_config : Type := mk_user_config {
  uc_chat_id : Z;
  uc_check_ins_enabled : Z;
  uc_is_sleeping : Z;
  uc_sleep_start_time : option datetime;
  uc_default_wake_time : option string;
  uc_last_wake_time : option datetime;
  uc_updated_at : option datetime
}.

(** A row of [activity_logs]. *)
Record activity_log : Type := mk_activity_log {
  al_id : Z;
  al_timestamp : datetime;
  al_user_response : option string;
  al_activity_summary : option string;
  al_productivity_type : option string;
  al_alignment_score : option Z;
  al_matched_todo_id : option Z;
  al_category : option string;
  al_reasoning : option string;
  al_check_in_id : option Z
}.

Record db : Type := mk_db {
  check_ins : list check_in;
  user_configs : list user_config;
  activity_logs : list activity_log
}.

(** The program state: the store and [CheckInManager.pending_check_in_id]. *)
Record sys : Type := mk_sys {
  store : db;
  pending_check_in_id : option Z
}.

Definition empty_db : db := mk_db [] [] [].
Definition initial : sys := mk_sys empty_db None.

(** [INTEGER PRIMARY KEY AUTOINCREMENT]: one more than the largest rowid.
    No statement of the subsystem deletes a row, so the largest rowid ever
    used is the largest one present. *)
Definition next_rowid (ids : list Z) : Z := 1 + fold_right Z.max 0 ids.

Definition set_check_ins (d : db) (l : list check_in) : db :=
  mk_db l (user_configs d) (activity_logs d).
Definition set_user_configs (d : db) (l : list user_config) : db :=
  mk_db (check_ins d) l (activity_logs d).
Definition set_activity_logs (d : db) (l : list activity_log) : db :=
  mk_db (check_ins d) (user_configs d) l.

Definition with_status (r : check_in) (st : status) : check_in :=
  mk_check_in (ci_id r) (ci_scheduled_time r) (ci_sent_time r)
              (ci_response_time r) st (ci_retry_count r).

(** Python truthiness of an optional integer: [None] and [0] are falsy. *)
Definition truthy (v : option Z) : bool :=
  match v with
  | None => false
  | Some z => negb (z =? 0)
  end.

(** ** [CheckInManager] *)

(** [send_check_in]: the row is inserted and committed, the pointer is set,
    and only then is the message handed to the transport; [delivery] is the
    outcome of [await self.bot.send_message(...)]. *)
Definition send_check_in (s : sys) (chat_id : Z) (now : datetime)
    (delivery : outcome unit) : outcome Z * sys :=
  let scheduled_time := now in
  let check_in_id := next_rowid (map ci_id (check_ins (store s))) in
  let row := mk_check_in check_in_id scheduled_time (Some scheduled_time)
                         None sent 0 in
  let s' := mk_sys (set_check_ins (store s) (check_ins (store s) ++ [row]))
                   (Some check_in_id) in
  match delivery with
  | Returns _ => (Returns check_in_id, s')
  | Raises e => (Raises e, s')
  end.

(** Order of [sent_time] under [ORDER BY ... DESC]: [NULL] sorts last. *)
Definition sent_time_ltb (a b : option datetime) : bool :=
  match a, b with
  | None, None => false
  | None, Some _ => true
  | Some _, None => false
  | Some x, Some y => x <? y
  end.

(** [SELECT id FROM check_ins WHERE status = 'sent'
     ORDER BY sent_time DESC LIMIT 1].  Among rows of equal [sent_time]
    SQLite is free to pick any; the embedding picks the lowest rowid. *)
Fixpoint most_recent_sent (rows : list check_in) : option check_in :=
  match rows with
  | [] => None
  | r :: rest =>
      if status_eqb (ci_status r) sent then
        match most_recent_sent rest with
        | None => Some r
        | Some r' =>
            if sent_time_ltb (ci_sent_time r) (ci_sent_time r')
            then Some r' else Some r
        end
      else most_recent_sent rest
  end.

Definition get_pending_check_in (s : sys) : option Z * sys :=
  if negb (truthy (pending_check_in_id s)) then
    match most_recent_sent (check_ins (store s)) with
    | Some r => (Some (ci_id r), mk_sys (store s) (Some (ci_id r)))
    | None => (pending_check_in_id s, s)
    end
  else (pending_check_in_id s, s).

Definition clear_pending_check_in (s : sys) : sys :=
  mk_sys (store s) None.

(** [UPDATE user_config SET is_sleeping = 1, sleep_start_time = now,
     updated_at = now WHERE chat_id = ?] *)
Definition sleep_row (chat_id : Z) (now : datetime) (u : user_config) : user_config :=
  if uc_chat_id u =? chat_id then
    mk_user_config (uc_chat_id u) (uc_check_ins_enabled u) 1 (Some now)
                   (uc_default_wake_time u) (uc_last_wake_time u) (Some now)
  else u.

Definition handle_sleep_button (s : sys) (chat_id : Z) (now : datetime) : sys :=
  mk_sys (set_user_configs (store s)
            (map (sleep_row chat_id now) (user_configs (store s))))
         (pending_check_in_id s).

(** The value handed back by [handle_wake_button]: the literal [0] of the
    guard, or [round(hours_slept, 1)].  The latter is a float; the
    embedding keeps the exact elapsed time it is computed from. *)
Inductive hours_slept : Type :=
| zero_hours
| rounded_hours (elapsed_us : Z).

(** [row[1] or "08:00"] *)
Definition default_wake_time_str (u : user_config) : string :=
  match uc_default_wake_time u with
  | None => "08:00"%string
  | Some EmptyString => "08:00"%string
  | Some txt => txt
  end.

(** [wake_hour, wake_min = map(int, txt.split(':'))] followed by
    [dt_time(wake_hour, wake_min)]. *)
Definition parse_wake_time (txt : string) : option (Z * Z) :=
  match split_colon txt with
  | [h; m] =>
      match py_int h, py_int m with
      | Some wake_hour, Some wake_min => dt_time wake_hour wake_min
      | _, _ => None
      end
  | _ => None
  end.

(** [default_wake_time = datetime.combine(today, ...)] where [today] is the
    date of the first clock reading of the handler. *)
Definition default_wake_today (u : user_config) (today_clock : datetime)
    : option datetime :=
  option_map (datetime_combine (date_of today_clock))
             (parse_wake_time (default_wake_time_str u)).

(** [retroactive_start = max(sleep_start_time, default_wake_time)] *)
Definition retroactive_start (sleep_start_time : datetime) (u : user_config)
    (today_clock : datetime) : option datetime :=
  option_map (Z.max sleep_start_time) (default_wake_today u today_clock).

Definition in_window (lo hi : datetime) (r : check_in) : bool :=
  (lo <=? ci_scheduled_time r) && (ci_scheduled_time r <=? hi).

(** [UPDATE check_ins SET status = 'sleeping'
     WHERE scheduled_time >= lo AND scheduled_time <= hi
       AND status IN ('missed', 'pending')] *)
Definition wake_row (lo hi : datetime) (r : check_in) : check_in :=
  if in_window lo hi r
     && (status_eqb (ci_status r) missed || status_eqb (ci_status r) pending)
  then with_status r sleeping else r.

(** [SELECT id, scheduled_time FROM check_ins WHERE status = 'sleeping'
     AND scheduled_time >= lo AND scheduled_time <= hi] *)
Definition sleeping_in_window (lo hi : datetime) (rows : list check_in)
    : list check_in :=
  filter (fun r => status_eqb (ci_status r) sleeping && in_window lo hi r) rows.

Definition refers_to (check_in_id : Z) (l : activity_log) : bool :=
  match al_check_in_id l with
  | Some i => i =? check_in_id
  | None => false
  end.

(** One turn of the loop over [sleeping_check_ins]: the existence test and
    the [INSERT INTO activity_logs (timestamp, activity_summary,
    productivity_type, check_in_id)]. *)
Definition synthesize_log (logs : list activity_log) (r : check_in)
    : list activity_log :=
  if existsb (refers_to (ci_id r)) logs then logs
  else logs ++ [mk_activity_log (next_rowid (map al_id logs))
                  (ci_scheduled_time r) None (Some "Sleeping"%string)
                  (Some "sleeping"%string) None None None None
                  (Some (ci_id r))].

(** [UPDATE user_config SET is_sleeping = 0, last_wake_time = now,
     updated_at = now WHERE chat_id = ?] *)
Definition awake_row (chat_id : Z) (now : datetime) (u : user_config) : user_config :=
  if uc_chat_id u =? chat_id then
    mk_user_config (uc_chat_id u) (uc_check_ins_enabled u) 0
                   (uc_sleep_start_time u) (uc_default_wake_time u)
                   (Some now) (Some now)
  else u.

(** The three writes of [handle_wake_button] for a window [lo, hi]. *)
Definition reconcile (d : db) (chat_id : Z) (lo hi : datetime) : db :=
  let rows := map (wake_row lo hi) (check_ins d) in
  let logs := fold_left synthesize_log (sleeping_in_window lo hi rows)
                        (activity_logs d) in
  mk_db rows (map (awake_row chat_id hi) (user_configs d)) logs.

(** [handle_wake_button].  [today_clock] is the reading behind
    [today = datetime.now().date()], [now] the later reading.  The
    exceptions of the parsing steps are raised before the first write. *)
Definition handle_wake_button (s : sys) (chat_id : Z)
    (today_clock now : datetime) : outcome hours_slept * sys :=
  match find (fun u => uc_chat_id u =? chat_id) (user_configs (store s)) with
  | None => (Returns zero_hours, s)
  | Some row =>
      match uc_sleep_start_time row with
      | None => (Returns zero_hours, s)
      | Some sleep_start_time =>
          match retroactive_start sleep_start_time row today_clock with
          | None => (Raises "ValueError"%string, s)
          | Some lo =>
              (Returns (rounded_hours (now - sleep_start_time)),
               mk_sys (reconcile (store s) chat_id lo now)
                      (pending_check_in_id s))
          end
      end
  end.

(** [mark_stale_as_missed]:
    [UPDATE check_ins SET status = 'missed'
     WHERE status = 'sent' AND sent_time < now - 90 minutes]. *)
Definition stale_row (threshold : datetime) (r : check_in) : check_in :=
  if status_eqb (ci_status r) sent
     && match ci_sent_time r with
        | Some t => t <? threshold
        | None => false
        end
  then with_status r missed else r.

Definition mark_stale_as_missed (s : sys) (now : datetime) : sys :=
  let threshold := now - timedelta_minutes 90 in
  mk_sys (set_check_ins (store s)
            (map (stale_row threshold) (check_ins (store s))))
         (pending_check_in_id s).

(** ** [ActivityAnalyzer] *)

(** The dictionary handed back by [analyze_activity]; a missing key reads
    as [None] through [dict.get]. *)
Record analysis : Type := mk_analysis {
  an_activity_summary : option string;
  an_productivity_type : option string;
  an_matched_todo_id : option Z;
  an_alignment_score : option Z;
  an_category : option string;
  an_reasoning : option string;
  an_feedback : option string
}.

(** What the text generation service does with one prompt, as far as
    [analyze_activity] can tell. *)
Inductive gemini_reply : Type :=
| gemini_raises (e : string)
    (** [generate_content] or [response.text] raises *)
| gemini_undecodable
    (** [json.loads] raises [JSONDecodeError] *)
| gemini_not_a_dict (e : string)
    (** [json.loads] yields a value without [.get]; [_save_activity_log]
        raises while it builds the row *)
| gemini_dict (a : analysis).

(** The dictionary of the inner handler ([JSONDecodeError]). *)
Definition undecodable_fallback (user_response : string) : analysis :=
  mk_analysis (Some (substring 0 100 user_response))
              (Some "beneficial"%string) None (Some 5)
              (Some "Unknown"%string)
              (Some "Analysis pending - manual review required"%string)
              (Some "Activity logged. I had trouble analyzing it automatically."%string).

(** The dictionary of the outer handler ([except Exception as e]). *)
Definition exception_fallback (user_response e : string) : analysis :=
  mk_analysis (Some (substring 0 100 user_response))
              (Some "beneficial"%string) None (Some 5)
              (Some "Unknown"%string) (Some e)
              (Some "Activity logged successfully."%string).

(** [_save_activity_log] *)
Definition save_activity_log (d : db) (check_in_id : Z) (user_response : string)
    (a : analysis) (now : datetime) : db :=
  set_activity_logs d
    (activity_logs d ++
     [mk_activity_log (next_rowid (map al_id (activity_logs d))) now
        (Some user_response) (an_activity_summary a) (an_productivity_type a)
        (an_alignment_score a) (an_matched_todo_id a) (an_category a)
        (an_reasoning a) (Some check_in_id)]).

(** [UPDATE check_ins SET status = ?, response_time = ? WHERE id = ?] *)
Definition status_row (check_in_id : Z) (st : status) (now : datetime)
    (r : check_in) : check_in :=
  if ci_id r =? check_in_id then
    mk_check_in (ci_id r) (ci_scheduled_time r) (ci_sent_time r) (Some now)
                st (ci_retry_count r)
  else r.

(** [_update_check_in_status] *)
Definition update_check_in_status (d : db) (check_in_id : Z) (st : status)
    (now : datetime) : db :=
  set_check_ins d (map (status_row check_in_id st now) (check_ins d)).

(** [analyze_activity]; [now_save] and [now_update] are the clock readings
    of the two storage helpers. *)
Definition analyze_activity (s : sys) (user_response : string) (check_in_id : Z)
    (reply : gemini_reply) (now_save now_update : datetime) : analysis * sys :=
  let persist (a : analysis) :=
    let d1 := save_activity_log (store s) check_in_id user_response a now_save in
    let d2 := update_check_in_status d1 check_in_id completed now_update in
    (a, mk_sys d2 (pending_check_in_id s)) in
  match reply with
  | gemini_raises e => (exception_fallback user_response e, s)
  | gemini_not_a_dict e => (exception_fallback user_response e, s)
  | gemini_undecodable => persist (undecodable_fallback user_response)
  | gemini_dict a => persist a
  end.

(** The check-in branch of [handle_text] in [bot.py]: the pointer is
    cleared on both exits of its [try]. *)
Definition handle_check_in_reply (s : sys) (text : string) (reply : gemini_reply)
    (now_save now_update : datetime) : option analysis * sys :=
  let '(pending_id, s1) := get_pending_check_in s in
  match pending_id with
  | Some check_in_id =>
      if truthy pending_id then
        let '(a, s2) := analyze_activity s1 text check_in_id reply
                                         now_save now_update in
        (Some a, clear_pending_check_in s2)
      else (None, s1)
  | None => (None, s1)
  end.

(** The first-contact branch of [start] in [bot.py]:
    [INSERT INTO user_config (chat_id, check_ins_enabled) VALUES (?, 1)]
    unless a row for the chat exists; the other columns take their
    declared defaults. *)
Definition start_command (s : sys) (chat_id : Z) (now : datetime) : sys :=
  if existsb (fun u => uc_chat_id u =? chat_id) (user_configs (store s)) then s
  else mk_sys (set_user_configs (store s)
                 (user_configs (store s) ++
                  [mk_user_config chat_id 1 0 None (Some "08:00"%string)
                                  None (Some now)]))
              (pending_check_in_id s).

(** ** [CheckInScheduler] *)

(** A one-shot job registered with [scheduler.add_job(self._retry_check_in,
    'date', run_date=..., args=[chat_id, retry_count])]. *)
Record job : Type := mk_job {
  run_date : datetime;
  job_chat_id : Z;
  job_retry_count : Z
}.

(** [SELECT chat_id FROM user_config WHERE check_ins_enabled = 1 LIMIT 1] *)
Definition _get_configured_chat_id (s : sys) : option Z :=
  option_map uc_chat_id
    (find (fun u => uc_check_ins_enabled u =? 1) (user_configs (store s))).

(** [row[0] == 1 if row else False] *)
Definition _is_user_sleeping (s : sys) (chat_id : Z) : bool :=
  match find (fun u => uc_chat_id u =? chat_id) (user_configs (store s)) with
  | Some row => uc_is_sleeping row =? 1
  | None => false
  end.

(** [context.user_data["state"]] in [bot.py]: the conversation flow a chat
    is in, [None] outside any flow ([add_task_command] stores
    "AWAITING_ADD_TASK", [query_command] "AWAITING_QUERY"). *)
Definition conversation_state : Type := option string.

(** [not current_state] in [handle_text], negated: the chat is in a
    conversation flow. *)
Definition in_conversation_flow (current_state : conversation_state) : bool :=
  match current_state with
  | None => false
  | Some EmptyString => false
  | Some _ => true
  end.

(** The busy predicate as the repository ships it.  [user_data] is what
    [self.application] holds for each chat; the body does not read it, and
    both exits of its [try] return [False]. *)
Definition _is_user_busy (user_data : Z -> conversation_state) (chat_id : Z)
    : bool := false.

(** [_send_hourly_check_in].  [busy] is the answer of
    [self._is_user_busy(chat_id)] at this tick; the second component is
    the list of jobs handed to [add_job].  An exception of the dispatch is
    logged and dropped. *)
Definition _send_hourly_check_in (s : sys) (now : datetime) (busy : bool)
    (delivery : outcome unit) : sys * list job :=
  match _get_configured_chat_id s with
  | None => (s, [])
  | Some chat_id =>
      if negb (truthy (Some chat_id)) then (s, [])
      else if _is_user_sleeping s chat_id then (s, [])
      else if busy then
        (s, [mk_job (replace_second0 now + timedelta_minutes 5) chat_id 1])
      else (snd (send_check_in s chat_id now delivery), [])
  end.

(** [_retry_check_in] *)
Definition _retry_check_in (s : sys) (chat_id retry_count : Z) (now : datetime)
    (busy : bool) (delivery : outcome unit) : sys * list job :=
  if retry_count >? 3 then (s, [])
  else if busy then
    let next_interval := if retry_count =? 1 then 5 else 10 in
    (s, [mk_job (replace_second0 now + timedelta_minutes next_interval)
                chat_id (retry_count + 1)])
  else (snd (send_check_in s chat_id now delivery), []).

(** [_cleanup_stale_check_ins] *)
Definition _cleanup_stale_check_ins (s : sys) (now : datetime) : sys :=
  mark_stale_as_missed s now.

(** The [date] trigger of APScheduler: every registered job is called
    once, at its [run_date]; the jobs it registers in turn are served
    after it.  [busy] answers the busy predicate at a given instant and
    [fuel] bounds the number of calls.  The result lists the instants at
    which [_retry_check_in] was called. *)
Fixpoint run_jobs (fuel : nat) (busy : datetime -> bool)
    (delivery : outcome unit) (s : sys) (queue : list job)
    : sys * list datetime :=
  match fuel, queue with
  | O, _ => (s, [])
  | _, [] => (s, [])
  | S fuel', j :: rest =>
      let '(s1, added) :=
        _retry_check_in s (job_chat_id j) (job_retry_count j) (run_date j)
                        (busy (run_date j)) delivery in
      let '(s2, calls) := run_jobs fuel' busy delivery s1 (rest ++ added) in
      (s2, run_date j :: calls)
  end.

(** The hourly tick at [now] followed by all the retries it leads to. *)
Definition hourly_tick_with_retries (fuel : nat) (busy : datetime -> bool)
    (delivery : outcome unit) (s : sys) (now : datetime)
    : sys * list datetime :=
  let '(s1, added) := _send_hourly_check_in s now (busy now) delivery in
  run_jobs fuel busy delivery s1 added.

(** ** The subsystem as a whole

    One event per entry point that touches the store or the pointer.  The
    callbacks run one at a time (the timer loop and the handlers share one
    thread), so a history is a list of events. *)
Inductive event : Type :=
| ev_start (chat_id : Z) (now : datetime)
| ev_hourly (now : datetime) (busy : bool) (delivery : outcome unit)
| ev_retry (chat_id retry_count : Z) (now : datetime) (busy : bool)
           (delivery : outcome unit)
| ev_maintenance (now : datetime)
| ev_reply (text : string) (reply : gemini_reply) (now_save now_update : datetime)
| ev_sleep (chat_id : Z) (now : datetime)
| ev_wake (chat_id : Z) (today_clock now : datetime)
| ev_lookup
    (** [get_pending_check_in] alone: the reply handler stops before the
        analysis because its acknowledgement could not be sent *)
| ev_restart.
    (** the process starts afresh: the pointer is [None] again *)

Definition exec (s : sys) (e : event) : sys :=
  match e with
  | ev_start chat_id now => start_command s chat_id now
  | ev_hourly now busy delivery =>
      fst (_send_hourly_check_in s now busy delivery)
  | ev_retry chat_id retry_count now busy delivery =>
      fst (_retry_check_in s chat_id retry_count now busy delivery)
  | ev_maintenance now => _cleanup_stale_check_ins s now
  | ev_reply text reply now_save now_update =>
      snd (handle_check_in_reply s text reply now_save now_update)
  | ev_sleep chat_id now => handle_sleep_button s chat_id now
  | ev_wake chat_id today_clock now =>
      snd (handle_wake_button s chat_id today_clock now)
  | ev_lookup => snd (get_pending_check_in s)
  | ev_restart => mk_sys (store s) None
  end.

Definition run (s : sys) (history : list event) : sys :=
  fold_left exec history s.

(** The clock readings of an event, in program order. *)
Definition readings (e : event) : list datetime :=
  match e with
  | ev_start _ now => [now]
  | ev_hourly now _ _ => [now]
  | ev_retry _ _ now _ _ => [now]
  | ev_maintenance now => [now]
  | ev_reply _ _ now_save now_update => [now_save; now_update]
  | ev_sleep _ now => [now]
  | ev_wake _ today_clock now => [today_clock; now]
  | ev_lookup => []
  | ev_restart => []
  end.

Fixpoint nondecreasing (c : datetime) (ts : list datetime) : bool :=
  match ts with
  | [] => true
  | t :: rest => (c <=? t) && nondecreasing t rest
  end.

(** The wall clock never runs backwards along the history. *)
Definition chronological (c : datetime) (history : list event) : bool :=
  nondecreasing c (flat_map readings history).

Definition final_reading (c : datetime) (history : list event) : datetime :=
  last (flat_map readings history) c.

(** The ticks of the scheduler among the events. *)
Definition is_tick (e : event) : bool :=
  match e with
  | ev_hourly _ _ _ | ev_retry _ _ _ _ _ | ev_maintenance _ => true
  | _ => false
  end.

Definition is_dispatch_tick (e : event) : bool :=
  match e with
  | ev_hourly _ _ _ | ev_retry _ _ _ _ _ => true
  | _ => false
  end.

Definition count_sent (s : sys) : nat :=
  List.length (filter (fun r => status_eqb (ci_status r) sent)
                      (check_ins (store s))).

(** ** Predicates used by the statements *)

(** The staleness test of the sweep at [now]. *)
Definition stale_at (now : datetime) (r : check_in) : Prop :=
  ci_status r = sent /\
  exists t, ci_sent_time r = Some t /\ timedelta_minutes 90 < now - t.

(** The reclassification test of the wake handler for a window. *)
Definition slept_through (lo hi : datetime) (r : check_in) : Prop :=
  lo <= ci_scheduled_time r <= hi /\
  (ci_status r = missed \/ ci_status r = pending).

Definition logs_of (check_in_id : Z) (d : db) : list activity_log :=
  filter (refers_to check_in_id) (activity_logs d).

(** A synthesized entry for a slept-through record. *)
Definition sleeping_entry_for (r : check_in) (l : activity_log) : Prop :=
  al_productivity_type l = Some "sleeping"%string /\
  al_user_response l = None /\
  al_timestamp l = ci_scheduled_time r /\
  al_check_in_id l = Some (ci_id r).

(** ** Well-formed states

    What every state reached from the empty store satisfies, given the
    last clock reading [c]. *)

(** Rows of [check_ins]: identifiers are positive and distinct, and every
    row carries the stamp of its dispatch, which is not in the future. *)
Definition rows_ok (c : datetime) (d : db) : Prop :=
  NoDup (map ci_id (check_ins d)) /\
  forall r, In r (check_ins d) ->
    1 <= ci_id r /\
    ci_sent_time r = Some (ci_scheduled_time r) /\
    ci_scheduled_time r <= c.

(** Rows of [activity_logs]: every entry belongs to a record that is
    [completed] or [sleeping]. *)
Definition logs_ok (d : db) : Prop :=
  forall l, In l (activity_logs d) ->
    exists r, In r (check_ins d) /\
              al_check_in_id l = Some (ci_id r) /\
              (ci_status r = completed \/ ci_status r = sleeping).

(** The pointer: it names a record, and as long as some record is [sent]
    that record is [sent] and no [sent] record is more recent. *)
Definition pointer_ok (s : sys) : Prop :=
  forall p, pending_check_in_id s = Some p ->
    exists r, In r (check_ins (store s)) /\ ci_id r = p /\
      forall q, In q (check_ins (store s)) -> ci_status q = sent ->
        ci_status r = sent /\ ci_scheduled_time q <= ci_scheduled_time r.

Definition well_formed (c : datetime) (s : sys) : Prop :=
  rows_ok c (store s) /\ logs_ok (store s) /\ pointer_ok s.

(** A row-wise update that leaves the identity and the stamps alone. *)
Definition keeps_stamps (f : check_in -> check_in) : Prop :=
  forall r, ci_id (f r) = ci_id r /\
            ci_scheduled_time (f r) = ci_scheduled_time r /\
            ci_sent_time (f r) = ci_sent_time r.

Definition settled (r : check_in) : Prop :=
  ci_status r = completed \/ ci_status r = sleeping.

(** ** Sample data for the worked examples *)

(** [hh:mm] on day [day]. *)
Definition clock_at (day hh mm : Z) : datetime := datetime_combine day (hh, mm).

Definition sample_chat : Z := 42.

(** A recipient who never pressed Sleep. *)
Definition config_never_slept : user_config :=
  mk_user_config sample_chat 1 0 None (Some "08:00"%string) None None.

(** A recipient who pressed Sleep on day 0 at 23:00, default wake 07:30. *)
Definition config_asleep : user_config :=
  mk_user_config sample_chat 1 1 (Some (clock_at 0 23 0)) (Some "07:30"%string)
                 None (Some (clock_at 0 23 0)).

(** A recipient with the wake time column left [NULL]. *)
Definition config_asleep_no_wake_time : user_config :=
  mk_user_config sample_chat 1 1 (Some (clock_at 0 23 0)) None
                 None (Some (clock_at 0 23 0)).

Definition check_in_at (i : Z) (t : datetime) (st : status) : check_in :=
  mk_check_in i t (Some t) None st 0.

(** ** Histories of the table [check_ins] *)

(** The statuses a status can turn into: the transitions written in the
    statements of the subsystem ([sent] to [missed] in the sweep, [missed]
    and [pending] to [sleeping] at wake time, anything to [completed] on a
    reply) and their compositions. *)
Definition advances (st st' : status) : bool :=
  match st, st' with
  | _, completed => true
  | pending, pending | pending, sleeping => true
  | sent, sent | sent, missed | sent, sleeping => true
  | missed, missed | missed, sleeping => true
  | sleeping, sleeping => true
  | _, _ => false
  end.

(** A later version of a row: same identity and stamps, a status reached
    along those transitions. *)
Definition moves_forward (r r' : check_in) : Prop :=
  ci_id r' = ci_id r /\
  ci_scheduled_time r' = ci_scheduled_time r /\
  ci_sent_time r' = ci_sent_time r /\
  ci_retry_count r' = ci_retry_count r /\
  advances (ci_status r) (ci_status r') = true.

(** A later version of the table: the old rows in place, new rows behind. *)
Definition extends_rows (rows rows' : list check_in) : Prop :=
  exists kept added,
    rows' = kept ++ added /\ Forall2 moves_forward rows kept.

(** Replies: a record is [completed] exactly when it carries a
    [response_time], and that stamp lies between its dispatch and the last
    clock reading [c]. *)
Definition responses_ok (c : datetime) (d : db) : Prop :=
  forall r, In r (check_ins d) ->
    (ci_status r = completed <-> ci_response_time r <> None) /\
    (forall t, ci_response_time r = Some t -> ci_scheduled_time r <= t <= c).

(** Entries of the settled records: a [sleeping] record has exactly one
    entry, the synthesized one, and a [completed] record has an entry that
    holds the reply. *)
Definition sleeping_logged (d : db) : Prop :=
  forall r, In r (check_ins d) -> ci_status r = sleeping ->
    exists l, logs_of (ci_id r) d = [l] /\ sleeping_entry_for r l.

Definition completed_logged (d : db) : Prop :=
  forall r, In r (check_ins d) -> ci_status r = completed ->
    exists l, In l (logs_of (ci_id r) d) /\ al_user_response l <> None.

(** Texts on which [handle_wake_button] raises [ValueError]: the split at
    the colons does not give two parts (the unpacking fails), or both parts
    are decimal numbers off the dial ([dt_time] fails). *)
Definition ill_formed_wake_time (txt : string) : Prop :=
  List.length (split_colon txt) <> 2%nat \/
  exists h m wake_hour wake_min,
    split_colon txt = [h; m] /\
    py_int h = Some wake_hour /\ py_int m = Some wake_min /\
    ~ (0 <= wake_hour < 24 /\ 0 <= wake_min < 60).

(** The judgment that [analyze_activity] stores for an answer of the
    service, when it stores one. *)
Definition stored_judgment (reply : gemini_reply) (user_response : string)
    : option analysis :=
  match reply with
  | gemini_dict a => Some a
  | gemini_undecodable => Some (undecodable_fallback user_response)
  | gemini_raises _ | gemini_not_a_dict _ => None
  end.

(** ** [ProductivityReporter] *)

(** [datetime.combine(target_date, datetime.min.time())] *)
Definition day_start (target_date : Z) : datetime :=
  datetime_combine target_date (0, 0).

(** [datetime.combine(target_date, datetime.max.time())], that is
    23:59:59.999999 of the day. *)
Definition day_end (target_date : Z) : datetime :=
  target_date * us_per_day + 23 * us_per_hour + 59 * us_per_minute
  + 59 * us_per_second + 999999.

(** [... >= ? AND ... <= ?] *)
Definition within (lo hi t : datetime) : bool := (lo <=? t) && (t <=? hi).

(** One more row in the group of key [k]. *)
Fixpoint bump {K : Type} (eqb : K -> K -> bool) (k : K) (groups : list (K * Z))
    : list (K * Z) :=
  match groups with
  | [] => [(k, 1)]
  | (k', n) :: rest =>
      if eqb k k' then (k', n + 1) :: rest else (k', n) :: bump eqb k rest
  end.

(** [SELECT key, COUNT( * ) ... GROUP BY key], read into a dictionary. *)
Definition group_count {K : Type} (eqb : K -> K -> bool) (keys : list K)
    : list (K * Z) :=
  fold_left (fun groups k => bump eqb k groups) keys [].

(** [counts.get(key, 0)] *)
Definition dict_get {K : Type} (eqb : K -> K -> bool) (k : K)
    (counts : list (K * Z)) : Z :=
  match find (fun entry => eqb k (fst entry)) counts with
  | Some entry => snd entry
  | None => 0
  end.

(** [sum(counts.values())] *)
Definition dict_sum {K : Type} (counts : list (K * Z)) : Z :=
  fold_right Z.add 0 (map snd counts).

(** Equality of the grouping key [productivity_type]; [NULL] is a group of
    its own. *)
Definition type_eqb (a b : option string) : bool :=
  match a, b with
  | None, None => true
  | Some x, Some y => String.eqb x y
  | _, _ => false
  end.

(** The dictionary of [_get_daily_stats].  The two float entries are kept
    as the quotient they are computed from: [avg_alignment_score] as
    (sum, count) of the scores that [AVG] sees, [productivity_ratio] as
    (aligned + beneficial, responded). *)
Record daily_stats : Type := mk_daily_stats {
  total_check_ins : Z;
  responded_check_ins : Z;
  missed_check_ins : Z;
  sleeping_check_ins : Z;
  aligned_activities : Z;
  beneficial_activities : Z;
  wasted_activities : Z;
  avg_alignment_score : option (Z * Z);
  productivity_ratio : option (Z * Z)
}.

(** The rows that [AVG(alignment_score)] averages: entries of the day whose
    type is not [NULL] and differs from 'sleeping', with a score. *)
Definition scored (l : activity_log) : option Z :=
  match al_productivity_type l with
  | Some ty => if String.eqb ty "sleeping" then None else al_alignment_score l
  | None => None
  end.

Definition _get_daily_stats (d : db) (target_date : Z) : daily_stats :=
  let start_datetime := day_start target_date in
  let end_datetime := day_end target_date in
  let status_counts :=
    group_count status_eqb
      (map ci_status
           (filter (fun r => within start_datetime end_datetime
                                    (ci_scheduled_time r))
                   (check_ins d))) in
  let day_logs :=
    filter (fun l => within start_datetime end_datetime (al_timestamp l))
           (activity_logs d) in
  let activity_counts :=
    group_count type_eqb (map al_productivity_type day_logs) in
  let scores :=
    flat_map (fun l => match scored l with Some v => [v] | None => [] end)
             day_logs in
  let avg_score :=
    match scores with
    | [] => None
    | _ => Some (fold_right Z.add 0 scores, Z.of_nat (List.length scores))
    end in
  let total := dict_sum status_counts in
  let responded := dict_get status_eqb completed status_counts in
  let missed_n := dict_get status_eqb missed status_counts in
  let sleeping_n := dict_get status_eqb sleeping status_counts in
  let aligned := dict_get type_eqb (Some "aligned"%string) activity_counts in
  let beneficial := dict_get type_eqb (Some "beneficial"%string) activity_counts in
  let wasted := dict_get type_eqb (Some "wasted"%string) activity_counts in
  mk_daily_stats total responded missed_n sleeping_n aligned beneficial wasted
    avg_score
    (if responded >? 0 then Some (aligned + beneficial, responded) else None).

(** The check-ins scheduled on a calendar day, and those of one status. *)
Definition scheduled_on (target_date : Z) (rows : list check_in) : list check_in :=
  filter (fun r => date_of (ci_scheduled_time r) =? target_date) rows.

Definition count_status (st : status) (rows : list check_in) : Z :=
  Z.of_nat (List.length (filter (fun r => status_eqb (ci_status r) st) rows)).

(** ** The task list shown to the classifier ([_load_active_todos]) *)

(** The columns of [todos] that the query reads. *)
Record todo : Type := mk_todo {
  td_id : Z;
  td_task : option string;
  td_category : option string;
  td_priority : option string;
  td_due_date : option string;
  td_status : option string
}.

(** Order of two text values under [ASC]: [NULL] first, then bytewise. *)
Definition text_leb (a b : option string) : bool :=
  match a, b with
  | None, _ => true
  | Some _, None => false
  | Some x, Some y => String.leb x y
  end.

(** [ORDER BY priority DESC, due_date ASC]: [a] may stand before [b]. *)
Definition todo_before (a b : todo) : bool :=
  if type_eqb (td_priority a) (td_priority b)
  then text_leb (td_due_date a) (td_due_date b)
  else text_leb (td_priority b) (td_priority a).

Fixpoint insert_todo (x : todo) (sorted : list todo) : list todo :=
  match sorted with
  | [] => [x]
  | y :: rest =>
      if todo_before x y then x :: y :: rest else y :: insert_todo x rest
  end.

(** The sort of the query.  Rows that compare equal are left in rowid
    order; SQLite does not promise an order among them. *)
Definition order_todos (rows : list todo) : list todo :=
  fold_right insert_todo [] rows.

Definition has_priority (p : string) (t : todo) : bool :=
  type_eqb (td_priority t) (Some p).

Definition is_pending (t : todo) : bool :=
  type_eqb (td_status t) (Some "Pending"%string).

(** [WHERE status = 'Pending' AND priority IN ('HIGH', 'MEDIUM')] *)
Definition selected_todo (t : todo) : bool :=
  is_pending t && (has_priority "HIGH" t || has_priority "MEDIUM" t).

(** [_load_active_todos]: the rows of the query, [LIMIT 20]; each
    dictionary of the result holds the first five columns of its row. *)
Definition _load_active_todos (todos : list todo) : list todo :=
  firstn 20 (order_todos (filter selected_todo todos)).

(** ** States reached whatever the clock reads *)

(** What every state reached from the empty store satisfies, also when the
    clock was set back in between: identifiers are distinct and positive,
    every row carries the stamp of its dispatch, every entry belongs to a
    record that is [completed] or [sleeping], and the pointer names a
    record. *)
Definition store_ok (s : sys) : Prop :=
  NoDup (map ci_id (check_ins (store s))) /\
  (forall r, In r (check_ins (store s)) ->
     1 <= ci_id r /\ ci_sent_time r = Some (ci_scheduled_time r)) /\
  logs_ok (store s) /\
  (forall p, pending_check_in_id s = Some p ->
     exists r, In r (check_ins (store s)) /\ ci_id r = p).

(** ** Replies along a history *)

(** The check-in a reply is handed to in [handle_text]: the id returned by
    [get_pending_check_in], when it is truthy. *)
Definition reply_target (s : sys) : option Z :=
  let pending_id := fst (get_pending_check_in s) in
  if truthy pending_id then pending_id else None.

(** Whether [analyze_activity] reaches its two storage helpers. *)
Definition stores_reply (reply : gemini_reply) : bool :=
  match reply with
  | gemini_dict _ => true
  | gemini_undecodable => true
  | gemini_raises _ => false
  | gemini_not_a_dict _ => false
  end.

(** The replies that arrived along a history run from [s], each with the
    check-in it was handed to and whether the analyzer stored it.  An
    [ev_lookup] is a reply whose handler stopped before the analysis. *)
Fixpoint replies (s : sys) (history : list event) : list (Z * bool) :=
  match history with
  | [] => []
  | e :: rest =>
      match e, reply_target s with
      | ev_reply _ reply _ _, Some check_in_id =>
          (check_in_id, stores_reply reply) :: replies (exec s e) rest
      | ev_lookup, Some check_in_id =>
          (check_in_id, false) :: replies (exec s e) rest
      | _, _ => replies (exec s e) rest
      end
  end.

(** The check-ins a reply arrived for, and those whose reply was stored. *)
Definition answered (s : sys) (history : list event) : list Z :=
  map fst (replies s history).

Definition stored_answers (s : sys) (history : list event) : list Z :=
  map fst (filter snd (replies s history)).

(** * Properties *)

(** Boolean clock comparisons in the context, turned into inequalities. *)
Ltac clock_facts :=
  repeat match goal with
         | H : _ && _ = true |- _ => apply andb_prop in H; destruct H
         | H : (_ <=? _) = true |- _ => apply Z.leb_le in H
         end.

(** ** The guard of the wake handler *)

(** C7. When the configuration row of the recipient is absent or carries no
    [sleep_start_time], [handle_wake_button] returns the literal [0] and
    leaves the three tables and the pending pointer exactly as they were. *)
Theorem handle_wake_without_sleep_start :
  forall (s : sys) (chat_id : Z) (today_clock now : datetime),
    (forall row,
        find (fun u => uc_chat_id u =? chat_id) (user_configs (store s)) = Some row ->
        uc_sleep_start_time row = None) ->
    handle_wake_button s chat_id today_clock now = (Returns zero_hours, s).
Proof.
  intros s chat_id today_clock now Hnot_set.
  unfold handle_wake_button.
  destruct (find _ _) as [row|] eqn:Hrow; [|reflexivity].
  rewrite (Hnot_set row eq_refl). reflexivity.
Qed.

Lemma handle_wake_without_sleep_start_witness :
  let s := mk_sys (mk_db [check_in_at 1 (clock_at 1 9 0) missed]
                         [config_never_slept] [])
                  (Some 1) in
  handle_wake_button s sample_chat (clock_at 1 10 0) (clock_at 1 10 0)
  = (Returns zero_hours, s).
Proof.
  intro s. apply handle_wake_without_sleep_start.
  simpl. intros row Hrow. inversion Hrow. reflexivity.
Defined.

(** ** Row identifiers *)

Lemma fold_max_bounds :
  forall (ids : list Z),
    0 <= fold_right Z.max 0 ids /\
    forall i, In i ids -> i <= fold_right Z.max 0 ids.
Proof.
  induction ids as [|a ids [IHpos IHle]]; simpl.
  - split; [lia | intros i []].
  - split; [lia |].
    intros i [->|Hin]; [lia |].
    specialize (IHle i Hin). lia.
Qed.

Lemma next_rowid_positive : forall ids, 1 <= next_rowid ids.
Proof.
  intro ids. unfold next_rowid.
  destruct (fold_max_bounds ids) as [Hpos _]. lia.
Qed.

Lemma next_rowid_above : forall ids i, In i ids -> i < next_rowid ids.
Proof.
  intros ids i Hin. unfold next_rowid.
  destruct (fold_max_bounds ids) as [_ Hle]. specialize (Hle i Hin). lia.
Qed.

Lemma next_rowid_fresh : forall ids, ~ In (next_rowid ids) ids.
Proof.
  intros ids Hin. apply next_rowid_above in Hin. lia.
Qed.

Lemma truthy_next_rowid : forall ids, truthy (Some (next_rowid ids)) = true.
Proof.
  intro ids. unfold truthy.
  pose proof (next_rowid_positive ids) as Hpos.
  destruct (next_rowid ids =? 0) eqn:Hz; [|reflexivity].
  apply Z.eqb_eq in Hz. lia.
Qed.

(** ** Dispatch and the transport *)

(** C10. [send_check_in] is not atomic with respect to delivery: when the
    transport raises, the exception reaches the caller, and the freshly
    inserted row with status [sent] as well as the pending pointer to it
    persist; the state after the call does not depend on the delivery. *)
Theorem send_check_in_delivery_failure_persists :
  forall (s : sys) (chat_id : Z) (now : datetime) (e : string),
    let new_id := next_rowid (map ci_id (check_ins (store s))) in
    let row := mk_check_in new_id now (Some now) None sent 0 in
    let after := snd (send_check_in s chat_id now (Raises e)) in
    fst (send_check_in s chat_id now (Raises e)) = Raises e /\
    check_ins (store after) = check_ins (store s) ++ [row] /\
    ~ In new_id (map ci_id (check_ins (store s))) /\
    pending_check_in_id after = Some new_id /\
    fst (get_pending_check_in after) = Some new_id /\
    (forall delivery, snd (send_check_in s chat_id now delivery) = after).
Proof.
  intros s chat_id now e new_id row after.
  repeat split; try reflexivity.
  - apply next_rowid_fresh.
  - subst after new_id. unfold get_pending_check_in.
    cbn [send_check_in snd pending_check_in_id fst].
    rewrite truthy_next_rowid. reflexivity.
  - intros [u|e']; reflexivity.
Qed.

(** ** The lower bound of the reconciliation window *)




Lemma handle_wake_button_runs :
  forall s chat_id today_clock now row sleep_start tm,
    find (fun u => uc_chat_id u =? chat_id) (user_configs (store s)) = Some row ->
    uc_sleep_start_time row = Some sleep_start ->
    parse_wake_time (default_wake_time_str row) = Some tm ->
    handle_wake_button s chat_id today_clock now =
      (Returns (rounded_hours (now - sleep_start)),
       mk_sys (reconcile (store s) chat_id
                 (Z.max sleep_start (datetime_combine (date_of today_clock) tm))
                 now)
              (pending_check_in_id s)).
Proof.
  intros s chat_id today_clock now row sleep_start tm Hrow Hsleep Hparse.
  unfold handle_wake_button. rewrite Hrow, Hsleep.
  unfold retroactive_start, default_wake_today. rewrite Hparse. reflexivity.
Qed.



(** ** Row-wise updates *)

Lemma Forall2_map_same :
  forall (A : Type) (R : A -> A -> Prop) (f : A -> A) (l : list A),
    (forall x, In x l -> R x (f x)) -> Forall2 R l (map f l).
Proof.
  intros A R f l. induction l as [|a l IH]; intro Hall; simpl.
  - constructor.
  - constructor; [apply Hall; left; reflexivity |].
    apply IH. intros x Hx. apply Hall. right. exact Hx.
Qed.

Lemma status_eqb_eq : forall a b, status_eqb a b = true <-> a = b.
Proof.
  intros a b. split.
  - destruct a, b; simpl; intro H; try reflexivity; discriminate.
  - intros ->. destruct b; reflexivity.
Qed.

(** ** The staleness sweep *)

Lemma stale_row_moves :
  forall now r,
    stale_at now r ->
    stale_row (now - timedelta_minutes 90) r = with_status r missed.
Proof.
  intros now r [Hsent (t & Ht & Hold)]. unfold stale_row.
  rewrite Hsent, Ht. simpl.
  destruct (t <? now - timedelta_minutes 90) eqn:Hlt; [reflexivity|].
  apply Z.ltb_ge in Hlt. lia.
Qed.

Lemma stale_row_keeps :
  forall now r,
    ~ stale_at now r ->
    stale_row (now - timedelta_minutes 90) r = r.
Proof.
  intros now r Hfresh. unfold stale_row.
  destruct (status_eqb (ci_status r) sent) eqn:Hst; [|reflexivity].
  destruct (ci_sent_time r) as [t|] eqn:Ht; [|reflexivity].
  simpl. destruct (t <? now - timedelta_minutes 90) eqn:Hlt; [|reflexivity].
  exfalso. apply Hfresh. split; [apply status_eqb_eq; exact Hst |].
  exists t. split; [exact Ht |]. apply Z.ltb_lt in Hlt. lia.
Qed.

Lemma stale_at_dec : forall now r, stale_at now r \/ ~ stale_at now r.
Proof.
  intros now r. unfold stale_at.
  destruct (ci_status r) eqn:Hst;
    try (right; intros [Hs _]; discriminate).
  destruct (ci_sent_time r) as [t|] eqn:Ht.
  - destruct (Z_lt_dec (timedelta_minutes 90) (now - t)) as [Hlt|Hge].
    + left. split; [reflexivity|]. exists t. split; [reflexivity | exact Hlt].
    + right. intros [_ (t' & Ht' & Hlt)]. inversion Ht'; subst. contradiction.
  - right. intros [_ (t' & Ht' & _)]. discriminate.
Qed.

Lemma stale_row_absorbs :
  forall thr thr' r,
    thr <= thr' ->
    stale_row thr' (stale_row thr r) = stale_row thr' r.
Proof.
  intros thr thr' r Hle. unfold stale_row at 2.
  destruct (status_eqb (ci_status r) sent) eqn:Hst; [|reflexivity].
  destruct (ci_sent_time r) as [t|] eqn:Ht; [|reflexivity].
  simpl. destruct (t <? thr) eqn:Hlt; [|reflexivity].
  unfold stale_row. simpl. rewrite Hst, Ht. simpl.
  apply Z.ltb_lt in Hlt.
  destruct (t <? thr') eqn:Hlt'; [reflexivity|].
  apply Z.ltb_ge in Hlt'. lia.
Qed.

Lemma mark_stale_absorbs :
  forall s now now',
    now <= now' ->
    mark_stale_as_missed (mark_stale_as_missed s now) now'
    = mark_stale_as_missed s now'.
Proof.
  intros s now now' Hle. unfold mark_stale_as_missed, set_check_ins. simpl.
  rewrite map_map. f_equal. f_equal.
  apply map_ext. intro r. apply stale_row_absorbs. lia.
Qed.

(** The [UPDATE] of the sweep, row by row, on any store. *)
Lemma mark_stale_as_missed_exact :
  forall (s : sys) (now : datetime),
    let s' := mark_stale_as_missed s now in
    Forall2 (fun r r' =>
               (stale_at now r /\ r' = with_status r missed) \/
               (~ stale_at now r /\ r' = r))
            (check_ins (store s)) (check_ins (store s')) /\
    user_configs (store s') = user_configs (store s) /\
    activity_logs (store s') = activity_logs (store s) /\
    pending_check_in_id s' = pending_check_in_id s /\
    mark_stale_as_missed s' now = s' /\
    (forall now', now <= now' ->
       mark_stale_as_missed s' now' = mark_stale_as_missed s now').
Proof.
  intros s now s'. repeat split.
  - subst s'. simpl. apply Forall2_map_same. intros r _.
    destruct (stale_at_dec now r) as [Hold|Hfresh].
    + left. split; [exact Hold | apply stale_row_moves; exact Hold].
    + right. split; [exact Hfresh | apply stale_row_keeps; exact Hfresh].
  - subst s'. apply mark_stale_absorbs. lia.
  - intros now' Hle. subst s'. apply mark_stale_absorbs. exact Hle.
Qed.

(** C5, counterexample to the claim as stated.  A prompt dispatched at
    10:00 and swept at 11:30 has waited 90 minutes, which is "at least 90
    minutes", and it is still [sent] after the sweep. *)
Lemma sweep_at_exactly_90_minutes_keeps_sent :
  let s := run initial [ev_start sample_chat (clock_at 0 9 0);
                        ev_hourly (clock_at 0 10 0) false (Returns tt)] in
  let r := check_in_at 1 (clock_at 0 10 0) sent in
  check_ins (store s) = [r] /\
  ci_response_time r = None /\
  clock_at 0 11 30 - clock_at 0 10 0 >= timedelta_minutes 90 /\
  check_ins (store (mark_stale_as_missed s (clock_at 0 11 30))) = [r].
Proof.
  vm_compute. repeat split; discriminate.
Qed.

(** ** Reclassification at wake time *)

Lemma in_window_iff :
  forall lo hi r,
    in_window lo hi r = true <-> lo <= ci_scheduled_time r <= hi.
Proof.
  intros lo hi r. unfold in_window.
  rewrite andb_true_iff, !Z.leb_le. reflexivity.
Qed.

Lemma wake_row_moves :
  forall lo hi r, slept_through lo hi r -> wake_row lo hi r = with_status r sleeping.
Proof.
  intros lo hi r [Hwin Hst]. unfold wake_row.
  apply in_window_iff in Hwin. rewrite Hwin.
  destruct Hst as [-> | ->]; reflexivity.
Qed.

Lemma wake_row_keeps :
  forall lo hi r, ~ slept_through lo hi r -> wake_row lo hi r = r.
Proof.
  intros lo hi r Hnot. unfold wake_row.
  destruct (in_window lo hi r) eqn:Hwin; [|reflexivity].
  apply in_window_iff in Hwin.
  destruct (ci_status r) eqn:Hst; simpl; try reflexivity;
    exfalso; apply Hnot; split; auto.
Qed.

Lemma slept_through_dec :
  forall lo hi r, slept_through lo hi r \/ ~ slept_through lo hi r.
Proof.
  intros lo hi r. unfold slept_through.
  destruct (in_window lo hi r) eqn:Hwin.
  - apply in_window_iff in Hwin.
    destruct (ci_status r) eqn:Hst;
      try (left; split; [exact Hwin | auto]; fail);
      right; intros [_ [H|H]]; discriminate.
  - right. intros [Hw _]. apply in_window_iff in Hw. congruence.
Qed.

(** C2, as the code has it.  When [handle_wake_button] runs with a recorded
    [sleep_start_time] and a well-formed wake time, a record becomes
    [sleeping] exactly when its [scheduled_time] lies in
    [[retroactive_start, now]] and its status is [missed] or [pending];
    every other record, a [sent] one in the window included, is left as it
    is, in place. *)
Theorem handle_wake_reclassifies_missed_and_pending :
  forall (s : sys) (chat_id : Z) (today_clock now : datetime)
         (row : user_config) (sleep_start : datetime) (tm : Z * Z),
    find (fun u => uc_chat_id u =? chat_id) (user_configs (store s)) = Some row ->
    uc_sleep_start_time row = Some sleep_start ->
    parse_wake_time (default_wake_time_str row) = Some tm ->
    let lo := Z.max sleep_start (datetime_combine (date_of today_clock) tm) in
    let s' := snd (handle_wake_button s chat_id today_clock now) in
    Forall2 (fun r r' =>
               (slept_through lo now r /\ r' = with_status r sleeping) \/
               (~ slept_through lo now r /\ r' = r))
            (check_ins (store s)) (check_ins (store s')) /\
    (forall r, In r (check_ins (store s)) -> ci_status r = sent ->
               In r (check_ins (store s'))).
Proof.
  intros s chat_id today_clock now row sleep_start tm Hrow Hsleep Hparse lo s'.
  subst s'. rewrite (handle_wake_button_runs _ _ _ _ _ _ _ Hrow Hsleep Hparse).
  fold lo. simpl. split.
  - apply Forall2_map_same. intros r _.
    destruct (slept_through_dec lo now r) as [Hyes|Hno].
    + left. split; [exact Hyes | apply wake_row_moves; exact Hyes].
    + right. split; [exact Hno | apply wake_row_keeps; exact Hno].
  - intros r Hin Hsent.
    replace r with (wake_row lo now r) at 1.
    + apply in_map. exact Hin.
    + apply wake_row_keeps. intros [_ [H|H]]; congruence.
Qed.

Lemma handle_wake_reclassifies_missed_and_pending_witness :
  let s := mk_sys (mk_db [check_in_at 1 (clock_at 1 7 0) missed;
                          check_in_at 2 (clock_at 1 8 0) missed;
                          check_in_at 3 (clock_at 1 9 0) sent]
                         [config_asleep] []) (Some 3) in
  let s' := snd (handle_wake_button s sample_chat (clock_at 1 9 30) (clock_at 1 9 30)) in
  Forall2 (fun r r' =>
             (slept_through (clock_at 1 7 30) (clock_at 1 9 30) r /\
              r' = with_status r sleeping) \/
             (~ slept_through (clock_at 1 7 30) (clock_at 1 9 30) r /\ r' = r))
          (check_ins (store s)) (check_ins (store s')) /\
  In (check_in_at 3 (clock_at 1 9 0) sent) (check_ins (store s')).
Proof.
  intros s s'.
  destruct (handle_wake_reclassifies_missed_and_pending s sample_chat
              (clock_at 1 9 30) (clock_at 1 9 30) config_asleep
              (clock_at 0 23 0) (7, 30) eq_refl eq_refl eq_refl)
    as [Hrows Hsent].
  split; [exact Hrows |].
  apply Hsent; [right; right; left; reflexivity | reflexivity].
Defined.

(** C2, counterexample to the claim as stated.  Sleep at 23:00, Wake at
    07:00, the 08:00 prompt goes out, Wake is pressed again at 08:10: the
    prompt is scheduled inside the window [[08:00, 08:10]] and has status
    [sent], and the handler leaves it [sent]. *)
Lemma wake_leaves_sent_record_in_window :
  let s := run initial [ev_start sample_chat (clock_at 0 22 0);
                        ev_sleep sample_chat (clock_at 0 23 0);
                        ev_wake sample_chat (clock_at 1 7 0) (clock_at 1 7 0);
                        ev_hourly (clock_at 1 8 0) false (Returns tt)] in
  let r := check_in_at 1 (clock_at 1 8 0) sent in
  let lo := clock_at 1 8 0 in
  let now := clock_at 1 8 10 in
  check_ins (store s) = [r] /\
  handle_wake_button s sample_chat now now
    = (Returns (rounded_hours (now - clock_at 0 23 0)),
       mk_sys (reconcile (store s) sample_chat lo now) (Some 1)) /\
  lo <= ci_scheduled_time r <= now /\
  check_ins (reconcile (store s) sample_chat lo now) = [r].
Proof.
  vm_compute. repeat split; discriminate.
Qed.

(** ** Replies and the classifier *)

Lemma analyze_activity_on_exception :
  forall s text check_in_id e now_save now_update,
    analyze_activity s text check_in_id (gemini_raises e) now_save now_update
    = (exception_fallback text e, s).
Proof. reflexivity. Qed.

Lemma analyze_activity_on_undecodable :
  forall s text check_in_id now_save now_update,
    let '(a, s') := analyze_activity s text check_in_id gemini_undecodable
                                     now_save now_update in
    a = undecodable_fallback text /\
    check_ins (store s')
    = map (status_row check_in_id completed now_update) (check_ins (store s)).
Proof. intros. simpl. split; reflexivity. Qed.

(** C4, the code at the failing input.  The 10:00 prompt is answered with
    "worked on report" and the classifier call raises.  The caller gets the
    neutral judgment ([beneficial], score 5), but the record of the prompt
    keeps status [sent] and no activity entry is written, whereas the
    handler for an undecodable answer, next to it, stores the entry and
    marks the record [completed]. *)
Theorem classifier_exception_leaves_check_in_sent :
  let s := run initial [ev_start sample_chat (clock_at 0 9 0);
                        ev_hourly (clock_at 0 10 0) false (Returns tt)] in
  let r := check_in_at 1 (clock_at 0 10 0) sent in
  let text := "worked on report"%string in
  let t := clock_at 0 10 20 in
  let after := handle_check_in_reply s text (gemini_raises "unavailable") t t in
  let sibling := handle_check_in_reply s text gemini_undecodable t t in
  check_ins (store s) = [r] /\
  fst after = Some (exception_fallback text "unavailable") /\
  an_productivity_type (exception_fallback text "unavailable")
    = Some "beneficial"%string /\
  an_alignment_score (exception_fallback text "unavailable") = Some 5 /\
  check_ins (store (snd after)) = [r] /\
  activity_logs (store (snd after)) = [] /\
  fst (get_pending_check_in (snd after)) = Some 1 /\
  map ci_status (check_ins (store (snd sibling))) = [completed] /\
  List.length (activity_logs (store (snd sibling))) = 1%nat.
Proof.
  vm_compute. repeat split.
Qed.

(** ** Retry backoff *)

Lemma replace_second0_aligned :
  forall t k,
    t mod us_per_minute = 0 ->
    replace_second0 (t + timedelta_minutes k) = t + timedelta_minutes k.
Proof.
  intros t k Haligned. unfold replace_second0, timedelta_minutes.
  rewrite Z.mod_add by (unfold us_per_minute, us_per_second; lia).
  lia.
Qed.

Lemma timedelta_minutes_add :
  forall a b, timedelta_minutes a + timedelta_minutes b = timedelta_minutes (a + b).
Proof. intros a b. unfold timedelta_minutes. lia. Qed.

Lemma aligned_plus_minutes :
  forall t k,
    t mod us_per_minute = 0 -> (t + timedelta_minutes k) mod us_per_minute = 0.
Proof.
  intros t k Haligned. unfold timedelta_minutes.
  rewrite Z.mod_add by (unfold us_per_minute, us_per_second; lia).
  exact Haligned.
Qed.

Lemma run_jobs_step :
  forall fuel busy delivery s j rest,
    run_jobs (S fuel) busy delivery s (j :: rest)
    = (let '(s1, added) :=
         _retry_check_in s (job_chat_id j) (job_retry_count j) (run_date j)
                         (busy (run_date j)) delivery in
       let '(s2, calls) := run_jobs fuel busy delivery s1 (rest ++ added) in
       (s2, run_date j :: calls)).
Proof. reflexivity. Qed.

Lemma run_jobs_empty :
  forall fuel busy delivery s, run_jobs fuel busy delivery s [] = (s, []).
Proof. intros [|fuel] busy delivery s; reflexivity. Qed.

Lemma retry_while_busy :
  forall s chat_id retry_count t delivery,
    retry_count <= 3 ->
    t mod us_per_minute = 0 ->
    _retry_check_in s chat_id retry_count t true delivery
    = (s, [mk_job (t + timedelta_minutes (if retry_count =? 1 then 5 else 10))
                  chat_id (retry_count + 1)]).
Proof.
  intros s chat_id retry_count t delivery Hle Haligned.
  unfold _retry_check_in.
  destruct (retry_count >? 3) eqn:Hgt; [apply Z.gtb_lt in Hgt; lia |].
  rewrite <- (Z.add_0_r t) at 1. change 0 with (timedelta_minutes 0) at 1.
  rewrite replace_second0_aligned by exact Haligned.
  unfold timedelta_minutes at 1. rewrite Z.mul_0_l, Z.add_0_r. reflexivity.
Qed.

Lemma retry_abandons :
  forall s chat_id retry_count t busy delivery,
    3 < retry_count ->
    _retry_check_in s chat_id retry_count t busy delivery = (s, []).
Proof.
  intros s chat_id retry_count t busy delivery Hgt. unfold _retry_check_in.
  destruct (retry_count >? 3) eqn:Hb; [reflexivity|].
  rewrite Z.gtb_ltb in Hb. apply Z.ltb_ge in Hb. lia.
Qed.

Lemma replace_second0_on_the_minute :
  forall t, replace_second0 t mod us_per_minute = 0.
Proof.
  intro t. unfold replace_second0.
  assert (Hpos : us_per_minute <> 0)
    by (unfold us_per_minute, us_per_second; lia).
  rewrite Zminus_mod, Z.mod_mod, Z.sub_diag by exact Hpos.
  apply Z.mod_0_l. exact Hpos.
Qed.

Lemma retry_when_free :
  forall s chat_id retry_count t delivery,
    retry_count <= 3 ->
    _retry_check_in s chat_id retry_count t false delivery
    = (snd (send_check_in s chat_id t delivery), []).
Proof.
  intros s chat_id retry_count t delivery Hle. unfold _retry_check_in.
  destruct (retry_count >? 3) eqn:Hgt; [apply Z.gtb_lt in Hgt; lia |].
  reflexivity.
Qed.

Lemma hourly_when_busy :
  forall s T chat_id delivery,
    _get_configured_chat_id s = Some chat_id ->
    truthy (Some chat_id) = true ->
    _is_user_sleeping s chat_id = false ->
    _send_hourly_check_in s T true delivery
    = (s, [mk_job (replace_second0 T + timedelta_minutes 5) chat_id 1]).
Proof.
  intros s T chat_id delivery Hchat Htruthy Hawake.
  unfold _send_hourly_check_in. rewrite Hchat, Htruthy, Hawake. reflexivity.
Qed.

Lemma hourly_when_free :
  forall s T chat_id delivery,
    _get_configured_chat_id s = Some chat_id ->
    truthy (Some chat_id) = true ->
    _is_user_sleeping s chat_id = false ->
    _send_hourly_check_in s T false delivery
    = (snd (send_check_in s chat_id T delivery), []).
Proof.
  intros s T chat_id delivery Hchat Htruthy Hawake.
  unfold _send_hourly_check_in. rewrite Hchat, Htruthy, Hawake. reflexivity.
Qed.

(** C3, as the code has it.  For a configured recipient who is awake:
    with the busy predicate of the repository the hourly tick at [T]
    registers no retry and dispatches at [T], whatever conversation the
    recipient is in.  For any answers [busy] of a predicate in its place,
    the instants at which [_retry_check_in] runs are [T0 + 5], [T0 + 10],
    [T0 + 20] and [T0 + 30] minutes, [T0] being [T] cut to the minute, for
    as long as every earlier check found the recipient busy; the first
    check that finds the recipient free dispatches at that instant and no
    further retry follows; the call at [T0 + 30] carries retry count 4 and
    gives up without asking the predicate, leaving the store as it was. *)
Theorem hourly_tick_retry_schedule :
  forall (s : sys) (T chat_id : Z) (delivery : outcome unit) (fuel : nat)
         (busy : datetime -> bool) (user_data : Z -> conversation_state),
    _get_configured_chat_id s = Some chat_id ->
    truthy (Some chat_id) = true ->
    _is_user_sleeping s chat_id = false ->
    (4 <= fuel)%nat ->
    let T0 := replace_second0 T in
    let dispatch_at (t : datetime) := snd (send_check_in s chat_id t delivery) in
    hourly_tick_with_retries fuel (fun _ => _is_user_busy user_data chat_id)
                             delivery s T
    = (dispatch_at T, []) /\
    hourly_tick_with_retries fuel busy delivery s T
    = if busy T then
        if busy (T0 + timedelta_minutes 5) then
          if busy (T0 + timedelta_minutes 10) then
            if busy (T0 + timedelta_minutes 20) then
              (s, [T0 + timedelta_minutes 5; T0 + timedelta_minutes 10;
                   T0 + timedelta_minutes 20; T0 + timedelta_minutes 30])
            else
              (dispatch_at (T0 + timedelta_minutes 20),
               [T0 + timedelta_minutes 5; T0 + timedelta_minutes 10;
                T0 + timedelta_minutes 20])
          else
            (dispatch_at (T0 + timedelta_minutes 10),
             [T0 + timedelta_minutes 5; T0 + timedelta_minutes 10])
        else (dispatch_at (T0 + timedelta_minutes 5), [T0 + timedelta_minutes 5])
      else (dispatch_at T, []).
Proof.
  intros s T chat_id delivery fuel busy user_data Hchat Htruthy Hawake Hfuel
         T0 dispatch_at.
  assert (Haligned : T0 mod us_per_minute = 0)
    by apply replace_second0_on_the_minute.
  assert (Hfree : forall f oracle,
            oracle T = false ->
            hourly_tick_with_retries f oracle delivery s T = (dispatch_at T, [])).
  { intros f oracle Hno. unfold hourly_tick_with_retries. rewrite Hno.
    rewrite (hourly_when_free _ _ _ _ Hchat Htruthy Hawake).
    apply run_jobs_empty. }
  split; [apply Hfree; reflexivity |].
  destruct (busy T) eqn:H0; [|apply Hfree; exact H0].
  unfold hourly_tick_with_retries. rewrite H0.
  rewrite (hourly_when_busy _ _ _ _ Hchat Htruthy Hawake). fold T0.
  destruct fuel as [|[|[|[|fuel]]]]; try lia.
  rewrite run_jobs_step. cbn [job_chat_id job_retry_count run_date].
  destruct (busy (T0 + timedelta_minutes 5)) eqn:H5.
  2:{ rewrite retry_when_free by lia. cbn [app].
      rewrite run_jobs_empty. reflexivity. }
  rewrite retry_while_busy by (try lia; apply aligned_plus_minutes; exact Haligned).
  cbn [app Z.eqb Pos.eqb].
  rewrite <- Z.add_assoc, timedelta_minutes_add.
  rewrite run_jobs_step. cbn [job_chat_id job_retry_count run_date].
  change (5 + 5) with 10. change (1 + 1) with 2.
  destruct (busy (T0 + timedelta_minutes 10)) eqn:H10.
  2:{ rewrite retry_when_free by lia. cbn [app].
      rewrite run_jobs_empty. reflexivity. }
  rewrite retry_while_busy by (try lia; apply aligned_plus_minutes; exact Haligned).
  cbn [app Z.eqb Pos.eqb].
  rewrite <- Z.add_assoc, timedelta_minutes_add.
  rewrite run_jobs_step. cbn [job_chat_id job_retry_count run_date].
  change (10 + 10) with 20. change (2 + 1) with 3.
  destruct (busy (T0 + timedelta_minutes 20)) eqn:H20.
  2:{ rewrite retry_when_free by lia. cbn [app].
      rewrite run_jobs_empty. reflexivity. }
  rewrite retry_while_busy by (try lia; apply aligned_plus_minutes; exact Haligned).
  cbn [app Z.eqb Pos.eqb].
  rewrite <- Z.add_assoc, timedelta_minutes_add.
  rewrite run_jobs_step. cbn [job_chat_id job_retry_count run_date].
  change (20 + 10) with 30. change (3 + 1) with 4.
  rewrite retry_abandons by lia.
  cbn [app]. rewrite run_jobs_empty. reflexivity.
Qed.

(** The 10:00 tick of the program for a recipient set up at 09:00: the
    prompt goes out at 10:00 and no retry is registered. *)
Lemma hourly_tick_retry_schedule_witness :
  let s := run initial [ev_start sample_chat (clock_at 0 9 0)] in
  _get_configured_chat_id s = Some sample_chat /\
  _is_user_sleeping s sample_chat = false /\
  hourly_tick_with_retries 4 (fun _ => _is_user_busy (fun _ => None) sample_chat)
                           (Returns tt) s (clock_at 0 10 0)
  = (snd (send_check_in s sample_chat (clock_at 0 10 0) (Returns tt)), []).
Proof.
  intro s.
  split; [reflexivity |]. split; [reflexivity |].
  apply (hourly_tick_retry_schedule s (clock_at 0 10 0) sample_chat (Returns tt)
           4 (fun _ => false) (fun _ => None)
           eq_refl eq_refl eq_refl (le_n 4)).
Defined.

(** C3, counterexample to the claim as stated.  The recipient typed
    [/add] at some point before 10:00 and is in the flow
    "AWAITING_ADD_TASK" when the hourly tick fires.  The busy predicate
    answers [False] all the same: no retry is registered for 10:05, 10:15
    and 10:25, the prompt goes out at 10:00 and the record of that hour
    exists at once. *)
Lemma hourly_tick_ignores_conversation :
  let s := run initial [ev_start sample_chat (clock_at 0 9 0)] in
  let user_data := fun chat : Z =>
    if chat =? sample_chat then Some "AWAITING_ADD_TASK"%string else None in
  let result :=
    hourly_tick_with_retries 10 (fun _ => _is_user_busy user_data sample_chat)
                             (Returns tt) s (clock_at 0 10 0) in
  in_conversation_flow (user_data sample_chat) = true /\
  _is_user_busy user_data sample_chat = false /\
  snd result = [] /\
  snd result <> [clock_at 0 10 5; clock_at 0 10 15; clock_at 0 10 25] /\
  check_ins (store (fst result)) = [check_in_at 1 (clock_at 0 10 0) sent] /\
  pending_check_in_id (fst result) = Some 1.
Proof.
  vm_compute. repeat split. discriminate.
Qed.

(** ** Preservation of well-formedness *)

Lemma stale_row_keeps_stamps : forall thr, keeps_stamps (stale_row thr).
Proof.
  intros thr r. unfold stale_row.
  destruct (status_eqb (ci_status r) sent && _); repeat split; reflexivity.
Qed.

Lemma wake_row_keeps_stamps : forall lo hi, keeps_stamps (wake_row lo hi).
Proof.
  intros lo hi r. unfold wake_row.
  destruct (in_window lo hi r && _); repeat split; reflexivity.
Qed.

Lemma status_row_keeps_stamps :
  forall i st now, keeps_stamps (status_row i st now).
Proof.
  intros i st now r. unfold status_row.
  destruct (ci_id r =? i); repeat split; reflexivity.
Qed.

Lemma rows_ok_later :
  forall c c' d, c <= c' -> rows_ok c d -> rows_ok c' d.
Proof.
  intros c c' d Hle [Hnodup Hrows]. split; [exact Hnodup|].
  intros r Hin. destruct (Hrows r Hin) as (Hid & Hsent & Hsched).
  repeat split; try assumption; lia.
Qed.

Lemma rows_ok_map :
  forall c d d' f,
    keeps_stamps f ->
    check_ins d' = map f (check_ins d) ->
    rows_ok c d -> rows_ok c d'.
Proof.
  intros c d d' f Hf Heq [Hnodup Hrows]. unfold rows_ok. rewrite Heq. split.
  - rewrite map_map.
    rewrite (map_ext (fun r => ci_id (f r)) ci_id); [exact Hnodup|].
    intro r. apply Hf.
  - intros r' Hin. apply in_map_iff in Hin. destruct Hin as (r & <- & Hin).
    destruct (Hf r) as (Hid & Hsched & Hsent).
    rewrite Hid, Hsched, Hsent. apply Hrows. exact Hin.
Qed.

Lemma logs_ok_map :
  forall d d' f,
    (forall r, ci_id (f r) = ci_id r) ->
    (forall r, settled r -> settled (f r)) ->
    check_ins d' = map f (check_ins d) ->
    activity_logs d' = activity_logs d ->
    logs_ok d -> logs_ok d'.
Proof.
  intros d d' f Hid Hsettled Hrows Hlogs Hok l Hin.
  rewrite Hlogs in Hin. destruct (Hok l Hin) as (r & Hr & Hre & Hst).
  exists (f r). rewrite Hrows, Hid. repeat split.
  - apply in_map. exact Hr.
  - exact Hre.
  - apply Hsettled. exact Hst.
Qed.

Lemma stale_row_settled : forall thr r, settled r -> settled (stale_row thr r).
Proof.
  intros thr r [Hst|Hst]; unfold stale_row; rewrite Hst; simpl; [left|right];
    exact Hst.
Qed.

Lemma wake_row_settled : forall lo hi r, settled r -> settled (wake_row lo hi r).
Proof.
  intros lo hi r [Hst|Hst]; unfold wake_row; rewrite Hst; simpl;
    rewrite andb_false_r; [left|right]; exact Hst.
Qed.

Lemma status_row_settled :
  forall i now r, settled r -> settled (status_row i completed now r).
Proof.
  intros i now r Hst. unfold status_row.
  destruct (ci_id r =? i); [left; reflexivity | exact Hst].
Qed.

Lemma stale_row_sent :
  forall thr q, ci_status (stale_row thr q) = sent ->
                stale_row thr q = q /\ ci_status q = sent.
Proof.
  intros thr q. unfold stale_row.
  destruct (status_eqb (ci_status q) sent && _) eqn:Hb; simpl.
  - discriminate.
  - intro Hst. split; [reflexivity | exact Hst].
Qed.

Lemma wake_row_sent :
  forall lo hi q, ci_status (wake_row lo hi q) = sent ->
                  wake_row lo hi q = q /\ ci_status q = sent.
Proof.
  intros lo hi q. unfold wake_row.
  destruct (in_window lo hi q && _) eqn:Hb; simpl.
  - discriminate.
  - intro Hst. split; [reflexivity | exact Hst].
Qed.

Lemma wake_row_of_sent :
  forall lo hi r, ci_status r = sent -> wake_row lo hi r = r.
Proof.
  intros lo hi r Hst. apply wake_row_keeps. intros [_ [H|H]]; congruence.
Qed.

(** The sweep. *)
Lemma well_formed_sweep :
  forall c now s,
    c <= now -> well_formed c s -> well_formed now (mark_stale_as_missed s now).
Proof.
  intros c now s Hle (Hrows & Hlogs & Hptr).
  set (thr := now - timedelta_minutes 90).
  split; [|split].
  - apply (rows_ok_later c now _ Hle).
    apply (rows_ok_map c (store s) _ (stale_row thr));
      [apply stale_row_keeps_stamps | reflexivity | exact Hrows].
  - apply (logs_ok_map (store s) _ (stale_row thr));
      [intro r; apply stale_row_keeps_stamps | apply stale_row_settled
      | reflexivity | reflexivity | exact Hlogs].
  - intros p Hp. simpl in Hp. destruct (Hptr p Hp) as (r & Hr & Hid & Hmax).
    exists (stale_row thr r). simpl. fold thr.
    split; [apply in_map; exact Hr |].
    split; [rewrite <- Hid; apply stale_row_keeps_stamps |].
    intros q Hq Hqsent.
    apply in_map_iff in Hq. destruct Hq as (q0 & <- & Hq0).
    apply stale_row_sent in Hqsent. destruct Hqsent as [Hsame Hq0sent].
    destruct (Hmax q0 Hq0 Hq0sent) as [Hrsent Hrecent].
    destruct (stale_row_keeps_stamps thr q0) as (_ & Hq0s & _).
    destruct (stale_row_keeps_stamps thr r) as (_ & Hrs & _).
    rewrite Hq0s, Hrs. split; [|exact Hrecent].
    destruct Hrows as [_ Hstamp].
    destruct (Hstamp r Hr) as (_ & Hrt & _).
    destruct (Hstamp q0 Hq0) as (_ & Hqt & _).
    unfold stale_row in Hsame |- *.
    rewrite Hq0sent, Hqt in Hsame. rewrite Hrsent, Hrt. simpl in *.
    destruct (ci_scheduled_time q0 <? thr) eqn:Hqlt.
    + exfalso.
      assert (Hbad : ci_status (with_status q0 missed) = ci_status q0)
        by (rewrite Hsame; reflexivity).
      simpl in Hbad. congruence.
    + apply Z.ltb_ge in Hqlt.
      destruct (ci_scheduled_time r <? thr) eqn:Hrlt;
        [apply Z.ltb_lt in Hrlt; lia | exact Hrsent].
Qed.

(** Dispatch. *)
Lemma send_check_in_state :
  forall s chat_id now delivery,
    snd (send_check_in s chat_id now delivery)
    = mk_sys (set_check_ins (store s)
                (check_ins (store s) ++
                 [mk_check_in (next_rowid (map ci_id (check_ins (store s))))
                              now (Some now) None sent 0]))
             (Some (next_rowid (map ci_id (check_ins (store s))))).
Proof. intros s chat_id now [u|e]; reflexivity. Qed.

Lemma well_formed_send :
  forall c now s chat_id delivery,
    c <= now -> well_formed c s ->
    well_formed now (snd (send_check_in s chat_id now delivery)).
Proof.
  intros c now s chat_id delivery Hle (Hrows & Hlogs & Hptr).
  rewrite send_check_in_state.
  set (new_id := next_rowid (map ci_id (check_ins (store s)))).
  set (row := mk_check_in new_id now (Some now) None sent 0).
  destruct Hrows as [Hnodup Hstamp].
  split; [|split].
  - split; simpl.
    + rewrite map_app. apply NoDup_app; [exact Hnodup | |].
      * simpl. constructor; [intros [] | constructor].
      * intros i Hi [Heq|[]]. simpl in Heq. subst i.
        apply (next_rowid_fresh _ Hi).
    + intros r Hin. apply in_app_or in Hin. destruct Hin as [Hin|[<-|[]]].
      * destruct (Hstamp r Hin) as (Hid & Hsent & Hsched).
        repeat split; try assumption; lia.
      * simpl. repeat split; try lia. apply next_rowid_positive.
  - intros l Hin. simpl in Hin.
    destruct (Hlogs l Hin) as (r & Hr & Hre & Hst).
    exists r. simpl. repeat split; try assumption.
    apply in_or_app. left. exact Hr.
  - intros p Hp. simpl in Hp. inversion Hp; subst p. clear Hp.
    exists row. simpl. split; [apply in_or_app; right; left; reflexivity |].
    split; [reflexivity |].
    intros q Hq _. split; [reflexivity |].
    apply in_app_or in Hq. destruct Hq as [Hq|[<-|[]]].
    + destruct (Hstamp q Hq) as (_ & _ & Hsched). simpl. lia.
    + simpl. lia.
Qed.

Lemma well_formed_hourly :
  forall c now s busy delivery,
    c <= now -> well_formed c s ->
    well_formed now (fst (_send_hourly_check_in s now busy delivery)).
Proof.
  intros c now s busy delivery Hle Hwf.
  assert (Hsame : well_formed now s).
  { destruct Hwf as (Hrows & Hlogs & Hptr).
    split; [apply (rows_ok_later c); assumption | split; assumption]. }
  unfold _send_hourly_check_in.
  destruct (_get_configured_chat_id s) as [chat_id|]; [|exact Hsame].
  destruct (negb (truthy (Some chat_id))); [exact Hsame|].
  destruct (_is_user_sleeping s chat_id); [exact Hsame|].
  destruct busy; [exact Hsame|].
  apply (well_formed_send c); assumption.
Qed.

Lemma well_formed_retry :
  forall c now s chat_id retry_count busy delivery,
    c <= now -> well_formed c s ->
    well_formed now
      (fst (_retry_check_in s chat_id retry_count now busy delivery)).
Proof.
  intros c now s chat_id retry_count busy delivery Hle Hwf.
  assert (Hsame : well_formed now s).
  { destruct Hwf as (Hrows & Hlogs & Hptr).
    split; [apply (rows_ok_later c); assumption | split; assumption]. }
  unfold _retry_check_in.
  destruct (retry_count >? 3); [exact Hsame|].
  destruct busy; [exact Hsame|].
  apply (well_formed_send c); assumption.
Qed.

(** Handlers that only touch [user_config] or the pointer. *)
Lemma well_formed_same_rows :
  forall c c' s s',
    c <= c' ->
    check_ins (store s') = check_ins (store s) ->
    activity_logs (store s') = activity_logs (store s) ->
    (pending_check_in_id s' = pending_check_in_id s \/
     pending_check_in_id s' = None) ->
    well_formed c s -> well_formed c' s'.
Proof.
  intros c c' s s' Hle Hrows Hlogs Hptr ((Hnodup & Hstamp) & Hlok & Hpok).
  split; [|split].
  - unfold rows_ok. rewrite Hrows. split; [exact Hnodup|].
    intros r Hin. destruct (Hstamp r Hin) as (Hid & Hsent & Hsched).
    repeat split; try assumption; lia.
  - unfold logs_ok. rewrite Hrows, Hlogs. exact Hlok.
  - intros p Hp. destruct Hptr as [Hptr|Hptr]; rewrite Hptr in Hp;
      [|discriminate].
    rewrite Hrows. apply Hpok. exact Hp.
Qed.

Lemma well_formed_start :
  forall c now s chat_id,
    c <= now -> well_formed c s -> well_formed now (start_command s chat_id now).
Proof.
  intros c now s chat_id Hle Hwf. unfold start_command.
  destruct (existsb _ _);
    apply (well_formed_same_rows c now s); auto.
Qed.

Lemma well_formed_sleep :
  forall c now s chat_id,
    c <= now -> well_formed c s ->
    well_formed now (handle_sleep_button s chat_id now).
Proof.
  intros c now s chat_id Hle Hwf.
  apply (well_formed_same_rows c now s); auto.
Qed.

(** The storage fallback of the pointer. *)
Lemma most_recent_sent_some :
  forall rows r,
    most_recent_sent rows = Some r ->
    In r rows /\ ci_status r = sent /\
    forall q, In q rows -> ci_status q = sent ->
              sent_time_ltb (ci_sent_time r) (ci_sent_time q) = false.
Proof.
  induction rows as [|a rows IH]; intros r Hfind; simpl in Hfind;
    [discriminate|].
  destruct (status_eqb (ci_status a) sent) eqn:Ha.
  - apply status_eqb_eq in Ha.
    destruct (most_recent_sent rows) as [r'|] eqn:Hrest.
    + destruct (IH r' eq_refl) as (Hin & Hst & Hmax).
      destruct (sent_time_ltb (ci_sent_time a) (ci_sent_time r')) eqn:Hcmp;
        inversion Hfind; subst r.
      * split; [right; exact Hin | split; [exact Hst|]].
        intros q [<-|Hq] Hqs; [|apply Hmax; assumption].
        destruct (ci_sent_time r'), (ci_sent_time a); simpl in *;
          try reflexivity; try discriminate.
        apply Z.ltb_lt in Hcmp. apply Z.ltb_ge. lia.
      * split; [left; reflexivity | split; [exact Ha|]].
        intros q [<-|Hq] Hqs.
        -- destruct (ci_sent_time a); simpl; [apply Z.ltb_irrefl | reflexivity].
        -- specialize (Hmax q Hq Hqs).
           destruct (ci_sent_time a), (ci_sent_time r'), (ci_sent_time q);
             simpl in *; try reflexivity; try discriminate.
           apply Z.ltb_ge in Hcmp, Hmax. apply Z.ltb_ge. lia.
    + inversion Hfind; subst r.
      split; [left; reflexivity | split; [exact Ha|]].
      intros q [<-|Hq] Hqs.
      * destruct (ci_sent_time a); simpl; [apply Z.ltb_irrefl | reflexivity].
      * exfalso. clear IH Hfind.
        induction rows as [|b rows IHr]; [destruct Hq|].
        simpl in Hrest.
        destruct (status_eqb (ci_status b) sent) eqn:Hb.
        -- destruct (most_recent_sent rows) as [x|];
             [destruct (sent_time_ltb _ _)|]; discriminate.
        -- destruct Hq as [<-|Hq]; [|apply IHr; assumption].
           rewrite Hqs in Hb. discriminate.
  - destruct (IH r Hfind) as (Hin & Hst & Hmax).
    split; [right; exact Hin | split; [exact Hst|]].
    intros q [<-|Hq] Hqs; [|apply Hmax; assumption].
    rewrite Hqs in Ha. discriminate.
Qed.

Lemma most_recent_sent_none :
  forall rows,
    most_recent_sent rows = None ->
    forall q, In q rows -> ci_status q <> sent.
Proof.
  induction rows as [|a rows IH]; intros Hnone q Hq; [destruct Hq|].
  simpl in Hnone.
  destruct (status_eqb (ci_status a) sent) eqn:Ha.
  - destruct (most_recent_sent rows) as [x|];
      [destruct (sent_time_ltb _ _)|]; discriminate.
  - destruct Hq as [<-|Hq]; [|apply IH; assumption].
    intro Hs. rewrite Hs in Ha. discriminate.
Qed.

Lemma get_pending_check_in_cases :
  forall s,
    (truthy (pending_check_in_id s) = true /\
     get_pending_check_in s = (pending_check_in_id s, s)) \/
    (truthy (pending_check_in_id s) = false /\
     exists r, most_recent_sent (check_ins (store s)) = Some r /\
               get_pending_check_in s
               = (Some (ci_id r), mk_sys (store s) (Some (ci_id r)))) \/
    (truthy (pending_check_in_id s) = false /\
     most_recent_sent (check_ins (store s)) = None /\
     get_pending_check_in s = (pending_check_in_id s, s)).
Proof.
  intro s. unfold get_pending_check_in.
  destruct (truthy (pending_check_in_id s)); simpl.
  - left. split; reflexivity.
  - right. destruct (most_recent_sent (check_ins (store s))) as [r|].
    + left. split; [reflexivity|]. exists r. split; reflexivity.
    + right. repeat split; reflexivity.
Qed.

Lemma get_pending_check_in_result :
  forall s,
    fst (get_pending_check_in s)
    = pending_check_in_id (snd (get_pending_check_in s)) /\
    store (snd (get_pending_check_in s)) = store s.
Proof.
  intro s.
  destruct (get_pending_check_in_cases s)
    as [[_ ->]|[[_ (r & _ & ->)]|(_ & _ & ->)]]; split; reflexivity.
Qed.

Lemma well_formed_lookup :
  forall c s, well_formed c s -> well_formed c (snd (get_pending_check_in s)).
Proof.
  intros c s Hwf.
  destruct (get_pending_check_in_cases s)
    as [[_ ->]|[[_ (r & Hfind & ->)]|(_ & _ & ->)]]; try exact Hwf.
  destruct Hwf as (Hrows & Hlogs & _).
  split; [exact Hrows | split; [exact Hlogs|]].
  intros p Hp. simpl in Hp. inversion Hp; subst p. clear Hp.
  destruct (most_recent_sent_some _ _ Hfind) as (Hin & Hst & Hmax).
  exists r. simpl. split; [exact Hin | split; [reflexivity|]].
  intros q Hq Hqs. split; [exact Hst|].
  specialize (Hmax q Hq Hqs).
  destruct Hrows as [_ Hstamp].
  destruct (Hstamp r Hin) as (_ & Hrt & _).
  destruct (Hstamp q Hq) as (_ & Hqt & _).
  rewrite Hrt, Hqt in Hmax. simpl in Hmax. apply Z.ltb_ge in Hmax. exact Hmax.
Qed.

(** The reply handler. *)
Lemma well_formed_analyze_clear :
  forall c c' s text i reply now_save now_update,
    c <= c' ->
    well_formed c s ->
    (exists r, In r (check_ins (store s)) /\ ci_id r = i) ->
    well_formed c'
      (clear_pending_check_in
         (snd (analyze_activity s text i reply now_save now_update))).
Proof.
  intros c c' s text i reply now_save now_update Hle Hwf (r0 & Hr0 & Hi).
  assert (Hraise : well_formed c' (clear_pending_check_in s)).
  { apply (well_formed_same_rows c c' s); auto. }
  assert (Hpersist : forall a,
    well_formed c'
      (clear_pending_check_in
         (mk_sys (update_check_in_status
                    (save_activity_log (store s) i text a now_save)
                    i completed now_update)
                 (pending_check_in_id s)))).
  { intro a. destruct Hwf as (Hrows & Hlogs & _).
    split; [|split].
    - apply (rows_ok_later c c' _ Hle).
      apply (rows_ok_map c (store s) _ (status_row i completed now_update));
        [apply status_row_keeps_stamps | reflexivity | exact Hrows].
    - intros l Hin. simpl in Hin. apply in_app_or in Hin.
      destruct Hin as [Hin|[<-|[]]].
      + destruct (Hlogs l Hin) as (r & Hr & Hre & Hst).
        exists (status_row i completed now_update r). simpl.
        split; [apply in_map; exact Hr |].
        destruct (status_row_keeps_stamps i completed now_update r) as (-> & _).
        split; [exact Hre | apply status_row_settled; exact Hst].
      + exists (status_row i completed now_update r0). simpl.
        split; [apply in_map; exact Hr0 |].
        unfold status_row. rewrite Hi, Z.eqb_refl. simpl.
        split; [reflexivity | left; reflexivity].
    - intros p Hp. discriminate. }
  destruct reply; simpl; try exact Hraise; apply Hpersist.
Qed.

Lemma well_formed_reply :
  forall c c' s text reply now_save now_update,
    c <= c' ->
    well_formed c s ->
    well_formed c'
      (snd (handle_check_in_reply s text reply now_save now_update)).
Proof.
  intros c c' s text reply now_save now_update Hle Hwf.
  unfold handle_check_in_reply.
  pose proof (well_formed_lookup c s Hwf) as Hwf1.
  destruct (get_pending_check_in_result s) as [Hfst _].
  destruct (get_pending_check_in s) as [pending_id s1]. simpl in *.
  assert (Hsame : well_formed c' s1)
    by (apply (well_formed_same_rows c c' s1); auto).
  destruct pending_id as [i|]; [|exact Hsame].
  destruct (truthy (Some i)); [|exact Hsame].
  pose proof (well_formed_analyze_clear c c' s1 text i reply now_save now_update
                Hle Hwf1) as Hdone.
  destruct (analyze_activity s1 text i reply now_save now_update) as [a s2].
  simpl in *. apply Hdone.
  destruct Hwf1 as (_ & _ & Hptr).
  destruct (Hptr i (eq_sym Hfst)) as (r & Hr & Hid & _).
  exists r. split; assumption.
Qed.

(** The entries synthesized at wake time. *)
Lemma synthesize_log_cases :
  forall logs r,
    (existsb (refers_to (ci_id r)) logs = true /\ synthesize_log logs r = logs) \/
    (existsb (refers_to (ci_id r)) logs = false /\
     exists l, sleeping_entry_for r l /\ synthesize_log logs r = logs ++ [l]).
Proof.
  intros logs r. unfold synthesize_log.
  destruct (existsb (refers_to (ci_id r)) logs).
  - left. split; reflexivity.
  - right. split; [reflexivity|]. eexists. split; [|reflexivity].
    repeat split; reflexivity.
Qed.

Lemma fold_synthesize_in :
  forall rows logs l,
    In l (fold_left synthesize_log rows logs) ->
    In l logs \/ exists r, In r rows /\ sleeping_entry_for r l.
Proof.
  induction rows as [|r rows IH]; intros logs l Hin; simpl in Hin.
  - left. exact Hin.
  - apply IH in Hin. destruct Hin as [Hin|(r' & Hr' & Hl)].
    + destruct (synthesize_log_cases logs r) as [[_ Heq]|[_ (l0 & Hl0 & Heq)]];
        rewrite Heq in Hin.
      * left. exact Hin.
      * apply in_app_or in Hin. destruct Hin as [Hin|[<-|[]]].
        -- left. exact Hin.
        -- right. exists r. split; [left; reflexivity | exact Hl0].
    + right. exists r'. split; [right; exact Hr' | exact Hl].
Qed.

Lemma well_formed_reconcile :
  forall c now s chat_id lo,
    c <= now -> well_formed c s ->
    well_formed now
      (mk_sys (reconcile (store s) chat_id lo now) (pending_check_in_id s)).
Proof.
  intros c now s chat_id lo Hle (Hrows & Hlogs & Hptr).
  split; [|split].
  - apply (rows_ok_later c now _ Hle).
    apply (rows_ok_map c (store s) _ (wake_row lo now));
      [apply wake_row_keeps_stamps | reflexivity | exact Hrows].
  - intros l Hin. simpl in Hin. apply fold_synthesize_in in Hin.
    destruct Hin as [Hin|(r & Hr & Hl)].
    + destruct (Hlogs l Hin) as (r & Hr & Hre & Hst).
      exists (wake_row lo now r). simpl.
      split; [apply in_map; exact Hr |].
      destruct (wake_row_keeps_stamps lo now r) as (-> & _).
      split; [exact Hre | apply wake_row_settled; exact Hst].
    + unfold sleeping_in_window in Hr. apply filter_In in Hr.
      destruct Hr as [Hr Hb]. apply andb_prop in Hb. destruct Hb as [Hb _].
      apply status_eqb_eq in Hb.
      exists r. simpl. split; [exact Hr |].
      destruct Hl as (_ & _ & _ & Hre). split; [exact Hre | right; exact Hb].
  - intros p Hp. simpl in Hp. destruct (Hptr p Hp) as (r & Hr & Hid & Hmax).
    exists (wake_row lo now r). simpl.
    split; [apply in_map; exact Hr |].
    split; [rewrite <- Hid; apply wake_row_keeps_stamps |].
    intros q Hq Hqsent.
    apply in_map_iff in Hq. destruct Hq as (q0 & <- & Hq0).
    apply wake_row_sent in Hqsent. destruct Hqsent as [Hsame Hq0sent].
    destruct (Hmax q0 Hq0 Hq0sent) as [Hrsent Hrecent].
    rewrite Hsame, (wake_row_of_sent lo now r Hrsent).
    split; assumption.
Qed.

Lemma well_formed_wake :
  forall c now s chat_id today_clock,
    c <= now -> well_formed c s ->
    well_formed now (snd (handle_wake_button s chat_id today_clock now)).
Proof.
  intros c now s chat_id today_clock Hle Hwf.
  assert (Hsame : well_formed now s)
    by (apply (well_formed_same_rows c now s); auto).
  unfold handle_wake_button.
  destruct (find _ _) as [row|]; [|exact Hsame].
  destruct (uc_sleep_start_time row) as [sleep_start|]; [|exact Hsame].
  destruct (retroactive_start sleep_start row today_clock) as [lo|];
    [|exact Hsame].
  apply (well_formed_reconcile c); assumption.
Qed.

(** Histories. *)
Lemma last_nonempty_default :
  forall (l : list datetime) (x d d' : datetime),
    last (x :: l) d = last (x :: l) d'.
Proof.
  induction l as [|y l IH]; intros x d d'; [reflexivity|].
  change (last (x :: y :: l) d) with (last (y :: l) d).
  change (last (x :: y :: l) d') with (last (y :: l) d').
  apply IH.
Qed.

Lemma last_app_default :
  forall (a b : list datetime) (d : datetime),
    last (a ++ b) d = last b (last a d).
Proof.
  induction a as [|x a IH]; intros b d; [reflexivity|].
  destruct a as [|y a].
  - destruct b as [|z b]; [reflexivity|].
    change (last ([x] ++ z :: b) d) with (last (z :: b) d).
    apply last_nonempty_default.
  - change (last ((x :: y :: a) ++ b) d) with (last ((y :: a) ++ b) d).
    change (last (x :: y :: a) d) with (last (y :: a) d).
    apply IH.
Qed.

Lemma nondecreasing_app :
  forall a b c,
    nondecreasing c (a ++ b)
    = nondecreasing c a && nondecreasing (last a c) b.
Proof.
  induction a as [|x a IH]; intros b c; [reflexivity|].
  simpl app. cbn [nondecreasing]. rewrite IH, andb_assoc.
  destruct a as [|y a]; [reflexivity|].
  change (last (x :: y :: a) c) with (last (y :: a) c).
  rewrite (last_nonempty_default a y x c). reflexivity.
Qed.

Lemma well_formed_exec :
  forall c e s,
    well_formed c s ->
    nondecreasing c (readings e) = true ->
    well_formed (last (readings e) c) (exec s e).
Proof.
  intros c e s Hwf Hclock.
  destruct e; simpl in Hclock |- *; clock_facts.
  - apply (well_formed_start c); assumption.
  - apply (well_formed_hourly c); assumption.
  - apply (well_formed_retry c); assumption.
  - apply (well_formed_sweep c); assumption.
  - apply (well_formed_reply c); [lia | assumption].
  - apply (well_formed_sleep c); assumption.
  - apply (well_formed_wake c); [lia | assumption].
  - apply well_formed_lookup. assumption.
  - apply (well_formed_same_rows c c s); auto; lia.
Qed.

Lemma well_formed_initial : forall c, well_formed c initial.
Proof.
  intro c. split; [|split].
  - split; [constructor | intros r []].
  - intros l [].
  - intros p Hp. discriminate.
Qed.

Lemma chronological_cons :
  forall c e history,
    chronological c (e :: history)
    = nondecreasing c (readings e)
      && chronological (last (readings e) c) history.
Proof.
  intros c e history. unfold chronological. simpl flat_map.
  apply nondecreasing_app.
Qed.

Lemma final_reading_cons :
  forall c e history,
    final_reading c (e :: history)
    = final_reading (last (readings e) c) history.
Proof.
  intros c e history. unfold final_reading. simpl flat_map.
  apply last_app_default.
Qed.

Lemma well_formed_run :
  forall history c s,
    well_formed c s ->
    chronological c history = true ->
    well_formed (final_reading c history) (run s history).
Proof.
  induction history as [|e history IH]; intros c s Hwf Hclock.
  - exact Hwf.
  - rewrite chronological_cons in Hclock. apply andb_prop in Hclock.
    destruct Hclock as [He Hrest].
    rewrite final_reading_cons. simpl. apply IH; [|exact Hrest].
    apply well_formed_exec; assumption.
Qed.

Lemma reachable_well_formed :
  forall c history,
    chronological c history = true ->
    well_formed (final_reading c history) (run initial history).
Proof.
  intros c history Hclock.
  apply well_formed_run; [apply well_formed_initial | exact Hclock].
Qed.

Lemma chronological_app :
  forall history history' c,
    chronological c (history ++ history')
    = chronological c history
      && chronological (final_reading c history) history'.
Proof.
  intros history history' c. unfold chronological, final_reading.
  rewrite flat_map_app. apply nondecreasing_app.
Qed.

(** ** The pending pointer *)

(** C9, as the code has it.  In every state reached from the empty
    store, [get_pending_check_in] leaves the store alone.  With an empty
    pointer it returns the id of a record with status [sent] whenever such
    a record exists, found in storage, and no [sent] record has a later
    [sent_time]; with an empty pointer and no [sent] record the result is
    [None].  With the pointer set it returns the id of a [sent] record
    whenever one exists, provided the clock readings of the run never
    decreased. *)
Theorem get_pending_check_in_finds_sent :
  forall (c : datetime) (history : list event),
    let s := run initial history in
    let result := fst (get_pending_check_in s) in
    store (snd (get_pending_check_in s)) = store s /\
    (pending_check_in_id s = None ->
     (exists r, In r (check_ins (store s)) /\ ci_status r = sent) ->
     exists q, In q (check_ins (store s)) /\ ci_status q = sent /\
               result = Some (ci_id q) /\
               forall r, In r (check_ins (store s)) -> ci_status r = sent ->
                 sent_time_ltb (ci_sent_time q) (ci_sent_time r) = false) /\
    (pending_check_in_id s = None ->
     (forall r, In r (check_ins (store s)) -> ci_status r <> sent) ->
     result = None) /\
    (chronological c history = true ->
     (exists r, In r (check_ins (store s)) /\ ci_status r = sent) ->
     exists q, In q (check_ins (store s)) /\ ci_status q = sent /\
               result = Some (ci_id q)).
Proof.
  intros c history s result.
  split; [apply get_pending_check_in_result | split; [|split]].
  - intros Hempty (r & Hr & Hrsent). subst result.
    destruct (get_pending_check_in_cases s)
      as [[Htruthy _]|[[_ (q & Hfind & ->)]|(_ & Hnone & _)]].
    + rewrite Hempty in Htruthy. discriminate.
    + destruct (most_recent_sent_some _ _ Hfind) as (Hq & Hqsent & Hmax).
      exists q. simpl. repeat split; assumption.
    + exfalso. apply (most_recent_sent_none _ Hnone r Hr Hrsent).
  - intros Hempty Hnosent. subst result.
    destruct (get_pending_check_in_cases s)
      as [[Htruthy _]|[[_ (q & Hfind & _)]|(_ & _ & ->)]].
    + rewrite Hempty in Htruthy. discriminate.
    + destruct (most_recent_sent_some _ _ Hfind) as (Hq & Hqsent & _).
      exfalso. apply (Hnosent q Hq Hqsent).
    + simpl. exact Hempty.
  - intros Hclock (r & Hr & Hrsent). subst result.
    pose proof (reachable_well_formed c history Hclock) as Hwf. fold s in Hwf.
    destruct Hwf as (_ & _ & Hptr).
    destruct (get_pending_check_in_cases s)
      as [[Htruthy ->]|[[_ (q & Hfind & ->)]|(_ & Hnone & _)]].
    + destruct (pending_check_in_id s) as [p|] eqn:Hp; [|discriminate].
      destruct (Hptr p Hp) as (q & Hq & Hid & Hmax).
      destruct (Hmax r Hr Hrsent) as [Hqsent _].
      exists q. simpl. repeat split; try assumption.
      rewrite Hid. reflexivity.
    + destruct (most_recent_sent_some _ _ Hfind) as (Hq & Hqsent & _).
      exists q. simpl. repeat split; assumption.
    + exfalso. apply (most_recent_sent_none _ Hnone r Hr Hrsent).
Qed.

(** Prompts at 10:00 and 11:00, the second one not delivered: the pointer
    names the record of 11:00, which is [sent]. *)
Lemma get_pending_check_in_finds_sent_witness :
  let history := [ev_start sample_chat (clock_at 0 9 0);
                  ev_hourly (clock_at 0 10 0) false (Returns tt);
                  ev_hourly (clock_at 0 11 0) false (Raises "timed out")] in
  chronological 0 history = true /\
  pending_check_in_id (run initial history) = Some 2 /\
  exists q, In q (check_ins (store (run initial history))) /\
            ci_status q = sent /\
            fst (get_pending_check_in (run initial history)) = Some (ci_id q).
Proof.
  intro history.
  split; [reflexivity |]. split; [reflexivity |].
  destruct (get_pending_check_in_finds_sent 0 history)
    as (_ & _ & _ & Hset).
  apply (Hset eq_refl).
  exists (check_in_at 1 (clock_at 0 10 0) sent).
  split; [left; reflexivity | reflexivity].
Defined.

(** C9, counterexample to the claim as stated.  The clock is set back by
    30 ms between two dispatches: the first prompt is stamped 01:00:00.050
    and the second 01:00:00.020.  The sweep at 02:30:00.030 marks the second
    record [missed] and leaves the first one [sent].  The pointer still
    names the second record, and [get_pending_check_in] returns its id
    without reading the row: the id of a [missed] record, while a [sent]
    record exists. *)
Lemma stale_pointer_after_clock_step_back :
  let ms := 1000 in
  let history := [ev_start sample_chat (clock_at 0 0 30);
                  ev_hourly (clock_at 0 1 0 + 50 * ms) false (Returns tt);
                  ev_hourly (clock_at 0 1 0 + 20 * ms) false (Returns tt);
                  ev_maintenance (clock_at 0 2 30 + 30 * ms)] in
  let s := run initial history in
  check_ins (store s)
    = [check_in_at 1 (clock_at 0 1 0 + 50 * ms) sent;
       check_in_at 2 (clock_at 0 1 0 + 20 * ms) missed] /\
  pending_check_in_id s = Some 2 /\
  fst (get_pending_check_in s) = Some 2 /\
  (exists r, In r (check_ins (store s)) /\ ci_status r = sent) /\
  ~ (exists q, In q (check_ins (store s)) /\ ci_status q = sent /\
               fst (get_pending_check_in s) = Some (ci_id q)).
Proof.
  intros ms history s.
  assert (Hrows : check_ins (store s)
                  = [check_in_at 1 (clock_at 0 1 0 + 50 * ms) sent;
                     check_in_at 2 (clock_at 0 1 0 + 20 * ms) missed])
    by (vm_compute; reflexivity).
  assert (Hres : fst (get_pending_check_in s) = Some 2)
    by (vm_compute; reflexivity).
  split; [exact Hrows |].
  split; [vm_compute; reflexivity |].
  split; [exact Hres |].
  split.
  - eexists. split; [rewrite Hrows; left; reflexivity | reflexivity].
  - intros (q & Hq & Hqsent & Hid). rewrite Hrows in Hq. rewrite Hres in Hid.
    destruct Hq as [<-|[<-|[]]]; [discriminate Hid | discriminate Hqsent].
Qed.

(** ** Entries synthesized at wake time *)

Lemma NoDup_map_injective :
  forall (A B : Type) (f : A -> B) (l : list A) (x y : A),
    NoDup (map f l) -> In x l -> In y l -> f x = f y -> x = y.
Proof.
  intros A B f l. induction l as [|a l IH]; intros x y Hnodup Hx Hy Heq;
    [destruct Hx|].
  simpl in Hnodup. inversion Hnodup as [|? ? Hnotin Hrest]; subst.
  destruct Hx as [<-|Hx], Hy as [<-|Hy].
  - reflexivity.
  - exfalso. apply Hnotin. rewrite Heq. apply in_map. exact Hy.
  - exfalso. apply Hnotin. rewrite <- Heq. apply in_map. exact Hx.
  - apply IH; assumption.
Qed.

Lemma filter_nil_existsb :
  forall (A : Type) (f : A -> bool) (l : list A),
    filter f l = [] <-> existsb f l = false.
Proof.
  intros A f l. induction l as [|a l IH]; simpl; [tauto|].
  destruct (f a); simpl; [split; discriminate | exact IH].
Qed.

Lemma refers_to_entry :
  forall r l i,
    sleeping_entry_for r l -> refers_to i l = (ci_id r =? i).
Proof.
  intros r l i (_ & _ & _ & Hre). unfold refers_to. rewrite Hre. reflexivity.
Qed.

Lemma synthesize_log_filter_other :
  forall logs y i,
    ci_id y <> i ->
    filter (refers_to i) (synthesize_log logs y) = filter (refers_to i) logs.
Proof.
  intros logs y i Hneq.
  destruct (synthesize_log_cases logs y) as [[_ ->]|[_ (l & Hl & ->)]];
    [reflexivity|].
  rewrite filter_app. simpl. rewrite (refers_to_entry y l i Hl).
  apply Z.eqb_neq in Hneq. rewrite Hneq. apply app_nil_r.
Qed.

Lemma fold_synthesize_filter_other :
  forall rows logs i,
    (forall y, In y rows -> ci_id y <> i) ->
    filter (refers_to i) (fold_left synthesize_log rows logs)
    = filter (refers_to i) logs.
Proof.
  induction rows as [|y rows IH]; intros logs i Hother; [reflexivity|].
  simpl. rewrite IH by (intros z Hz; apply Hother; right; exact Hz).
  apply synthesize_log_filter_other. apply Hother. left. reflexivity.
Qed.

Lemma fold_synthesize_new_entry :
  forall rows logs x,
    NoDup (map ci_id rows) ->
    In x rows ->
    filter (refers_to (ci_id x)) logs = [] ->
    exists l, sleeping_entry_for x l /\
              filter (refers_to (ci_id x)) (fold_left synthesize_log rows logs)
              = [l].
Proof.
  induction rows as [|y rows IH]; intros logs x Hnodup Hin Hnone;
    [destruct Hin|].
  simpl in Hnodup. inversion Hnodup as [|? ? Hnotin Hrest]; subst.
  destruct Hin as [->|Hin].
  - destruct (synthesize_log_cases logs x) as [[Hex _]|[_ (l & Hl & Heq)]].
    + apply filter_nil_existsb in Hnone. congruence.
    + exists l. split; [exact Hl|]. simpl. rewrite Heq.
      rewrite fold_synthesize_filter_other.
      * rewrite filter_app, Hnone. simpl.
        rewrite (refers_to_entry x l _ Hl), Z.eqb_refl. reflexivity.
      * intros z Hz Heqid. apply Hnotin. rewrite <- Heqid.
        apply in_map. exact Hz.
  - simpl. apply IH; [exact Hrest | exact Hin |].
    rewrite synthesize_log_filter_other; [exact Hnone|].
    intro Heqid. apply Hnotin. rewrite Heqid. apply in_map. exact Hin.
Qed.

Lemma existsb_synthesize_log :
  forall logs y i,
    existsb (refers_to i) logs = true ->
    existsb (refers_to i) (synthesize_log logs y) = true.
Proof.
  intros logs y i Hex.
  destruct (synthesize_log_cases logs y) as [[_ ->]|[_ (l & _ & ->)]];
    [exact Hex|].
  rewrite existsb_app, Hex. reflexivity.
Qed.

Lemma existsb_fold_synthesize :
  forall rows logs i,
    existsb (refers_to i) logs = true ->
    existsb (refers_to i) (fold_left synthesize_log rows logs) = true.
Proof.
  induction rows as [|y rows IH]; intros logs i Hex; [exact Hex|].
  simpl. apply IH. apply existsb_synthesize_log. exact Hex.
Qed.

Lemma fold_synthesize_covers :
  forall rows logs x,
    In x rows ->
    existsb (refers_to (ci_id x)) (fold_left synthesize_log rows logs) = true.
Proof.
  induction rows as [|y rows IH]; intros logs x Hin; [destruct Hin|].
  simpl. destruct Hin as [->|Hin]; [|apply IH; exact Hin].
  apply existsb_fold_synthesize.
  destruct (synthesize_log_cases logs x) as [[Hex ->]|[_ (l & Hl & ->)]];
    [exact Hex|].
  rewrite existsb_app. simpl.
  rewrite (refers_to_entry x l _ Hl), Z.eqb_refl.
  apply orb_true_iff. right. reflexivity.
Qed.

Lemma fold_synthesize_noop :
  forall rows logs,
    (forall x, In x rows -> existsb (refers_to (ci_id x)) logs = true) ->
    fold_left synthesize_log rows logs = logs.
Proof.
  induction rows as [|y rows IH]; intros logs Hall; [reflexivity|].
  simpl. unfold synthesize_log at 2.
  rewrite (Hall y (or_introl eq_refl)).
  apply IH. intros x Hx. apply Hall. right. exact Hx.
Qed.

Lemma NoDup_map_filter :
  forall (A B : Type) (h : A -> B) (g : A -> bool) (l : list A),
    NoDup (map h l) -> NoDup (map h (filter g l)).
Proof.
  intros A B h g l. induction l as [|a l IH]; intro Hnodup; [constructor|].
  simpl in Hnodup. inversion Hnodup as [|? ? Hnotin Hrest]; subst.
  simpl. destruct (g a); [|apply IH; exact Hrest].
  simpl. constructor; [|apply IH; exact Hrest].
  intro Hin. apply Hnotin. apply in_map_iff in Hin.
  destruct Hin as (x & Hx & Hxin). apply filter_In in Hxin.
  rewrite <- Hx. apply in_map. apply Hxin.
Qed.

Lemma no_entry_for_unsettled :
  forall c d r,
    rows_ok c d -> logs_ok d ->
    In r (check_ins d) -> ~ settled r ->
    logs_of (ci_id r) d = [].
Proof.
  intros c d r [Hnodup _] Hlogs Hr Hunsettled.
  unfold logs_of. apply filter_nil_existsb.
  destruct (existsb (refers_to (ci_id r)) (activity_logs d)) eqn:Hex;
    [|reflexivity].
  exfalso. apply existsb_exists in Hex. destruct Hex as (l & Hl & Hre).
  destruct (Hlogs l Hl) as (r' & Hr' & Hid & Hst).
  unfold refers_to in Hre. rewrite Hid in Hre. apply Z.eqb_eq in Hre.
  assert (r' = r) by (apply (NoDup_map_injective _ _ ci_id _ _ _ Hnodup); assumption).
  subst r'. apply Hunsettled. exact Hst.
Qed.

Lemma reconcile_entry :
  forall c d chat_id lo hi r,
    rows_ok c d -> logs_ok d ->
    In r (check_ins d) -> slept_through lo hi r ->
    exists l, logs_of (ci_id r) (reconcile d chat_id lo hi) = [l] /\
              sleeping_entry_for r l.
Proof.
  intros c d chat_id lo hi r Hrows Hlogs Hr Hslept.
  set (x := wake_row lo hi r).
  assert (Hx : x = with_status r sleeping) by (apply wake_row_moves; exact Hslept).
  assert (Hnone : filter (refers_to (ci_id x)) (activity_logs d) = []).
  { rewrite Hx. simpl.
    apply (no_entry_for_unsettled c d r Hrows Hlogs Hr).
    destruct Hslept as [_ [Hst|Hst]]; intros [H|H]; congruence. }
  destruct (fold_synthesize_new_entry
              (sleeping_in_window lo hi (map (wake_row lo hi) (check_ins d)))
              (activity_logs d) x) as (l & Hl & Hfilter).
  - unfold sleeping_in_window. apply NoDup_map_filter.
    rewrite map_map.
    rewrite (map_ext (fun r0 => ci_id (wake_row lo hi r0)) ci_id);
      [apply Hrows | intro r0; apply wake_row_keeps_stamps].
  - unfold sleeping_in_window. apply filter_In.
    split; [apply in_map; exact Hr |].
    rewrite Hx. simpl. apply in_window_iff. apply Hslept.
  - exact Hnone.
  - exists l. unfold logs_of. simpl.
    replace (ci_id r) with (ci_id x) by (rewrite Hx; reflexivity).
    split; [exact Hfilter|].
    destruct Hl as (Hty & Hresp & Hts & Hre).
    rewrite Hx in Hts, Hre. simpl in Hts, Hre.
    repeat split; assumption.
Qed.

Lemma wake_row_twice :
  forall lo hi lo' hi' r,
    lo <= lo' -> ci_scheduled_time r <= hi ->
    wake_row lo' hi' (wake_row lo hi r) = wake_row lo hi r.
Proof.
  intros lo hi lo' hi' r Hlo Hsched.
  destruct (slept_through_dec lo hi r) as [Hyes|Hno].
  - rewrite (wake_row_moves _ _ _ Hyes).
    apply wake_row_keeps. intros [_ [H|H]]; discriminate.
  - rewrite (wake_row_keeps _ _ _ Hno).
    apply wake_row_keeps. intros [Hwin Hst]. apply Hno.
    split; [lia | exact Hst].
Qed.

Lemma reconcile_twice :
  forall d chat_id chat_id' lo hi lo' hi',
    (forall r, In r (check_ins d) -> ci_scheduled_time r <= hi) ->
    lo <= lo' ->
    let d1 := reconcile d chat_id lo hi in
    check_ins (reconcile d1 chat_id' lo' hi') = check_ins d1 /\
    activity_logs (reconcile d1 chat_id' lo' hi') = activity_logs d1.
Proof.
  intros d chat_id chat_id' lo hi lo' hi' Hsched Hlo d1.
  assert (Hrows : map (wake_row lo' hi') (check_ins d1) = check_ins d1).
  { subst d1. simpl. rewrite map_map.
    apply map_ext_in. intros r Hr. apply wake_row_twice; auto. }
  split; [exact Hrows|].
  unfold reconcile at 1. cbn [activity_logs]. rewrite Hrows.
  apply fold_synthesize_noop. intros x Hx.
  subst d1. cbn [reconcile activity_logs check_ins] in *.
  apply fold_synthesize_covers.
  unfold sleeping_in_window in *. apply filter_In in Hx.
  destruct Hx as [Hin Hb]. apply filter_In. split; [exact Hin|].
  apply andb_prop in Hb. destruct Hb as [Hst Hwin].
  rewrite Hst. simpl. apply in_window_iff in Hwin. apply in_window_iff.
  apply in_map_iff in Hin. destruct Hin as (r & <- & Hr).
  destruct (wake_row_keeps_stamps lo hi r) as (_ & Hs & _).
  rewrite Hs in *. specialize (Hsched r Hr). lia.
Qed.

Lemma db_extensionality :
  forall d d',
    check_ins d = check_ins d' ->
    user_configs d = user_configs d' ->
    activity_logs d = activity_logs d' ->
    d = d'.
Proof.
  intros [a b c] [a' b' c']. simpl. intros -> -> ->. reflexivity.
Qed.

Lemma awake_row_chat_id :
  forall chat_id now u, uc_chat_id (awake_row chat_id now u) = uc_chat_id u.
Proof.
  intros chat_id now u. unfold awake_row.
  destruct (uc_chat_id u =? chat_id); reflexivity.
Qed.

Lemma awake_row_sleep_start :
  forall chat_id now u,
    uc_sleep_start_time (awake_row chat_id now u) = uc_sleep_start_time u.
Proof.
  intros chat_id now u. unfold awake_row.
  destruct (uc_chat_id u =? chat_id); reflexivity.
Qed.

Lemma awake_row_wake_time :
  forall chat_id now u,
    default_wake_time_str (awake_row chat_id now u) = default_wake_time_str u.
Proof.
  intros chat_id now u. unfold awake_row.
  destruct (uc_chat_id u =? chat_id); reflexivity.
Qed.

Lemma awake_row_twice :
  forall chat_id now u,
    awake_row chat_id now (awake_row chat_id now u) = awake_row chat_id now u.
Proof.
  intros chat_id now u. unfold awake_row at 2.
  destruct (uc_chat_id u =? chat_id) eqn:Hc; unfold awake_row; simpl;
    rewrite Hc; reflexivity.
Qed.

Lemma find_awake_row :
  forall rows chat_id chat_id' now,
    find (fun u => uc_chat_id u =? chat_id) (map (awake_row chat_id' now) rows)
    = option_map (awake_row chat_id' now)
                 (find (fun u => uc_chat_id u =? chat_id) rows).
Proof.
  induction rows as [|u rows IH]; intros chat_id chat_id' now; [reflexivity|].
  simpl. rewrite awake_row_chat_id.
  destruct (uc_chat_id u =? chat_id); [reflexivity | apply IH].
Qed.

Lemma retroactive_start_later_day :
  forall sleep_start u u' today_clock today_clock' lo,
    default_wake_time_str u' = default_wake_time_str u ->
    today_clock <= today_clock' ->
    retroactive_start sleep_start u today_clock = Some lo ->
    exists lo', retroactive_start sleep_start u' today_clock' = Some lo' /\
                lo <= lo'.
Proof.
  intros sleep_start u u' today_clock today_clock' lo Hstr Hle.
  unfold retroactive_start, default_wake_today. rewrite Hstr.
  destruct (parse_wake_time (default_wake_time_str u)) as [tm|]; simpl;
    [|discriminate].
  intro Hlo. inversion Hlo; subst lo. eexists. split; [reflexivity|].
  assert (Hday : date_of today_clock <= date_of today_clock').
  { unfold date_of. apply Z.div_le_mono; [|exact Hle].
    unfold us_per_day, us_per_hour, us_per_minute, us_per_second. lia. }
  unfold datetime_combine.
  assert (Hmul : date_of today_clock * us_per_day
                 <= date_of today_clock' * us_per_day).
  { apply Z.mul_le_mono_nonneg_r; [|exact Hday].
    unfold us_per_day, us_per_hour, us_per_minute, us_per_second. lia. }
  lia.
Qed.

Lemma retroactive_start_fails_any_day :
  forall sleep_start u today_clock today_clock',
    retroactive_start sleep_start u today_clock = None ->
    retroactive_start sleep_start u today_clock' = None.
Proof.
  intros sleep_start u today_clock today_clock'.
  unfold retroactive_start, default_wake_today.
  destruct (parse_wake_time (default_wake_time_str u)); simpl;
    [discriminate | reflexivity].
Qed.

(** A second press of Wake. *)
Lemma handle_wake_button_twice :
  forall s chat_id today_clock now today_clock' now',
    (forall r, In r (check_ins (store s)) -> ci_scheduled_time r <= now) ->
    today_clock <= today_clock' ->
    let s1 := snd (handle_wake_button s chat_id today_clock now) in
    let s2 := snd (handle_wake_button s1 chat_id today_clock' now') in
    check_ins (store s2) = check_ins (store s1) /\
    activity_logs (store s2) = activity_logs (store s1) /\
    pending_check_in_id s2 = pending_check_in_id s1 /\
    (now' = now -> s2 = s1).
Proof.
  intros s chat_id today_clock now today_clock' now' Hsched Hday s1 s2.
  destruct (find (fun u => uc_chat_id u =? chat_id) (user_configs (store s)))
    as [row|] eqn:Hrow.
  2:{ assert (Hnoop : forall t t', snd (handle_wake_button s chat_id t t') = s)
        by (intros t t'; unfold handle_wake_button; rewrite Hrow; reflexivity).
      subst s2 s1. rewrite !Hnoop. auto. }
  destruct (uc_sleep_start_time row) as [sleep_start|] eqn:Hsleep.
  2:{ assert (Hnoop : forall t t', snd (handle_wake_button s chat_id t t') = s)
        by (intros t t'; unfold handle_wake_button; rewrite Hrow, Hsleep;
            reflexivity).
      subst s2 s1. rewrite !Hnoop. auto. }
  destruct (retroactive_start sleep_start row today_clock) as [lo|] eqn:Hlo.
  2:{ assert (Hnoop : forall t t', snd (handle_wake_button s chat_id t t') = s).
      { intros t t'. unfold handle_wake_button. rewrite Hrow, Hsleep.
        rewrite (retroactive_start_fails_any_day _ _ _ t Hlo). reflexivity. }
      subst s2 s1. rewrite !Hnoop. auto. }
  assert (Hfirst : s1 = mk_sys (reconcile (store s) chat_id lo now)
                               (pending_check_in_id s)).
  { subst s1. unfold handle_wake_button. rewrite Hrow, Hsleep, Hlo. reflexivity. }
  destruct (retroactive_start_later_day sleep_start row
              (awake_row chat_id now row) today_clock today_clock' lo
              (awake_row_wake_time chat_id now row) Hday Hlo)
    as (lo' & Hlo' & Hle).
  assert (Hsecond : s2 = mk_sys (reconcile (store s1) chat_id lo' now')
                                (pending_check_in_id s1)).
  { subst s2. rewrite Hfirst. unfold handle_wake_button.
    cbn [store pending_check_in_id]. unfold reconcile at 1. cbn [user_configs].
    rewrite find_awake_row, Hrow. cbn [option_map].
    rewrite awake_row_sleep_start, Hsleep, Hlo'. reflexivity. }
  destruct (reconcile_twice (store s) chat_id chat_id lo now lo' now' Hsched Hle)
    as [Hrows Hlogs].
  rewrite Hsecond, Hfirst. simpl.
  repeat split; try assumption.
  intros ->. f_equal. apply db_extensionality; try assumption.
  simpl. rewrite map_map. apply map_ext. intro u. apply awake_row_twice.
Qed.

Lemma handle_wake_button_state :
  forall s chat_id today_clock now,
    snd (handle_wake_button s chat_id today_clock now) = s \/
    exists lo,
      snd (handle_wake_button s chat_id today_clock now)
      = mk_sys (reconcile (store s) chat_id lo now) (pending_check_in_id s).
Proof.
  intros s chat_id today_clock now. unfold handle_wake_button.
  destruct (find _ _) as [row|]; [|left; reflexivity].
  destruct (uc_sleep_start_time row) as [sleep_start|]; [|left; reflexivity].
  destruct (retroactive_start sleep_start row today_clock) as [lo|];
    [|left; reflexivity].
  right. exists lo. reflexivity.
Qed.

Lemma handle_wake_button_entries :
  forall c s chat_id today_clock now r r',
    well_formed c s ->
    let s1 := snd (handle_wake_button s chat_id today_clock now) in
    In r (check_ins (store s)) -> In r' (check_ins (store s1)) ->
    ci_id r' = ci_id r -> ci_status r <> sleeping -> ci_status r' = sleeping ->
    exists l, logs_of (ci_id r) (store s1) = [l] /\ sleeping_entry_for r l.
Proof.
  intros c s chat_id today_clock now r r' (Hrows & Hlogs & _) s1
         Hr Hr' Hid Hbefore Hafter.
  subst s1.
  destruct (handle_wake_button_state s chat_id today_clock now)
    as [Hsame|(lo & Hrun)].
  - rewrite Hsame in Hr'. exfalso. apply Hbefore.
    assert (r' = r)
      by (apply (NoDup_map_injective _ _ ci_id _ _ _ (proj1 Hrows)); assumption).
    subst r'. exact Hafter.
  - rewrite Hrun in Hr' |- *. cbn [store] in *.
    simpl in Hr'. apply in_map_iff in Hr'. destruct Hr' as (r0 & <- & Hr0).
    destruct (wake_row_keeps_stamps lo now r0) as (Hid0 & _).
    rewrite Hid0 in Hid.
    assert (r0 = r)
      by (apply (NoDup_map_injective _ _ ci_id _ _ _ (proj1 Hrows)); assumption).
    subst r0.
    apply (reconcile_entry c); try assumption.
    destruct (slept_through_dec lo now r) as [Hyes|Hno]; [exact Hyes|].
    rewrite (wake_row_keeps _ _ _ Hno) in Hafter. contradiction.
Qed.

(** ** Outstanding prompts along the ticks *)

Lemma count_sent_send :
  forall s chat_id now delivery,
    count_sent (snd (send_check_in s chat_id now delivery)) = S (count_sent s).
Proof.
  intros s chat_id now delivery. rewrite send_check_in_state.
  unfold count_sent. simpl. rewrite filter_app, length_app. simpl.
  apply Nat.add_1_r.
Qed.

Lemma count_sent_sweep :
  forall s now, (count_sent (mark_stale_as_missed s now) <= count_sent s)%nat.
Proof.
  intros s now. unfold count_sent. simpl.
  induction (check_ins (store s)) as [|r rows IH]; simpl; [apply le_n|].
  destruct (status_eqb (ci_status (stale_row _ r)) sent) eqn:Hafter.
  - apply status_eqb_eq, stale_row_sent in Hafter.
    destruct Hafter as [_ Hbefore].
    rewrite Hbefore. simpl. apply le_n_S. exact IH.
  - destruct (status_eqb (ci_status r) sent); simpl;
      [apply le_S|]; exact IH.
Qed.

Lemma count_sent_tick :
  forall s e,
    is_tick e = true ->
    (count_sent (exec s e)
     <= count_sent s + (if is_dispatch_tick e then 1 else 0))%nat.
Proof.
  intros s e Htick. destruct e; try discriminate; simpl.
  - unfold _send_hourly_check_in.
    destruct (_get_configured_chat_id s) as [chat_id|]; [|simpl; lia].
    destruct (negb (truthy (Some chat_id))); [simpl; lia|].
    destruct (_is_user_sleeping s chat_id); [simpl; lia|].
    destruct busy; [simpl; lia|].
    simpl. rewrite count_sent_send. lia.
  - unfold _retry_check_in.
    destruct (retry_count >? 3); [simpl; lia|].
    destruct busy; [simpl; lia|].
    simpl. rewrite count_sent_send. lia.
  - pose proof (count_sent_sweep s now). unfold _cleanup_stale_check_ins. lia.
Qed.

Lemma hourly_tick_dispatches :
  forall s now delivery chat_id,
    _get_configured_chat_id s = Some chat_id ->
    truthy (Some chat_id) = true ->
    _is_user_sleeping s chat_id = false ->
    exec s (ev_hourly now false delivery)
    = snd (send_check_in s chat_id now delivery).
Proof.
  intros s now delivery chat_id Hchat Htruthy Hawake.
  simpl. unfold _send_hourly_check_in.
  rewrite Hchat, Htruthy, Hawake. reflexivity.
Qed.

(** C1, as the code has it.  Along any sequence of ticks the number of
    records with status [sent] grows by at most one per hourly or retry
    tick and never on a maintenance tick; and an hourly tick for a
    configured, awake, non-busy recipient always adds a [sent] record,
    whether or not one exists already. *)
Theorem ticks_add_at_most_one_sent_each :
  forall (s : sys) (ticks : list event),
    forallb is_tick ticks = true ->
    (count_sent (run s ticks)
     <= count_sent s + List.length (filter is_dispatch_tick ticks))%nat /\
    (forall now delivery chat_id,
        _get_configured_chat_id (run s ticks) = Some chat_id ->
        truthy (Some chat_id) = true ->
        _is_user_sleeping (run s ticks) chat_id = false ->
        count_sent (exec (run s ticks) (ev_hourly now false delivery))
        = S (count_sent (run s ticks))).
Proof.
  intros s ticks Hticks. split.
  - revert s. induction ticks as [|e ticks IH]; intro s; simpl.
    + lia.
    + simpl in Hticks. apply andb_prop in Hticks.
      destruct Hticks as [He Hrest].
      specialize (IH Hrest (exec s e)).
      pose proof (count_sent_tick s e He) as Hstep.
      unfold run in IH |- *. cbn [fold_left].
      destruct (is_dispatch_tick e); cbn [List.length] in *; lia.
  - intros now delivery chat_id Hchat Htruthy Hawake.
    rewrite (hourly_tick_dispatches _ _ _ _ Hchat Htruthy Hawake).
    apply count_sent_send.
Qed.

Lemma ticks_add_at_most_one_sent_each_witness :
  let s := run initial [ev_start sample_chat (clock_at 0 9 0);
                        ev_hourly (clock_at 0 10 0) false (Returns tt)] in
  let ticks := [ev_maintenance (clock_at 0 10 30);
                ev_maintenance (clock_at 0 11 0)] in
  (count_sent (run s ticks) <= 1)%nat /\
  count_sent (exec (run s ticks) (ev_hourly (clock_at 0 11 0) false (Returns tt)))
  = S (count_sent (run s ticks)).
Proof.
  intros s ticks.
  destruct (ticks_add_at_most_one_sent_each s ticks eq_refl) as [Hbound Hmore].
  split; [exact Hbound |].
  apply (Hmore (clock_at 0 11 0) (Returns tt) sample_chat); reflexivity.
Defined.

(** C1, counterexample to the claim as stated.  The 10:00 prompt is still
    unanswered, and not yet stale, when the 11:00 tick fires: the tick
    dispatches a second prompt, and two records have status [sent]. *)
Lemma two_hourly_ticks_two_sent_records :
  let before := run initial [ev_start sample_chat (clock_at 0 9 0);
                             ev_hourly (clock_at 0 10 0) false (Returns tt);
                             ev_maintenance (clock_at 0 10 30);
                             ev_maintenance (clock_at 0 11 0)] in
  let after := exec before (ev_hourly (clock_at 0 11 0) false (Returns tt)) in
  check_ins (store before) = [check_in_at 1 (clock_at 0 10 0) sent] /\
  check_ins (store after) = [check_in_at 1 (clock_at 0 10 0) sent;
                             check_in_at 2 (clock_at 0 11 0) sent] /\
  count_sent after = 2%nat.
Proof.
  vm_compute. repeat split.
Qed.

(** ** The table [check_ins] only grows, and statuses only move forward *)

Lemma moves_forward_refl : forall r, moves_forward r r.
Proof. intro r. repeat split. destruct (ci_status r); reflexivity. Qed.

Lemma moves_forward_trans :
  forall a b c, moves_forward a b -> moves_forward b c -> moves_forward a c.
Proof.
  intros a b c (Hi & Hs & Ht & Hr & Hk) (Hi' & Hs' & Ht' & Hr' & Hk').
  repeat split; try congruence.
  destruct (ci_status a), (ci_status b), (ci_status c);
    try reflexivity; discriminate.
Qed.

Lemma Forall2_moves_forward_refl :
  forall rows, Forall2 moves_forward rows rows.
Proof.
  induction rows; constructor; [apply moves_forward_refl | assumption].
Qed.

Lemma Forall2_moves_forward_trans :
  forall a b c,
    Forall2 moves_forward a b -> Forall2 moves_forward b c ->
    Forall2 moves_forward a c.
Proof.
  intros a b c Hab. revert c.
  induction Hab as [|x y a b Hxy Hab IH]; intros c Hbc;
    inversion Hbc; subst; constructor.
  - eapply moves_forward_trans; eassumption.
  - apply IH. assumption.
Qed.

Lemma extends_rows_refl : forall rows, extends_rows rows rows.
Proof.
  intro rows. exists rows, []. rewrite app_nil_r.
  split; [reflexivity | apply Forall2_moves_forward_refl].
Qed.

Lemma extends_rows_trans :
  forall a b c, extends_rows a b -> extends_rows b c -> extends_rows a c.
Proof.
  intros a b c (kept & added & -> & Hkept) (kept' & added' & -> & Hkept').
  apply Forall2_app_inv_l in Hkept'.
  destruct Hkept' as (k1 & k2 & Hk1 & Hk2 & ->).
  exists k1, (k2 ++ added'). rewrite app_assoc. split; [reflexivity|].
  eapply Forall2_moves_forward_trans; eassumption.
Qed.

Lemma extends_rows_map :
  forall f rows,
    (forall r, moves_forward r (f r)) -> extends_rows rows (map f rows).
Proof.
  intros f rows Hf. exists (map f rows), []. rewrite app_nil_r.
  split; [reflexivity|]. apply Forall2_map_same. intros r _. apply Hf.
Qed.

Lemma extends_rows_append :
  forall rows added, extends_rows rows (rows ++ added).
Proof.
  intros rows added. exists rows, added.
  split; [reflexivity | apply Forall2_moves_forward_refl].
Qed.

Lemma stale_row_moves_forward : forall thr r, moves_forward r (stale_row thr r).
Proof.
  intros thr r. unfold stale_row.
  destruct (status_eqb (ci_status r) sent) eqn:Hst; simpl;
    [|apply moves_forward_refl].
  destruct (match ci_sent_time r with Some t => t <? thr | None => false end);
    [|apply moves_forward_refl].
  apply status_eqb_eq in Hst. repeat split; simpl; try reflexivity.
  rewrite Hst. reflexivity.
Qed.

Lemma wake_row_moves_forward :
  forall lo hi r, moves_forward r (wake_row lo hi r).
Proof.
  intros lo hi r. unfold wake_row.
  destruct (in_window lo hi r); simpl; [|apply moves_forward_refl].
  destruct (ci_status r) eqn:Hst; simpl;
    try apply moves_forward_refl;
    repeat split; simpl; try reflexivity; rewrite Hst; reflexivity.
Qed.

Lemma status_row_moves_forward :
  forall i now r, moves_forward r (status_row i completed now r).
Proof.
  intros i now r. unfold status_row.
  destruct (ci_id r =? i); [|apply moves_forward_refl].
  repeat split; simpl; try reflexivity.
  destruct (ci_status r); reflexivity.
Qed.

Lemma extends_rows_send :
  forall s chat_id now delivery,
    extends_rows (check_ins (store s))
                 (check_ins (store (snd (send_check_in s chat_id now delivery)))).
Proof.
  intros s chat_id now delivery. rewrite send_check_in_state. simpl.
  apply extends_rows_append.
Qed.

Lemma extends_rows_wake :
  forall s chat_id today_clock now,
    extends_rows (check_ins (store s))
      (check_ins (store (snd (handle_wake_button s chat_id today_clock now)))).
Proof.
  intros s chat_id today_clock now.
  destruct (handle_wake_button_state s chat_id today_clock now)
    as [->|(lo & ->)]; [apply extends_rows_refl|].
  simpl. apply extends_rows_map. apply wake_row_moves_forward.
Qed.

Lemma extends_rows_reply :
  forall s text reply now_save now_update,
    extends_rows (check_ins (store s))
      (check_ins (store (snd (handle_check_in_reply s text reply
                                                    now_save now_update)))).
Proof.
  intros s text reply now_save now_update. unfold handle_check_in_reply.
  destruct (get_pending_check_in_result s) as [_ Hstore].
  destruct (get_pending_check_in s) as [pending_id s1]. simpl in Hstore.
  rewrite <- Hstore.
  destruct pending_id as [i|]; [|apply extends_rows_refl].
  destruct (truthy (Some i)); [|apply extends_rows_refl].
  destruct reply; simpl; try apply extends_rows_refl;
    apply extends_rows_map; apply status_row_moves_forward.
Qed.

Lemma extends_rows_exec :
  forall s e,
    extends_rows (check_ins (store s)) (check_ins (store (exec s e))).
Proof.
  intros s e. destruct e; simpl.
  - unfold start_command. destruct (existsb _ _); apply extends_rows_refl.
  - unfold _send_hourly_check_in.
    destruct (_get_configured_chat_id s) as [chat_id|];
      [|apply extends_rows_refl].
    destruct (negb (truthy (Some chat_id))); [apply extends_rows_refl|].
    destruct (_is_user_sleeping s chat_id); [apply extends_rows_refl|].
    destruct busy; [apply extends_rows_refl | apply extends_rows_send].
  - unfold _retry_check_in.
    destruct (retry_count >? 3); [apply extends_rows_refl|].
    destruct busy; [apply extends_rows_refl | apply extends_rows_send].
  - apply extends_rows_map. apply stale_row_moves_forward.
  - apply extends_rows_reply.
  - apply extends_rows_refl.
  - apply extends_rows_wake.
  - destruct (get_pending_check_in_result s) as [_ ->]. apply extends_rows_refl.
  - apply extends_rows_refl.
Qed.

(** X1.  Whatever the starting state and whatever the events, the rows of
    [check_ins] stay in place with their id, [scheduled_time], [sent_time]
    and [retry_count], new rows are only added behind them, and a status
    only moves along sent to missed, missed or pending to sleeping, and
    anything to completed: nothing is deleted, [completed] is final, and no
    record returns to [sent]. *)
Theorem check_ins_append_only_and_forward :
  forall (s : sys) (history : list event),
    extends_rows (check_ins (store s)) (check_ins (store (run s history))) /\
    (forall r, In r (check_ins (store s)) ->
       exists r', In r' (check_ins (store (run s history))) /\
                  moves_forward r r' /\
                  (ci_status r = completed -> ci_status r' = completed) /\
                  (ci_status r <> sent -> ci_status r' <> sent)).
Proof.
  intros s history.
  assert (Hext : extends_rows (check_ins (store s))
                              (check_ins (store (run s history)))).
  { revert s. induction history as [|e history IH]; intro s; simpl.
    - apply extends_rows_refl.
    - eapply extends_rows_trans; [apply extends_rows_exec | apply IH]. }
  split; [exact Hext|].
  destruct Hext as (kept & added & Heq & Hkept).
  intros r Hr. rewrite Heq.
  clear Heq. induction Hkept as [|x y rows kept' Hxy Hrest IH]; [destruct Hr|].
  destruct Hr as [<-|Hr].
  - exists y. split; [left; reflexivity | split; [exact Hxy|]].
    destruct Hxy as (_ & _ & _ & _ & Hadv).
    split; intro Hst.
    + rewrite Hst in Hadv. destruct (ci_status y);
        try discriminate; reflexivity.
    + intro Hy. rewrite Hy in Hadv.
      destruct (ci_status x); try discriminate. apply Hst. reflexivity.
  - destruct (IH Hr) as (r' & Hin & Hrest').
    exists r'. split; [right; exact Hin | exact Hrest'].
Qed.

(** ** Identifiers handed out from the empty store *)

Lemma fold_max_app_one :
  forall (l : list Z) (x b : Z),
    fold_right Z.max b (l ++ [x]) = fold_right Z.max (Z.max x b) l.
Proof. intros l x b. rewrite fold_right_app. reflexivity. Qed.

Lemma fold_max_seq :
  forall (n : nat) (b : Z),
    0 <= b ->
    fold_right Z.max b (map Z.of_nat (seq 1 n)) = Z.max b (Z.of_nat n).
Proof.
  induction n as [|n IH]; intros b Hb.
  - simpl. lia.
  - rewrite seq_S, map_app. simpl map. rewrite fold_max_app_one, IH; lia.
Qed.

Lemma next_rowid_seq :
  forall n, next_rowid (map Z.of_nat (seq 1 n)) = Z.of_nat (S n).
Proof. intro n. unfold next_rowid. rewrite fold_max_seq; lia. Qed.

Lemma ids_exec :
  forall s e,
    map ci_id (check_ins (store (exec s e))) = map ci_id (check_ins (store s)) \/
    map ci_id (check_ins (store (exec s e)))
    = map ci_id (check_ins (store s))
      ++ [next_rowid (map ci_id (check_ins (store s)))].
Proof.
  intros s e.
  assert (Hsend : forall chat_id now delivery,
    map ci_id (check_ins (store (snd (send_check_in s chat_id now delivery))))
    = map ci_id (check_ins (store s))
      ++ [next_rowid (map ci_id (check_ins (store s)))]).
  { intros chat_id now delivery. rewrite send_check_in_state. simpl.
    rewrite map_app. reflexivity. }
  assert (Hmap : forall f, keeps_stamps f ->
    map ci_id (map f (check_ins (store s))) = map ci_id (check_ins (store s))).
  { intros f Hf. rewrite map_map. apply map_ext. intro r. apply Hf. }
  destruct e; simpl.
  - left. unfold start_command. destruct (existsb _ _); reflexivity.
  - unfold _send_hourly_check_in.
    destruct (_get_configured_chat_id s) as [chat_id|]; [|left; reflexivity].
    destruct (negb (truthy (Some chat_id))); [left; reflexivity|].
    destruct (_is_user_sleeping s chat_id); [left; reflexivity|].
    destruct busy; [left; reflexivity | right; apply Hsend].
  - unfold _retry_check_in.
    destruct (retry_count >? 3); [left; reflexivity|].
    destruct busy; [left; reflexivity | right; apply Hsend].
  - left. apply Hmap. apply stale_row_keeps_stamps.
  - left. unfold handle_check_in_reply.
    destruct (get_pending_check_in_result s) as [_ Hstore].
    destruct (get_pending_check_in s) as [pending_id s1]. simpl in Hstore.
    rewrite <- Hstore.
    destruct pending_id as [i|]; [|reflexivity].
    destruct (truthy (Some i)); [|reflexivity].
    destruct reply; simpl; try reflexivity;
      rewrite map_map; apply map_ext; intro r; apply status_row_keeps_stamps.
  - left. reflexivity.
  - left.
    destruct (handle_wake_button_state s chat_id today_clock now)
      as [->|(lo & ->)]; [reflexivity|].
    apply Hmap. apply wake_row_keeps_stamps.
  - left. destruct (get_pending_check_in_result s) as [_ ->]. reflexivity.
  - left. reflexivity.
Qed.

Lemma ids_run_consecutive :
  forall history s n,
    map ci_id (check_ins (store s)) = map Z.of_nat (seq 1 n) ->
    exists m, map ci_id (check_ins (store (run s history)))
              = map Z.of_nat (seq 1 m).
Proof.
  induction history as [|e history IH]; intros s n Hids.
  - exists n. exact Hids.
  - simpl. destruct (ids_exec s e) as [Hsame|Hmore].
    + apply (IH _ n). rewrite Hsame. exact Hids.
    + apply (IH _ (S n)). rewrite Hmore, Hids, next_rowid_seq.
      rewrite seq_S, map_app. reflexivity.
Qed.

(** X2.  Starting from the empty store, the records of [check_ins] carry
    the ids 1, 2, ..., n in the order of their dispatch, whatever happened
    in between; the next dispatch returns n + 1. *)
Theorem check_in_ids_are_consecutive :
  forall (history : list event),
    let rows := check_ins (store (run initial history)) in
    map ci_id rows = map Z.of_nat (seq 1 (List.length rows)) /\
    forall chat_id now,
      fst (send_check_in (run initial history) chat_id now (Returns tt))
      = Returns (Z.of_nat (S (List.length rows))).
Proof.
  intros history rows.
  destruct (ids_run_consecutive history initial 0 eq_refl) as (m & Hm).
  fold rows in Hm.
  assert (Hlen : List.length rows = m).
  { rewrite <- (length_map ci_id rows), Hm, length_map, length_seq.
    reflexivity. }
  rewrite Hlen. split; [exact Hm|].
  intros chat_id now. simpl. f_equal. fold rows. rewrite Hm.
  apply next_rowid_seq.
Qed.

(** ** Order of the three stamps of a record *)

Lemma responses_ok_later :
  forall c c' d, c <= c' -> responses_ok c d -> responses_ok c' d.
Proof.
  intros c c' d Hle Hok r Hr. destruct (Hok r Hr) as [Hiff Hstamp].
  split; [exact Hiff|]. intros t Ht. specialize (Hstamp t Ht). lia.
Qed.

Lemma responses_ok_map :
  forall c d d' f,
    (forall r, ci_response_time (f r) = ci_response_time r /\
               ci_scheduled_time (f r) = ci_scheduled_time r /\
               (ci_status (f r) = completed <-> ci_status r = completed)) ->
    check_ins d' = map f (check_ins d) ->
    responses_ok c d -> responses_ok c d'.
Proof.
  intros c d d' f Hf Heq Hok r' Hr'. rewrite Heq in Hr'.
  apply in_map_iff in Hr'. destruct Hr' as (r & <- & Hr).
  destruct (Hf r) as (Hresp & Hsched & Hst).
  destruct (Hok r Hr) as [Hiff Hstamp].
  rewrite Hresp, Hsched, Hst. split; assumption.
Qed.

Lemma stale_row_response :
  forall thr r,
    ci_response_time (stale_row thr r) = ci_response_time r /\
    ci_scheduled_time (stale_row thr r) = ci_scheduled_time r /\
    (ci_status (stale_row thr r) = completed <-> ci_status r = completed).
Proof.
  intros thr r. unfold stale_row.
  destruct (status_eqb (ci_status r) sent) eqn:Hst; simpl;
    [|repeat split; auto].
  apply status_eqb_eq in Hst.
  destruct (match ci_sent_time r with Some t => t <? thr | None => false end);
    simpl; repeat split; auto; rewrite Hst; discriminate.
Qed.

Lemma wake_row_response :
  forall lo hi r,
    ci_response_time (wake_row lo hi r) = ci_response_time r /\
    ci_scheduled_time (wake_row lo hi r) = ci_scheduled_time r /\
    (ci_status (wake_row lo hi r) = completed <-> ci_status r = completed).
Proof.
  intros lo hi r. unfold wake_row.
  destruct (in_window lo hi r); simpl; [|repeat split; auto].
  destruct (ci_status r) eqn:Hst; simpl; repeat split; auto;
    try rewrite Hst; try discriminate.
Qed.

Lemma responses_ok_send :
  forall c now s chat_id delivery,
    c <= now -> responses_ok c (store s) ->
    responses_ok now (store (snd (send_check_in s chat_id now delivery))).
Proof.
  intros c now s chat_id delivery Hle Hok. rewrite send_check_in_state.
  intros r Hr. simpl in Hr. apply in_app_or in Hr.
  destruct Hr as [Hr|[<-|[]]].
  - apply (responses_ok_later c now _ Hle Hok r Hr).
  - simpl. split; [split; [discriminate | intro H; congruence] |].
    intros t Ht. discriminate.
Qed.

Lemma responses_ok_reply :
  forall c s text reply now_save now_update,
    c <= now_save -> now_save <= now_update ->
    well_formed c s -> responses_ok c (store s) ->
    responses_ok now_update
      (store (snd (handle_check_in_reply s text reply now_save now_update))).
Proof.
  intros c s text reply now_save now_update Hc Hsave Hwf Hok.
  assert (Hle : c <= now_update) by lia.
  unfold handle_check_in_reply.
  destruct (get_pending_check_in_result s) as [_ Hstore].
  destruct (get_pending_check_in s) as [pending_id s1]. simpl in Hstore.
  assert (Hsame : responses_ok now_update (store s1))
    by (rewrite Hstore; apply (responses_ok_later c); assumption).
  destruct pending_id as [i|]; [|exact Hsame].
  destruct (truthy (Some i)); [|exact Hsame].
  destruct reply; simpl; try exact Hsame;
    intros r' Hr'; simpl in Hr'; rewrite Hstore in Hr';
    apply in_map_iff in Hr'; destruct Hr' as (r & <- & Hr);
    destruct (Hok r Hr) as [Hiff Hstamp];
    destruct Hwf as ((_ & Hrows) & _);
    destruct (Hrows r Hr) as (_ & _ & Hsched);
    unfold status_row; destruct (ci_id r =? i); simpl;
    try (split; [exact Hiff | intros t Ht; specialize (Hstamp t Ht); lia]);
    (split; [split; [discriminate | reflexivity]
            | intros t Ht; inversion Ht; subst; lia]).
Qed.

Lemma responses_ok_exec :
  forall c e s,
    well_formed c s -> responses_ok c (store s) ->
    nondecreasing c (readings e) = true ->
    responses_ok (last (readings e) c) (store (exec s e)).
Proof.
  intros c e s Hwf Hok Hclock.
  destruct e; simpl in Hclock |- *; clock_facts.
  - unfold start_command. destruct (existsb _ _);
      apply (responses_ok_later c); assumption.
  - assert (Hsame : responses_ok now (store s))
      by (apply (responses_ok_later c); assumption).
    unfold _send_hourly_check_in.
    destruct (_get_configured_chat_id s) as [chat_id|]; [|exact Hsame].
    destruct (negb (truthy (Some chat_id))); [exact Hsame|].
    destruct (_is_user_sleeping s chat_id); [exact Hsame|].
    destruct busy; [exact Hsame|].
    apply (responses_ok_send c); assumption.
  - assert (Hsame : responses_ok now (store s))
      by (apply (responses_ok_later c); assumption).
    unfold _retry_check_in.
    destruct (retry_count >? 3); [exact Hsame|].
    destruct busy; [exact Hsame|].
    apply (responses_ok_send c); assumption.
  - apply (responses_ok_later c); [assumption|].
    eapply responses_ok_map;
      [apply (stale_row_response (now - timedelta_minutes 90))
      | reflexivity | exact Hok].
  - apply (responses_ok_reply c); assumption.
  - apply (responses_ok_later c); assumption.
  - assert (Hle : c <= now) by lia.
    destruct (handle_wake_button_state s chat_id today_clock now)
      as [->|(lo & ->)]; apply (responses_ok_later c); try assumption.
    eapply responses_ok_map;
      [apply (wake_row_response lo now) | reflexivity | exact Hok].
  - destruct (get_pending_check_in_result s) as [_ ->]. exact Hok.
  - exact Hok.
Qed.

Lemma responses_ok_run :
  forall history c s,
    well_formed c s -> responses_ok c (store s) ->
    chronological c history = true ->
    responses_ok (final_reading c history) (store (run s history)).
Proof.
  induction history as [|e history IH]; intros c s Hwf Hok Hclock.
  - exact Hok.
  - rewrite chronological_cons in Hclock. apply andb_prop in Hclock.
    destruct Hclock as [He Hrest].
    rewrite final_reading_cons. simpl. apply IH; [| |exact Hrest].
    + apply well_formed_exec; assumption.
    + apply responses_ok_exec; assumption.
Qed.

(** X3.  In every state reached from the empty store by a history whose
    clock readings never decrease, each record has
    [sent_time = scheduled_time], it carries a [response_time] exactly when
    its status is [completed], and then
    [scheduled_time <= sent_time <= response_time], none of the stamps
    being later than the last clock reading. *)
Theorem check_in_stamps_are_ordered :
  forall (c : datetime) (history : list event),
    chronological c history = true ->
    forall r, In r (check_ins (store (run initial history))) ->
      ci_sent_time r = Some (ci_scheduled_time r) /\
      ci_scheduled_time r <= final_reading c history /\
      (ci_status r = completed <-> ci_response_time r <> None) /\
      (forall t, ci_response_time r = Some t ->
                 ci_scheduled_time r <= t <= final_reading c history).
Proof.
  intros c history Hclock r Hr.
  destruct (reachable_well_formed c history Hclock) as ((_ & Hrows) & _).
  destruct (Hrows r Hr) as (_ & Hsent & Hsched).
  assert (Hresp : responses_ok (final_reading c history)
                               (store (run initial history))).
  { apply responses_ok_run; [apply well_formed_initial | | exact Hclock].
    intros x []. }
  destruct (Hresp r Hr) as [Hiff Hstamp].
  split; [exact Hsent | split; [exact Hsched | split; [exact Hiff | exact Hstamp]]].
Qed.

Lemma check_in_stamps_are_ordered_witness :
  let history := [ev_start sample_chat (clock_at 0 9 0);
                  ev_hourly (clock_at 0 10 0) false (Returns tt);
                  ev_reply "wrote the report" gemini_undecodable
                           (clock_at 0 10 20) (clock_at 0 10 21)] in
  let r := mk_check_in 1 (clock_at 0 10 0) (Some (clock_at 0 10 0))
                       (Some (clock_at 0 10 21)) completed 0 in
  In r (check_ins (store (run initial history))) /\
  clock_at 0 10 0 <= clock_at 0 10 21 <= final_reading 0 history.
Proof.
  intros history r.
  assert (Hr : In r (check_ins (store (run initial history))))
    by (left; reflexivity).
  split; [exact Hr|].
  destruct (check_in_stamps_are_ordered 0 history eq_refl r Hr)
    as (_ & _ & _ & Hstamp).
  apply (Hstamp (clock_at 0 10 21)). reflexivity.
Defined.

(** ** Entries of sleeping and completed records *)

Lemma fold_synthesize_prefix :
  forall rows logs l,
    In l logs -> In l (fold_left synthesize_log rows logs).
Proof.
  induction rows as [|r rows IH]; intros logs l Hin; simpl; [exact Hin|].
  apply IH.
  destruct (synthesize_log_cases logs r) as [[_ ->]|[_ (l0 & _ & ->)]];
    [exact Hin | apply in_or_app; left; exact Hin].
Qed.

Lemma fold_synthesize_filter_has :
  forall rows logs i,
    existsb (refers_to i) logs = true ->
    filter (refers_to i) (fold_left synthesize_log rows logs)
    = filter (refers_to i) logs.
Proof.
  induction rows as [|y rows IH]; intros logs i Hex; [reflexivity|].
  simpl. rewrite IH by (apply existsb_synthesize_log; exact Hex).
  destruct (Z.eq_dec (ci_id y) i) as [Heq|Hneq].
  - unfold synthesize_log. rewrite Heq, Hex. reflexivity.
  - apply synthesize_log_filter_other. exact Hneq.
Qed.

Lemma stale_row_settled_inv :
  forall thr r, settled (stale_row thr r) -> stale_row thr r = r.
Proof.
  intros thr r. unfold stale_row.
  destruct (status_eqb (ci_status r) sent && _); [|reflexivity].
  intros [H|H]; discriminate.
Qed.

Lemma entries_ok_same_logs :
  forall d d' f,
    (forall r, ci_id (f r) = ci_id r /\
               ci_scheduled_time (f r) = ci_scheduled_time r) ->
    (forall r, settled (f r) -> ci_status (f r) = ci_status r) ->
    check_ins d' = map f (check_ins d) ->
    activity_logs d' = activity_logs d ->
    sleeping_logged d /\ completed_logged d ->
    sleeping_logged d' /\ completed_logged d'.
Proof.
  intros d d' f Hf Hst Hrows Hlogs [Hsleep Hdone]. split.
  - intros r' Hr' Hs. rewrite Hrows in Hr'. apply in_map_iff in Hr'.
    destruct Hr' as (r & <- & Hr). destruct (Hf r) as [Hid Hsched].
    rewrite (Hst r (or_intror Hs)) in Hs.
    destruct (Hsleep r Hr Hs) as (l & Hl & He).
    exists l. unfold logs_of in *. rewrite Hlogs, Hid. split; [exact Hl|].
    destruct He as (? & ? & ? & ?). repeat split; congruence.
  - intros r' Hr' Hs. rewrite Hrows in Hr'. apply in_map_iff in Hr'.
    destruct Hr' as (r & <- & Hr). destruct (Hf r) as [Hid _].
    rewrite (Hst r (or_introl Hs)) in Hs.
    destruct (Hdone r Hr Hs) as (l & Hl & He).
    exists l. unfold logs_of in *. rewrite Hlogs, Hid. split; assumption.
Qed.

Lemma entries_ok_send :
  forall s chat_id now delivery,
    sleeping_logged (store s) /\ completed_logged (store s) ->
    sleeping_logged (store (snd (send_check_in s chat_id now delivery))) /\
    completed_logged (store (snd (send_check_in s chat_id now delivery))).
Proof.
  intros s chat_id now delivery [Hsleep Hdone]. rewrite send_check_in_state.
  split; intros r Hr Hs; simpl in Hr; apply in_app_or in Hr;
    destruct Hr as [Hr|[<-|[]]]; try discriminate.
  - apply (Hsleep r Hr Hs).
  - apply (Hdone r Hr Hs).
Qed.

Lemma entries_ok_persist :
  forall d i text a now_save now_update,
    sleeping_logged d /\ completed_logged d ->
    let d' := update_check_in_status (save_activity_log d i text a now_save)
                                     i completed now_update in
    sleeping_logged d' /\ completed_logged d'.
Proof.
  intros d i text a now_save now_update [Hsleep Hdone] d'. split.
  - intros r' Hr' Hs. simpl in Hr'. apply in_map_iff in Hr'.
    destruct Hr' as (r & <- & Hr). unfold status_row in *.
    destruct (ci_id r =? i) eqn:Hid; [discriminate|].
    destruct (Hsleep r Hr Hs) as (l & Hl & He).
    exists l. split; [|exact He].
    unfold logs_of in *. simpl. rewrite filter_app, Hl. simpl.
    unfold refers_to. simpl. rewrite Z.eqb_sym, Hid. reflexivity.
  - intros r' Hr' Hs. simpl in Hr'. apply in_map_iff in Hr'.
    destruct Hr' as (r & <- & Hr). unfold status_row in *.
    destruct (ci_id r =? i) eqn:Hid.
    + apply Z.eqb_eq in Hid. simpl. eexists. split.
      * unfold logs_of. simpl. rewrite filter_app. apply in_or_app. right.
        simpl. unfold refers_to. simpl. rewrite Hid, Z.eqb_refl.
        left. reflexivity.
      * simpl. discriminate.
    + destruct (Hdone r Hr Hs) as (l & Hl & He).
      exists l. split; [|exact He].
      unfold logs_of in *. simpl. rewrite filter_app.
      apply in_or_app. left. exact Hl.
Qed.

Lemma entries_ok_reply :
  forall s text reply now_save now_update,
    sleeping_logged (store s) /\ completed_logged (store s) ->
    let s' := snd (handle_check_in_reply s text reply now_save now_update) in
    sleeping_logged (store s') /\ completed_logged (store s').
Proof.
  intros s text reply now_save now_update Hok s'. subst s'.
  unfold handle_check_in_reply.
  destruct (get_pending_check_in_result s) as [_ Hstore].
  destruct (get_pending_check_in s) as [pending_id s1]. simpl in Hstore.
  rewrite <- Hstore in Hok.
  destruct pending_id as [i|]; [|exact Hok].
  destruct (truthy (Some i)); [|exact Hok].
  destruct reply; simpl; try exact Hok; apply entries_ok_persist; exact Hok.
Qed.

Lemma entries_ok_reconcile :
  forall c d chat_id lo hi,
    rows_ok c d -> logs_ok d ->
    sleeping_logged d /\ completed_logged d ->
    sleeping_logged (reconcile d chat_id lo hi) /\
    completed_logged (reconcile d chat_id lo hi).
Proof.
  intros c d chat_id lo hi Hrows Hlogs [Hsleep Hdone]. split.
  - intros r' Hr' Hs. simpl in Hr'. apply in_map_iff in Hr'.
    destruct Hr' as (r & <- & Hr).
    destruct (wake_row_keeps_stamps lo hi r) as (Hid & Hsched & _).
    destruct (slept_through_dec lo hi r) as [Hyes|Hno].
    + destruct (reconcile_entry c d chat_id lo hi r Hrows Hlogs Hr Hyes)
        as (l & Hl & He).
      exists l. rewrite Hid. split; [exact Hl|].
      destruct He as (? & ? & ? & ?). repeat split; congruence.
    + rewrite (wake_row_keeps _ _ _ Hno) in *.
      destruct (Hsleep r Hr Hs) as (l & Hl & He).
      exists l. split; [|exact He].
      unfold logs_of in *. simpl.
      rewrite fold_synthesize_filter_has; [exact Hl|].
      destruct (existsb (refers_to (ci_id r)) (activity_logs d)) eqn:Hex;
        [reflexivity|].
      apply filter_nil_existsb in Hex. rewrite Hex in Hl. discriminate.
  - intros r' Hr' Hs. simpl in Hr'. apply in_map_iff in Hr'.
    destruct Hr' as (r & <- & Hr).
    destruct (wake_row_keeps_stamps lo hi r) as (Hid & _).
    assert (Hsame : wake_row lo hi r = r).
    { apply wake_row_keeps. intros [_ [H|H]].
      - rewrite (wake_row_moves lo hi r) in Hs; [discriminate|].
        unfold slept_through in *.
        destruct (slept_through_dec lo hi r) as [Hyes|Hno]; [exact Hyes|].
        rewrite (wake_row_keeps _ _ _ Hno) in Hs. congruence.
      - destruct (slept_through_dec lo hi r) as [Hyes|Hno].
        + rewrite (wake_row_moves _ _ _ Hyes) in Hs. discriminate.
        + rewrite (wake_row_keeps _ _ _ Hno) in Hs. congruence. }
    rewrite Hsame in *.
    destruct (Hdone r Hr Hs) as (l & Hl & He).
    exists l. split; [|exact He].
    unfold logs_of in *. simpl. apply filter_In in Hl. apply filter_In.
    split; [apply fold_synthesize_prefix |]; apply Hl.
Qed.

Lemma entries_ok_exec :
  forall c e s,
    well_formed c s ->
    sleeping_logged (store s) /\ completed_logged (store s) ->
    sleeping_logged (store (exec s e)) /\ completed_logged (store (exec s e)).
Proof.
  intros c e s (Hrows & Hlogs & _) Hok. destruct e; simpl.
  - unfold start_command. destruct (existsb _ _); exact Hok.
  - unfold _send_hourly_check_in.
    destruct (_get_configured_chat_id s) as [chat_id|]; [|exact Hok].
    destruct (negb (truthy (Some chat_id))); [exact Hok|].
    destruct (_is_user_sleeping s chat_id); [exact Hok|].
    destruct busy; [exact Hok | apply entries_ok_send; exact Hok].
  - unfold _retry_check_in.
    destruct (retry_count >? 3); [exact Hok|].
    destruct busy; [exact Hok | apply entries_ok_send; exact Hok].
  - apply (entries_ok_same_logs (store s) _
             (stale_row (now - timedelta_minutes 90)));
      try reflexivity; try exact Hok.
    + intro r. destruct (stale_row_keeps_stamps (now - timedelta_minutes 90) r)
        as (? & ? & _). split; assumption.
    + intros r Hs. rewrite (stale_row_settled_inv _ _ Hs). reflexivity.
  - apply entries_ok_reply. exact Hok.
  - exact Hok.
  - destruct (handle_wake_button_state s chat_id today_clock now)
      as [->|(lo & ->)]; [exact Hok|].
    apply (entries_ok_reconcile c); assumption.
  - destruct (get_pending_check_in_result s) as [_ ->]. exact Hok.
  - exact Hok.
Qed.

Lemma entries_ok_run :
  forall history c s,
    well_formed c s ->
    sleeping_logged (store s) /\ completed_logged (store s) ->
    chronological c history = true ->
    sleeping_logged (store (run s history)) /\
    completed_logged (store (run s history)).
Proof.
  induction history as [|e history IH]; intros c s Hwf Hok Hclock.
  - exact Hok.
  - rewrite chronological_cons in Hclock. apply andb_prop in Hclock.
    destruct Hclock as [He Hrest]. simpl.
    apply (IH (last (readings e) c)); [| |exact Hrest].
    + apply well_formed_exec; assumption.
    + apply (entries_ok_exec c); assumption.
Qed.

(** X4.  In every state reached from the empty store by a history whose
    clock readings never decrease: every activity entry belongs to an
    existing record that is [completed] or [sleeping]; every [sleeping]
    record has exactly one entry, the synthesized one stamped with its
    [scheduled_time]; and every [completed] record has an entry that holds
    the reply text. *)
Theorem activity_entries_follow_settled_records :
  forall (c : datetime) (history : list event),
    chronological c history = true ->
    let d := store (run initial history) in
    (forall l, In l (activity_logs d) ->
       exists r, In r (check_ins d) /\ al_check_in_id l = Some (ci_id r) /\
                 (ci_status r = completed \/ ci_status r = sleeping)) /\
    (forall r, In r (check_ins d) -> ci_status r = sleeping ->
       exists l, logs_of (ci_id r) d = [l] /\ sleeping_entry_for r l) /\
    (forall r, In r (check_ins d) -> ci_status r = completed ->
       exists l, In l (logs_of (ci_id r) d) /\ al_user_response l <> None).
Proof.
  intros c history Hclock d.
  destruct (reachable_well_formed c history Hclock) as (_ & Hlogs & _).
  destruct (entries_ok_run history c initial (well_formed_initial c))
    as [Hsleep Hdone]; [|exact Hclock|].
  - split; intros r [].
  - split; [exact Hlogs | split; [exact Hsleep | exact Hdone]].
Qed.

Lemma activity_entries_follow_settled_records_witness :
  let history := [ev_start sample_chat (clock_at 0 20 0);
                  ev_sleep sample_chat (clock_at 0 21 30);
                  ev_wake sample_chat (clock_at 0 22 0) (clock_at 0 22 0);
                  ev_hourly (clock_at 1 9 0) false (Returns tt);
                  ev_maintenance (clock_at 1 11 0);
                  ev_wake sample_chat (clock_at 1 11 30) (clock_at 1 11 30)] in
  let d := store (run initial history) in
  exists l, logs_of 1 d = [l] /\
            sleeping_entry_for (check_in_at 1 (clock_at 1 9 0) sleeping) l.
Proof.
  intros history d.
  destruct (activity_entries_follow_settled_records 0 history eq_refl)
    as (_ & Hsleep & _).
  apply (Hsleep (check_in_at 1 (clock_at 1 9 0) sleeping));
    [left; reflexivity | reflexivity].
Defined.

(** ** Sleep, Wake and the hourly tick *)

Lemma find_map_preserving :
  forall (p : user_config -> bool) (f : user_config -> user_config) rows,
    (forall u, p (f u) = p u) ->
    find p (map f rows) = option_map f (find p rows).
Proof.
  intros p f rows Hp. induction rows as [|u rows IH]; [reflexivity|].
  simpl. rewrite Hp. destruct (p u); [reflexivity | exact IH].
Qed.

Lemma sleep_row_chat_id :
  forall chat_id now u, uc_chat_id (sleep_row chat_id now u) = uc_chat_id u.
Proof.
  intros chat_id now u. unfold sleep_row.
  destruct (uc_chat_id u =? chat_id); reflexivity.
Qed.

Lemma sleep_row_enabled :
  forall chat_id now u,
    uc_check_ins_enabled (sleep_row chat_id now u) = uc_check_ins_enabled u.
Proof.
  intros chat_id now u. unfold sleep_row.
  destruct (uc_chat_id u =? chat_id); reflexivity.
Qed.

Lemma awake_row_enabled :
  forall chat_id now u,
    uc_check_ins_enabled (awake_row chat_id now u) = uc_check_ins_enabled u.
Proof.
  intros chat_id now u. unfold awake_row.
  destruct (uc_chat_id u =? chat_id); reflexivity.
Qed.

Lemma configured_chat_has_row :
  forall s chat_id,
    _get_configured_chat_id s = Some chat_id ->
    exists row,
      find (fun u => uc_chat_id u =? chat_id) (user_configs (store s)) = Some row.
Proof.
  intros s chat_id. unfold _get_configured_chat_id.
  destruct (find (fun u => uc_check_ins_enabled u =? 1) (user_configs (store s)))
    as [u|] eqn:Hu; [|discriminate].
  simpl. intro Heq. inversion Heq; subst chat_id.
  apply find_some in Hu. destruct Hu as [Hin _].
  destruct (find (fun u0 => uc_chat_id u0 =? uc_chat_id u)
                 (user_configs (store s))) as [row|] eqn:Hrow.
  - exists row. reflexivity.
  - exfalso. apply (find_none _ _ Hrow) in Hin.
    rewrite Z.eqb_refl in Hin. discriminate.
Qed.

Lemma configured_chat_after_sleep :
  forall s chat_id now,
    _get_configured_chat_id (handle_sleep_button s chat_id now)
    = _get_configured_chat_id s.
Proof.
  intros s chat_id now. unfold _get_configured_chat_id. simpl.
  rewrite (find_map_preserving (fun u => uc_check_ins_enabled u =? 1))
    by (intro u; rewrite sleep_row_enabled; reflexivity).
  destruct (find _ (user_configs (store s))); simpl;
    [rewrite sleep_row_chat_id|]; reflexivity.
Qed.

Lemma sleeping_after_sleep :
  forall s chat_id now row,
    find (fun u => uc_chat_id u =? chat_id) (user_configs (store s)) = Some row ->
    find (fun u => uc_chat_id u =? chat_id)
         (user_configs (store (handle_sleep_button s chat_id now)))
    = Some (mk_user_config (uc_chat_id row) (uc_check_ins_enabled row) 1
                           (Some now) (uc_default_wake_time row)
                           (uc_last_wake_time row) (Some now)).
Proof.
  intros s chat_id now row Hrow. simpl.
  rewrite (find_map_preserving (fun u => uc_chat_id u =? chat_id))
    by (intro u; rewrite sleep_row_chat_id; reflexivity).
  rewrite Hrow. simpl. apply find_some in Hrow. destruct Hrow as [_ Hid].
  unfold sleep_row. rewrite Hid. reflexivity.
Qed.

(** X5.  Once Sleep has been pressed for the configured recipient, the
    hourly tick neither dispatches a prompt nor schedules a retry, whatever
    the busy predicate and the transport would answer, and this for any
    number of ticks: the state after the ticks is the state after Sleep.
    Sleep itself touches neither [check_ins], nor [activity_logs], nor the
    pointer. *)
Theorem hourly_ticks_are_silent_while_asleep :
  forall (s : sys) (chat_id : Z) (now : datetime),
    _get_configured_chat_id s = Some chat_id ->
    let asleep := handle_sleep_button s chat_id now in
    _is_user_sleeping asleep chat_id = true /\
    (forall now' busy delivery,
        _send_hourly_check_in asleep now' busy delivery = (asleep, [])) /\
    (forall ticks : list (datetime * bool * outcome unit),
        run asleep (map (fun '(now', busy, delivery) =>
                           ev_hourly now' busy delivery) ticks) = asleep) /\
    check_ins (store asleep) = check_ins (store s) /\
    activity_logs (store asleep) = activity_logs (store s) /\
    pending_check_in_id asleep = pending_check_in_id s.
Proof.
  intros s chat_id now Hchat asleep.
  destruct (configured_chat_has_row s chat_id Hchat) as (row & Hrow).
  assert (Hsleeping : _is_user_sleeping asleep chat_id = true).
  { unfold _is_user_sleeping. subst asleep.
    rewrite (sleeping_after_sleep s chat_id now row Hrow). reflexivity. }
  assert (Htick : forall now' busy delivery,
             _send_hourly_check_in asleep now' busy delivery = (asleep, [])).
  { intros now' busy delivery. unfold _send_hourly_check_in. subst asleep.
    rewrite configured_chat_after_sleep, Hchat.
    destruct (negb (truthy (Some chat_id))); [reflexivity|].
    rewrite Hsleeping. reflexivity. }
  split; [exact Hsleeping | split; [exact Htick | split]].
  - induction ticks as [|[[now' busy] delivery] ticks IH]; [reflexivity|].
    simpl. rewrite Htick. simpl. exact IH.
  - repeat split.
Qed.

Lemma hourly_ticks_are_silent_while_asleep_witness :
  let s := run initial [ev_start sample_chat (clock_at 0 9 0);
                        ev_hourly (clock_at 0 10 0) false (Returns tt)] in
  let asleep := handle_sleep_button s sample_chat (clock_at 0 10 30) in
  run asleep [ev_hourly (clock_at 0 11 0) false (Returns tt);
              ev_hourly (clock_at 0 12 0) true (Raises "offline")] = asleep.
Proof.
  intros s asleep.
  destruct (hourly_ticks_are_silent_while_asleep s sample_chat
              (clock_at 0 10 30) eq_refl) as (_ & _ & Hticks & _).
  apply (Hticks [(clock_at 0 11 0, false, Returns tt);
                 (clock_at 0 12 0, true, Raises "offline")]).
Defined.

(** X6.  Sleep followed by Wake, for a recipient whose row exists and whose
    wake time is well formed: Wake reports the time elapsed since the press
    of Sleep, the recipient is awake afterwards, the row keeps the
    [sleep_start_time] of that press and records the wake instant, and the
    next hourly tick of a configured, non-busy recipient dispatches
    again. *)
Theorem wake_after_sleep_reports_elapsed_time :
  forall (s : sys) (chat_id : Z) (slept_at today_clock woke_at : datetime)
         (row : user_config) (tm : Z * Z),
    find (fun u => uc_chat_id u =? chat_id) (user_configs (store s)) = Some row ->
    parse_wake_time (default_wake_time_str row) = Some tm ->
    let asleep := handle_sleep_button s chat_id slept_at in
    let awake := snd (handle_wake_button asleep chat_id today_clock woke_at) in
    fst (handle_wake_button asleep chat_id today_clock woke_at)
      = Returns (rounded_hours (woke_at - slept_at)) /\
    _is_user_sleeping awake chat_id = false /\
    find (fun u => uc_chat_id u =? chat_id) (user_configs (store awake))
      = Some (mk_user_config (uc_chat_id row) (uc_check_ins_enabled row) 0
                             (Some slept_at) (uc_default_wake_time row)
                             (Some woke_at) (Some woke_at)) /\
    (_get_configured_chat_id s = Some chat_id -> truthy (Some chat_id) = true ->
     forall now delivery,
       _send_hourly_check_in awake now false delivery
       = (snd (send_check_in awake chat_id now delivery), [])).
Proof.
  intros s chat_id slept_at today_clock woke_at row tm Hrow Hparse asleep awake.
  pose proof (sleeping_after_sleep s chat_id slept_at row Hrow) as Hasleep.
  fold asleep in Hasleep.
  set (row1 := mk_user_config (uc_chat_id row) (uc_check_ins_enabled row) 1
                 (Some slept_at) (uc_default_wake_time row)
                 (uc_last_wake_time row) (Some slept_at)) in Hasleep.
  assert (Hparse1 : parse_wake_time (default_wake_time_str row1) = Some tm)
    by exact Hparse.
  pose proof (handle_wake_button_runs asleep chat_id today_clock woke_at row1
                slept_at tm Hasleep eq_refl Hparse1) as Hrun.
  assert (Hafter :
    find (fun u => uc_chat_id u =? chat_id) (user_configs (store awake))
    = Some (mk_user_config (uc_chat_id row) (uc_check_ins_enabled row) 0
              (Some slept_at) (uc_default_wake_time row)
              (Some woke_at) (Some woke_at))).
  { subst awake. rewrite Hrun. cbn [snd store reconcile user_configs].
    rewrite find_awake_row, Hasleep. simpl.
    apply find_some in Hrow. destruct Hrow as [_ Hid].
    unfold awake_row. simpl. rewrite Hid. reflexivity. }
  split; [rewrite Hrun; reflexivity | split; [|split; [exact Hafter|]]].
  - unfold _is_user_sleeping. rewrite Hafter. reflexivity.
  - intros Hchat Htruthy now delivery.
    unfold _send_hourly_check_in.
    assert (Hconf : _get_configured_chat_id awake = Some chat_id).
    { subst awake. rewrite Hrun. unfold _get_configured_chat_id.
      cbn [snd store reconcile user_configs].
      rewrite (find_map_preserving (fun u => uc_check_ins_enabled u =? 1))
        by (intro u; rewrite awake_row_enabled; reflexivity).
      pose proof (configured_chat_after_sleep s chat_id slept_at) as Hc.
      fold asleep in Hc. rewrite Hchat in Hc.
      unfold _get_configured_chat_id in Hc.
      destruct (find (fun u => uc_check_ins_enabled u =? 1)
                     (user_configs (store asleep))) as [u|]; [|discriminate].
      simpl in *. rewrite awake_row_chat_id. exact Hc. }
    rewrite Hconf, Htruthy. cbn [negb].
    unfold _is_user_sleeping. rewrite Hafter. reflexivity.
Qed.

Lemma wake_after_sleep_reports_elapsed_time_witness :
  let s := run initial [ev_start sample_chat (clock_at 0 9 0)] in
  let asleep := handle_sleep_button s sample_chat (clock_at 0 23 0) in
  fst (handle_wake_button asleep sample_chat (clock_at 1 7 0) (clock_at 1 7 0))
  = Returns (rounded_hours (clock_at 1 7 0 - clock_at 0 23 0)).
Proof.
  intros s asleep.
  destruct (wake_after_sleep_reports_elapsed_time s sample_chat
              (clock_at 0 23 0) (clock_at 1 7 0) (clock_at 1 7 0)
              (mk_user_config sample_chat 1 0 None (Some "08:00"%string) None
                              (Some (clock_at 0 9 0)))
              (8, 0) eq_refl eq_refl) as (Hret & _).
  exact Hret.
Defined.

(** ** The retries of one tick are bounded *)

Lemma run_jobs_single_bounded :
  forall (k : nat) busy delivery s t chat_id retry_count extra,
    retry_count = 4 - Z.of_nat k ->
    let short := run_jobs (S k) busy delivery s [mk_job t chat_id retry_count] in
    run_jobs (S k + extra) busy delivery s [mk_job t chat_id retry_count]
    = short /\
    (List.length (snd short) <= S k)%nat /\
    (fst short = s \/
     exists now, fst short = snd (send_check_in s chat_id now delivery)).
Proof.
  induction k as [|k IH];
    intros busy delivery s t chat_id retry_count extra Hcount short;
    subst short.
  - subst retry_count. simpl Nat.add. rewrite !run_jobs_step.
    cbn [job_chat_id job_retry_count run_date].
    rewrite retry_abandons by lia. cbn [app].
    rewrite !run_jobs_empty. simpl. auto.
  - change (S (S k) + extra)%nat with (S (S k + extra)).
    rewrite !run_jobs_step. cbn [job_chat_id job_retry_count run_date].
    unfold _retry_check_in.
    destruct (retry_count >? 3) eqn:Hgt;
      [rewrite Z.gtb_ltb in Hgt; apply Z.ltb_lt in Hgt; lia|].
    destruct (busy t).
    + cbn [app].
      set (t' := replace_second0 t +
                 timedelta_minutes (if retry_count =? 1 then 5 else 10)).
      destruct (IH busy delivery s t' chat_id (retry_count + 1) extra)
        as (Hfuel & Hlen & Hstate); [lia|].
      rewrite Hfuel.
      destruct (run_jobs (S k) busy delivery s
                         [mk_job t' chat_id (retry_count + 1)])
        as [s2 calls].
      simpl in *. split; [reflexivity | split; [lia | exact Hstate]].
    + cbn [app]. rewrite !run_jobs_empty. simpl.
      split; [reflexivity | split; [lia|]].
      right. exists t. reflexivity.
Qed.

(** X7.  One hourly tick leads to at most four calls of the retry callback
    and to at most one dispatch, whatever the busy predicate answers at
    each instant: the fifth unit of fuel and all later ones are never used,
    and the final state is the starting state or the starting state after
    one [send_check_in]. *)
Theorem hourly_tick_retries_are_bounded :
  forall (busy : datetime -> bool) (delivery : outcome unit) (s : sys)
         (now : datetime) (extra : nat),
    let outcome4 := hourly_tick_with_retries 4 busy delivery s now in
    hourly_tick_with_retries (4 + extra) busy delivery s now = outcome4 /\
    (List.length (snd outcome4) <= 4)%nat /\
    (fst outcome4 = s \/
     exists chat_id at_time,
       fst outcome4 = snd (send_check_in s chat_id at_time delivery)).
Proof.
  intros busy delivery s now extra outcome4. subst outcome4.
  unfold hourly_tick_with_retries, _send_hourly_check_in.
  destruct (_get_configured_chat_id s) as [chat_id|];
    [|rewrite !run_jobs_empty; simpl; split; [reflexivity | split; [lia | auto]]].
  destruct (negb (truthy (Some chat_id)));
    [rewrite !run_jobs_empty; simpl; split; [reflexivity | split; [lia | auto]]|].
  destruct (_is_user_sleeping s chat_id);
    [rewrite !run_jobs_empty; simpl; split; [reflexivity | split; [lia | auto]]|].
  destruct (busy now).
  - destruct (run_jobs_single_bounded 3 busy delivery s
                (replace_second0 now + timedelta_minutes 5) chat_id 1 extra
                eq_refl) as (Hfuel & Hlen & Hstate).
    split; [exact Hfuel | split; [exact Hlen|]].
    destruct Hstate as [Hsame|(t & Hsent)]; [left; exact Hsame|].
    right. exists chat_id, t. exact Hsent.
  - rewrite !run_jobs_empty. simpl.
    split; [reflexivity | split; [lia|]].
    right. exists chat_id, now. reflexivity.
Qed.

(** ** Wake with an ill-formed wake time *)

Lemma ill_formed_wake_time_fails :
  forall txt, ill_formed_wake_time txt -> parse_wake_time txt = None.
Proof.
  intros txt [Hlen|(h & m & wh & wm & Hsplit & Hh & Hm & Hdial)];
    unfold parse_wake_time.
  - destruct (split_colon txt) as [|h [|m [|x rest]]]; try reflexivity.
    exfalso. apply Hlen. reflexivity.
  - rewrite Hsplit, Hh, Hm. unfold dt_time.
    destruct ((0 <=? wh) && (wh <? 24) && (0 <=? wm) && (wm <? 60)) eqn:Hb;
      [|reflexivity].
    exfalso. apply Hdial.
    repeat (apply andb_prop in Hb; destruct Hb as [Hb ?]).
    lia.
Qed.

(** X8.  When a sleep start is recorded but the stored wake time does not
    split into two parts at its colons, or holds numbers off the dial,
    [handle_wake_button] raises before its first write: no record, entry
    or configuration row changes, and the recipient is still marked as
    sleeping, so the hourly tick stays silent. *)
Theorem handle_wake_ill_formed_wake_time :
  forall (s : sys) (chat_id : Z) (today_clock now : datetime)
         (row : user_config) (sleep_start : datetime),
    find (fun u => uc_chat_id u =? chat_id) (user_configs (store s)) = Some row ->
    uc_sleep_start_time row = Some sleep_start ->
    ill_formed_wake_time (default_wake_time_str row) ->
    handle_wake_button s chat_id today_clock now = (Raises "ValueError", s) /\
    _is_user_sleeping (snd (handle_wake_button s chat_id today_clock now)) chat_id
    = _is_user_sleeping s chat_id.
Proof.
  intros s chat_id today_clock now row sleep_start Hrow Hsleep Hbad.
  assert (Hraise : handle_wake_button s chat_id today_clock now
                   = (Raises "ValueError", s)).
  { unfold handle_wake_button. rewrite Hrow, Hsleep.
    unfold retroactive_start, default_wake_today.
    rewrite (ill_formed_wake_time_fails _ Hbad). reflexivity. }
  rewrite Hraise. split; reflexivity.
Qed.

Lemma handle_wake_ill_formed_wake_time_witness :
  let row := mk_user_config sample_chat 1 1 (Some (clock_at 0 23 0))
                            (Some "25:00"%string) None None in
  let s := mk_sys (mk_db [check_in_at 1 (clock_at 0 22 0) missed] [row] [])
                  (Some 1) in
  handle_wake_button s sample_chat (clock_at 1 7 0) (clock_at 1 7 0)
  = (Raises "ValueError", s).
Proof.
  intros row s.
  apply (handle_wake_ill_formed_wake_time s sample_chat (clock_at 1 7 0)
           (clock_at 1 7 0) row (clock_at 0 23 0) eq_refl eq_refl).
  right. exists "25"%string, "00"%string, 25, 0.
  split; [reflexivity | split; [reflexivity | split; [reflexivity|]]].
  intros [Hhour _]. lia.
Defined.

(** ** The existence test of the wake handler, on any store *)

Lemma fold_synthesize_added :
  forall rows logs,
    exists added,
      fold_left synthesize_log rows logs = logs ++ added /\
      (forall l, In l added ->
         exists r, In r rows /\ sleeping_entry_for r l) /\
      (forall i,
         (List.length (filter (refers_to i) added)
          <= if existsb (refers_to i) logs then 0 else 1)%nat).
Proof.
  induction rows as [|y rows IH]; intro logs.
  - exists []. rewrite app_nil_r. simpl. split; [reflexivity|].
    split; [intros l [] |]. intro i. destruct (existsb _ _); lia.
  - simpl.
    destruct (synthesize_log_cases logs y) as [[Hex Heq]|[Hex (l0 & Hl0 & Heq)]];
      rewrite Heq; destruct (IH (synthesize_log logs y)) as (added & Hfold & Hnew & Hcount);
      rewrite Heq in Hfold, Hcount.
    + exists added. split; [exact Hfold|]. split; [|exact Hcount].
      intros l Hl. destruct (Hnew l Hl) as (r & Hr & He).
      exists r. split; [right; exact Hr | exact He].
    + exists (l0 :: added). rewrite Hfold, <- app_assoc. split; [reflexivity|].
      split.
      * intros l [<-|Hl].
        -- exists y. split; [left; reflexivity | exact Hl0].
        -- destruct (Hnew l Hl) as (r & Hr & He).
           exists r. split; [right; exact Hr | exact He].
      * intro i. specialize (Hcount i).
        rewrite existsb_app in Hcount. simpl in Hcount |- *.
        rewrite (refers_to_entry y l0 i Hl0) in *.
        destruct (ci_id y =? i) eqn:Hid.
        -- apply Z.eqb_eq in Hid. subst i. rewrite Hex in Hcount |- *.
           simpl in Hcount |- *. lia.
        -- rewrite !orb_false_r in Hcount. exact Hcount.
Qed.

(** X9.  On any store and for any window, the reconciliation of the wake
    handler only appends to [activity_logs]; every appended entry is the
    synthesized entry of a record that is [sleeping] and scheduled inside
    the window; a check-in that already had entries keeps exactly those,
    and a check-in that had none gets at most one. *)
Theorem reconcile_never_duplicates_entries :
  forall (d : db) (chat_id : Z) (lo hi : datetime),
    let d' := reconcile d chat_id lo hi in
    (exists added,
        activity_logs d' = activity_logs d ++ added /\
        forall l, In l added ->
          exists r, In r (check_ins d') /\ ci_status r = sleeping /\
                    lo <= ci_scheduled_time r <= hi /\
                    sleeping_entry_for r l) /\
    (forall i, logs_of i d <> [] -> logs_of i d' = logs_of i d) /\
    (forall i, logs_of i d = [] -> (List.length (logs_of i d') <= 1)%nat).
Proof.
  intros d chat_id lo hi d'.
  destruct (fold_synthesize_added
              (sleeping_in_window lo hi (map (wake_row lo hi) (check_ins d)))
              (activity_logs d)) as (added & Hfold & Hnew & Hcount).
  assert (Hlogs : activity_logs d' = activity_logs d ++ added) by exact Hfold.
  split; [|split].
  - exists added. split; [exact Hlogs|].
    intros l Hl. destruct (Hnew l Hl) as (r & Hr & He).
    unfold sleeping_in_window in Hr. apply filter_In in Hr.
    destruct Hr as [Hr Hb]. apply andb_prop in Hb. destruct Hb as [Hst Hwin].
    exists r. split; [exact Hr|].
    split; [apply status_eqb_eq; exact Hst|].
    split; [apply in_window_iff; exact Hwin | exact He].
  - intros i Hsome. unfold logs_of in *. rewrite Hlogs, filter_app.
    specialize (Hcount i).
    destruct (existsb (refers_to i) (activity_logs d)) eqn:Hex.
    + destruct (filter (refers_to i) added); [apply app_nil_r|].
      simpl in Hcount. lia.
    + exfalso. apply Hsome. apply filter_nil_existsb. exact Hex.
  - intros i Hnone. unfold logs_of in *. rewrite Hlogs, filter_app, Hnone.
    simpl. specialize (Hcount i).
    destruct (existsb (refers_to i) (activity_logs d)); lia.
Qed.

(** ** The sweep and a dispatch, in either order *)

Lemma stale_row_fresh :
  forall thr i t,
    thr <= t ->
    stale_row thr (mk_check_in i t (Some t) None sent 0)
    = mk_check_in i t (Some t) None sent 0.
Proof.
  intros thr i t Hle. unfold stale_row. simpl.
  destruct (t <? thr) eqn:Hlt; [|reflexivity].
  apply Z.ltb_lt in Hlt. lia.
Qed.

(** X10.  A sweep and a dispatch commute as long as the dispatched prompt
    is not itself stale at the time of the sweep: sweeping at [swept_at]
    after a dispatch at [now] gives the same state as dispatching at [now]
    after that sweep, provided [now] is not more than 90 minutes before
    [swept_at]. *)
Theorem sweep_commutes_with_dispatch :
  forall (s : sys) (chat_id : Z) (now swept_at : datetime)
         (delivery : outcome unit),
    swept_at - timedelta_minutes 90 <= now ->
    mark_stale_as_missed (snd (send_check_in s chat_id now delivery)) swept_at
    = snd (send_check_in (mark_stale_as_missed s swept_at) chat_id now delivery) /\
    fst (send_check_in s chat_id now delivery)
    = fst (send_check_in (mark_stale_as_missed s swept_at) chat_id now delivery).
Proof.
  intros s chat_id now swept_at delivery Hfresh.
  assert (Hids : map ci_id (map (stale_row (swept_at - timedelta_minutes 90))
                                (check_ins (store s)))
                 = map ci_id (check_ins (store s))).
  { rewrite map_map. apply map_ext. intro r. apply stale_row_keeps_stamps. }
  split.
  - rewrite !send_check_in_state. unfold mark_stale_as_missed, set_check_ins.
    cbn [store check_ins user_configs activity_logs pending_check_in_id].
    rewrite Hids, map_app. cbn [map].
    rewrite stale_row_fresh by exact Hfresh. reflexivity.
  - destruct delivery; unfold send_check_in, mark_stale_as_missed, set_check_ins;
      cbn [fst store check_ins]; [rewrite Hids|]; reflexivity.
Qed.

Lemma sweep_commutes_with_dispatch_witness :
  let s := run initial [ev_start sample_chat (clock_at 0 9 0);
                        ev_hourly (clock_at 0 10 0) false (Returns tt)] in
  mark_stale_as_missed
    (snd (send_check_in s sample_chat (clock_at 0 12 0) (Returns tt)))
    (clock_at 0 12 0)
  = snd (send_check_in (mark_stale_as_missed s (clock_at 0 12 0))
                       sample_chat (clock_at 0 12 0) (Returns tt)).
Proof.
  intro s.
  apply (sweep_commutes_with_dispatch s sample_chat (clock_at 0 12 0)
           (clock_at 0 12 0) (Returns tt)).
  vm_compute. discriminate.
Defined.

(** ** One configuration row per chat *)

Lemma no_row_for_chat :
  forall rows chat_id,
    existsb (fun u => uc_chat_id u =? chat_id) rows = false ->
    ~ In chat_id (map uc_chat_id rows).
Proof.
  intros rows chat_id Hnone Hin. apply in_map_iff in Hin.
  destruct Hin as (u & Hid & Hu).
  assert (Hex : existsb (fun u0 => uc_chat_id u0 =? chat_id) rows = true).
  { apply existsb_exists. exists u. split; [exact Hu|].
    rewrite Hid. apply Z.eqb_refl. }
  congruence.
Qed.

Lemma chat_ids_exec :
  forall s e,
    map uc_chat_id (user_configs (store (exec s e)))
    = map uc_chat_id (user_configs (store s)) \/
    exists chat_id,
      ~ In chat_id (map uc_chat_id (user_configs (store s))) /\
      map uc_chat_id (user_configs (store (exec s e)))
      = map uc_chat_id (user_configs (store s)) ++ [chat_id].
Proof.
  intros s e. destruct e; simpl.
  - unfold start_command.
    destruct (existsb (fun u => uc_chat_id u =? chat_id)
                      (user_configs (store s))) eqn:Hex;
      [left; reflexivity|].
    right. exists chat_id. split; [apply no_row_for_chat; exact Hex|].
    simpl. rewrite map_app. reflexivity.
  - left. unfold _send_hourly_check_in.
    destruct (_get_configured_chat_id s) as [chat_id|]; [|reflexivity].
    destruct (negb (truthy (Some chat_id))); [reflexivity|].
    destruct (_is_user_sleeping s chat_id); [reflexivity|].
    destruct busy; [reflexivity|]. simpl.
    rewrite send_check_in_state. reflexivity.
  - left. unfold _retry_check_in.
    destruct (retry_count >? 3); [reflexivity|].
    destruct busy; [reflexivity|]. simpl.
    rewrite send_check_in_state. reflexivity.
  - left. reflexivity.
  - left. unfold handle_check_in_reply.
    destruct (get_pending_check_in_result s) as [_ Hstore].
    destruct (get_pending_check_in s) as [pending_id s1]. simpl in Hstore.
    rewrite <- Hstore.
    destruct pending_id as [i|]; [|reflexivity].
    destruct (truthy (Some i)); [|reflexivity].
    destruct reply; reflexivity.
  - left. rewrite map_map. apply map_ext. intro u. apply sleep_row_chat_id.
  - left.
    destruct (handle_wake_button_state s chat_id today_clock now)
      as [->|(lo & ->)]; [reflexivity|].
    simpl. rewrite map_map. apply map_ext. intro u. apply awake_row_chat_id.
  - left. destruct (get_pending_check_in_result s) as [_ ->]. reflexivity.
  - left. reflexivity.
Qed.

Lemma chat_ids_run_distinct :
  forall history s,
    NoDup (map uc_chat_id (user_configs (store s))) ->
    NoDup (map uc_chat_id (user_configs (store (run s history)))).
Proof.
  induction history as [|e history IH]; intros s Hnodup; [exact Hnodup|].
  simpl. apply IH.
  destruct (chat_ids_exec s e) as [->|(chat_id & Hnew & ->)];
    [exact Hnodup|].
  apply NoDup_app; [exact Hnodup | constructor; [intros [] | constructor] |].
  intros i Hi [<-|[]]. apply Hnew. exact Hi.
Qed.

(** X11.  Starting from the empty store, [user_config] never holds two
    rows for one chat, whatever the events; [/start] gives the chat a row
    when it has none and is without effect when it has one, so a second
    [/start] changes nothing. *)
Theorem one_config_row_per_chat :
  forall (history : list event) (chat_id : Z) (now now' : datetime),
    let s := run initial history in
    NoDup (map uc_chat_id (user_configs (store s))) /\
    (exists row,
        find (fun u => uc_chat_id u =? chat_id)
             (user_configs (store (start_command s chat_id now))) = Some row) /\
    start_command (start_command s chat_id now) chat_id now'
    = start_command s chat_id now.
Proof.
  intros history chat_id now now' s.
  split; [apply chat_ids_run_distinct; constructor|].
  assert (Hhas : existsb (fun u => uc_chat_id u =? chat_id)
                         (user_configs (store (start_command s chat_id now)))
                 = true).
  { unfold start_command.
    destruct (existsb (fun u => uc_chat_id u =? chat_id)
                      (user_configs (store s))) eqn:Hex; [exact Hex|].
    simpl. rewrite existsb_app. simpl. rewrite Z.eqb_refl.
    rewrite orb_true_l, orb_true_r. reflexivity. }
  split.
  - destruct (find (fun u => uc_chat_id u =? chat_id)
                   (user_configs (store (start_command s chat_id now))))
      as [row|] eqn:Hrow; [exists row; reflexivity|].
    exfalso. apply existsb_exists in Hhas. destruct Hhas as (u & Hu & Hid).
    apply (find_none _ _ Hrow) in Hu. congruence.
  - unfold start_command at 1. rewrite Hhas. reflexivity.
Qed.

(** ** Replies that are stored *)

Lemma handle_check_in_reply_stored :
  forall s text reply a now_save now_update i,
    fst (get_pending_check_in s) = Some i ->
    truthy (Some i) = true ->
    stored_judgment reply text = Some a ->
    handle_check_in_reply s text reply now_save now_update
    = (Some a,
       mk_sys (update_check_in_status
                 (save_activity_log (store s) i text a now_save)
                 i completed now_update)
              None).
Proof.
  intros s text reply a now_save now_update i Hpending Htruthy Hstored.
  unfold handle_check_in_reply.
  destruct (get_pending_check_in_result s) as [_ Hstore].
  destruct (get_pending_check_in s) as [pending_id s1].
  simpl in Hpending, Hstore. subst pending_id. rewrite Htruthy.
  destruct reply; simpl in Hstored; try discriminate;
    inversion Hstored; subst a; simpl; rewrite Hstore; reflexivity.
Qed.

(** X12.  When a check-in is pending and the service answers with a
    judgment (or with text that cannot be decoded, which is replaced by the
    neutral judgment), the reply handler returns that judgment, appends one
    activity entry holding the reply text, the judgment and the id of the
    check-in, marks every record of that id [completed] with the
    [response_time] of the update, leaves all other records and
    [user_config] alone, clears the pointer, and the next lookup does not
    offer that check-in again. *)
Theorem reply_is_stored_and_completes_check_in :
  forall (s : sys) (text : string) (reply : gemini_reply) (a : analysis)
         (now_save now_update : datetime) (i : Z),
    fst (get_pending_check_in s) = Some i ->
    truthy (Some i) = true ->
    stored_judgment reply text = Some a ->
    let result := handle_check_in_reply s text reply now_save now_update in
    fst result = Some a /\
    pending_check_in_id (snd result) = None /\
    activity_logs (store (snd result))
    = activity_logs (store s) ++
      [mk_activity_log (next_rowid (map al_id (activity_logs (store s))))
         now_save (Some text) (an_activity_summary a) (an_productivity_type a)
         (an_alignment_score a) (an_matched_todo_id a) (an_category a)
         (an_reasoning a) (Some i)] /\
    Forall2 (fun r r' =>
               (ci_id r = i /\
                r' = mk_check_in (ci_id r) (ci_scheduled_time r)
                                 (ci_sent_time r) (Some now_update) completed
                                 (ci_retry_count r)) \/
               (ci_id r <> i /\ r' = r))
            (check_ins (store s)) (check_ins (store (snd result))) /\
    user_configs (store (snd result)) = user_configs (store s) /\
    fst (get_pending_check_in (snd result)) <> Some i.
Proof.
  intros s text reply a now_save now_update i Hpending Htruthy Hstored result.
  subst result.
  rewrite (handle_check_in_reply_stored _ _ _ _ _ _ _ Hpending Htruthy Hstored).
  cbn [fst snd pending_check_in_id store].
  split; [reflexivity | split; [reflexivity | split; [reflexivity|]]].
  split; [|split; [reflexivity|]].
  - simpl. apply Forall2_map_same. intros r _. unfold status_row.
    destruct (ci_id r =? i) eqn:Hid.
    + left. split; [apply Z.eqb_eq; exact Hid | reflexivity].
    + right. split; [apply Z.eqb_neq; exact Hid | reflexivity].
  - unfold get_pending_check_in. cbn [pending_check_in_id truthy negb store].
    destruct (most_recent_sent _) as [r|] eqn:Hfind; [|discriminate].
    cbn [fst]. intro Heq. inversion Heq as [Hid].
    destruct (most_recent_sent_some _ _ Hfind) as (Hin & Hsent & _).
    simpl in Hin. apply in_map_iff in Hin. destruct Hin as (r0 & <- & _).
    unfold status_row in Hid, Hsent.
    destruct (ci_id r0 =? i) eqn:Hr0; simpl in Hsent, Hid;
      [discriminate | apply Z.eqb_neq in Hr0; contradiction].
Qed.

Lemma reply_is_stored_and_completes_check_in_witness :
  let s := run initial [ev_start sample_chat (clock_at 0 9 0);
                        ev_hourly (clock_at 0 10 0) false (Returns tt)] in
  let a := mk_analysis (Some "Report"%string) (Some "aligned"%string) (Some 3)
                       (Some 8) (Some "Career"%string) None None in
  let result := handle_check_in_reply s "worked on report" (gemini_dict a)
                                      (clock_at 0 10 20) (clock_at 0 10 21) in
  fst result = Some a /\
  pending_check_in_id (snd result) = None /\
  fst (get_pending_check_in (snd result)) <> Some 1.
Proof.
  intros s a result.
  destruct (reply_is_stored_and_completes_check_in s "worked on report"
              (gemini_dict a) a (clock_at 0 10 20) (clock_at 0 10 21) 1
              eq_refl eq_refl eq_refl) as (Hret & Hptr & _ & _ & _ & Hnext).
  split; [exact Hret | split; [exact Hptr | exact Hnext]].
Defined.

(** X13.  [get_pending_check_in] never changes the store, hands back
    exactly the pointer it leaves behind, and is idempotent: a second call
    returns the same id and changes nothing. *)
Theorem get_pending_check_in_is_idempotent :
  forall (s : sys),
    let first := get_pending_check_in s in
    store (snd first) = store s /\
    pending_check_in_id (snd first) = fst first /\
    get_pending_check_in (snd first) = first.
Proof.
  intros s first. subst first.
  destruct (get_pending_check_in_cases s)
    as [[Htruthy Heq]|[[Hfalsy (r & Hfind & Heq)]|(Hfalsy & Hnone & Heq)]];
    rewrite Heq; cbn [fst snd store pending_check_in_id];
    split; try reflexivity; split; try reflexivity.
  - exact Heq.
  - unfold get_pending_check_in. cbn [pending_check_in_id store].
    rewrite Hfind.
    destruct (negb (truthy (Some (ci_id r)))); reflexivity.
  - exact Heq.
Qed.

(** ** The daily statistics *)

Lemma within_day_iff :
  forall target_date t,
    within (day_start target_date) (day_end target_date) t
    = (date_of t =? target_date).
Proof.
  intros target_date t.
  unfold within, day_start, day_end, date_of, datetime_combine. simpl fst.
  simpl snd.
  assert (Hday : us_per_day = 86400000000) by reflexivity.
  assert (Hhour : us_per_hour = 3600000000) by reflexivity.
  assert (Hmin : us_per_minute = 60000000) by reflexivity.
  assert (Hsec : us_per_second = 1000000) by reflexivity.
  pose proof (Z.div_mod t us_per_day) as Hdiv.
  pose proof (Z.mod_pos_bound t us_per_day) as Hmod.
  rewrite Hday, Hhour, Hmin, Hsec in *.
  specialize (Hdiv ltac:(lia)). specialize (Hmod ltac:(lia)).
  destruct (t / 86400000000 =? target_date) eqn:Heq.
  - apply Z.eqb_eq in Heq. apply andb_true_iff.
    split; apply Z.leb_le; lia.
  - apply Z.eqb_neq in Heq. apply andb_false_iff.
    destruct (Z_lt_dec (t / 86400000000) target_date) as [Hlt|Hge].
    + left. apply Z.leb_gt. lia.
    + right. apply Z.leb_gt. lia.
Qed.

Section Grouping.
Variable K : Type.
Variable eqb : K -> K -> bool.
Hypothesis eqb_spec : forall a b, eqb a b = true <-> a = b.

Lemma dict_sum_bump :
  forall k groups, dict_sum (bump eqb k groups) = dict_sum groups + 1.
Proof.
  intros k groups. induction groups as [|[k' n] rest IH]; simpl.
  - reflexivity.
  - destruct (eqb k k'); unfold dict_sum in *; simpl in *; lia.
Qed.

Lemma dict_get_bump :
  forall k k' groups,
    dict_get eqb k' (bump eqb k groups)
    = dict_get eqb k' groups + (if eqb k' k then 1 else 0).
Proof.
  intros k k' groups. induction groups as [|[k0 n] rest IH].
  - unfold dict_get. simpl. destruct (eqb k' k); reflexivity.
  - simpl. destruct (eqb k k0) eqn:Hk.
    + apply eqb_spec in Hk. subst k0. unfold dict_get. simpl.
      destruct (eqb k' k); simpl; lia.
    + unfold dict_get in *. simpl.
      destruct (eqb k' k0) eqn:Hk'; [|exact IH].
      apply eqb_spec in Hk'. subst k0. simpl.
      destruct (eqb k' k) eqn:Hkk; [|lia].
      apply eqb_spec in Hkk. subst k'.
      assert (eqb k k = true) by (apply eqb_spec; reflexivity). congruence.
Qed.

Lemma dict_sum_fold :
  forall keys groups,
    dict_sum (fold_left (fun g k => bump eqb k g) keys groups)
    = dict_sum groups + Z.of_nat (List.length keys).
Proof.
  induction keys as [|k keys IH]; intro groups; simpl List.length.
  - simpl. lia.
  - simpl fold_left. rewrite IH, dict_sum_bump. lia.
Qed.

Lemma dict_get_fold :
  forall keys k' groups,
    dict_get eqb k' (fold_left (fun g k => bump eqb k g) keys groups)
    = dict_get eqb k' groups
      + Z.of_nat (List.length (filter (eqb k') keys)).
Proof.
  induction keys as [|k keys IH]; intros k' groups.
  - simpl. lia.
  - simpl fold_left. rewrite IH, dict_get_bump. simpl filter.
    destruct (eqb k' k); simpl List.length; lia.
Qed.

Lemma dict_sum_group_count :
  forall keys, dict_sum (group_count eqb keys) = Z.of_nat (List.length keys).
Proof. intro keys. unfold group_count. rewrite dict_sum_fold. reflexivity. Qed.

Lemma dict_get_group_count :
  forall keys k,
    dict_get eqb k (group_count eqb keys)
    = Z.of_nat (List.length (filter (eqb k) keys)).
Proof. intros keys k. unfold group_count. rewrite dict_get_fold. reflexivity. Qed.
End Grouping.

Lemma filter_status_of_map :
  forall st rows,
    List.length (filter (status_eqb st) (map ci_status rows))
    = List.length (filter (fun r => status_eqb (ci_status r) st) rows).
Proof.
  intros st rows. induction rows as [|r rows IH]; [reflexivity|].
  simpl. replace (status_eqb st (ci_status r)) with (status_eqb (ci_status r) st)
    by (destruct st, (ci_status r); reflexivity).
  destruct (status_eqb (ci_status r) st); simpl; congruence.
Qed.

Lemma statuses_partition :
  forall rows,
    Z.of_nat (List.length rows)
    = count_status pending rows + count_status sent rows
      + count_status completed rows + count_status missed rows
      + count_status sleeping rows.
Proof.
  unfold count_status. induction rows as [|r rows IH]; [reflexivity|].
  simpl. destruct (ci_status r); simpl List.length; lia.
Qed.

(** X14.  The daily statistics count every check-in on exactly one day,
    the calendar day of its [scheduled_time]: [total_check_ins] is the
    number of records scheduled on the target date, the responded, missed
    and sleeping counts are the numbers of those records with status
    [completed], [missed] and [sleeping], the total exceeds their sum by
    the records of the day still [sent] or [pending], and the total is 0
    exactly when no check-in was scheduled that day. *)
Theorem daily_stats_count_each_check_in_once :
  forall (d : db) (target_date : Z),
    let stats := _get_daily_stats d target_date in
    let today := scheduled_on target_date (check_ins d) in
    total_check_ins stats = Z.of_nat (List.length today) /\
    responded_check_ins stats = count_status completed today /\
    missed_check_ins stats = count_status missed today /\
    sleeping_check_ins stats = count_status sleeping today /\
    total_check_ins stats
    = responded_check_ins stats + missed_check_ins stats
      + sleeping_check_ins stats
      + count_status sent today + count_status pending today /\
    0 <= responded_check_ins stats <= total_check_ins stats /\
    (total_check_ins stats = 0 <-> today = []).
Proof.
  intros d target_date stats today.
  assert (Hday : filter (fun r => within (day_start target_date)
                                         (day_end target_date)
                                         (ci_scheduled_time r)) (check_ins d)
                 = today).
  { subst today. unfold scheduled_on. apply filter_ext. intro r.
    apply within_day_iff. }
  assert (Htotal : total_check_ins stats = Z.of_nat (List.length today)).
  { subst stats. unfold _get_daily_stats. cbn [total_check_ins].
    rewrite Hday, (dict_sum_group_count status status_eqb), length_map.
    reflexivity. }
  assert (Hget : forall st,
             dict_get status_eqb st (group_count status_eqb (map ci_status today))
             = count_status st today).
  { intro st. rewrite (dict_get_group_count status status_eqb status_eqb_eq).
    unfold count_status. rewrite filter_status_of_map. reflexivity. }
  assert (Hresp : responded_check_ins stats = count_status completed today)
    by (subst stats; unfold _get_daily_stats; cbn [responded_check_ins];
        rewrite Hday; apply Hget).
  assert (Hmiss : missed_check_ins stats = count_status missed today)
    by (subst stats; unfold _get_daily_stats; cbn [missed_check_ins];
        rewrite Hday; apply Hget).
  assert (Hsleep : sleeping_check_ins stats = count_status sleeping today)
    by (subst stats; unfold _get_daily_stats; cbn [sleeping_check_ins];
        rewrite Hday; apply Hget).
  pose proof (statuses_partition today) as Hpart.
  assert (Hnonneg : forall st, 0 <= count_status st today)
    by (intro st; unfold count_status; lia).
  pose proof (Hnonneg pending). pose proof (Hnonneg sent).
  pose proof (Hnonneg completed). pose proof (Hnonneg missed).
  pose proof (Hnonneg sleeping).
  repeat split; try assumption; try lia.
  - intro Hzero. destruct today; [reflexivity|].
    rewrite Htotal in Hzero. simpl List.length in Hzero. lia.
  - intro Hnil. rewrite Htotal, Hnil. reflexivity.
Qed.

(** ** Order and cut of the task list *)

Lemma type_eqb_eq : forall a b, type_eqb a b = true <-> a = b.
Proof.
  intros [x|] [y|]; simpl; split; intro H; try discriminate; try reflexivity.
  - apply String.eqb_eq in H. subst. reflexivity.
  - inversion H. apply String.eqb_refl.
Qed.

Lemma insert_todo_in :
  forall x rows t, In t (insert_todo x rows) <-> t = x \/ In t rows.
Proof.
  intros x rows t. induction rows as [|y rows IH]; simpl.
  - split; [intros [H|[]]; left; auto | intros [H|[]]; left; auto].
  - destruct (todo_before x y); simpl.
    + split; [intros [H|H]; [left; auto | right; exact H]
             | intros [H|H]; [left; auto | right; exact H]].
    + rewrite IH. split.
      * intros [H|[H|H]]; [right; left; exact H | left; exact H
                          | right; right; exact H].
      * intros [H|[H|H]]; [right; left; exact H | left; exact H
                          | right; right; exact H].
Qed.

Lemma order_todos_in :
  forall rows t, In t (order_todos rows) <-> In t rows.
Proof.
  intros rows t. induction rows as [|x rows IH]; simpl; [tauto|].
  rewrite insert_todo_in, IH. split; intros [H|H]; auto.
Qed.

Lemma insert_todo_count :
  forall (p : todo -> bool) x rows,
    List.length (filter p (insert_todo x rows))
    = List.length (filter p (x :: rows)).
Proof.
  intros p x rows. induction rows as [|y rows IH]; [reflexivity|].
  simpl. destruct (todo_before x y); [reflexivity|].
  simpl in *. destruct (p y), (p x); simpl in *; lia.
Qed.

Lemma order_todos_count :
  forall (p : todo -> bool) rows,
    List.length (filter p (order_todos rows)) = List.length (filter p rows).
Proof.
  intros p rows. induction rows as [|x rows IH]; [reflexivity|].
  simpl order_todos. rewrite insert_todo_count. simpl.
  destruct (p x); simpl; lia.
Qed.

Lemma insert_todo_all :
  forall (P : todo -> Prop) x rows,
    P x -> Forall P rows -> Forall P (insert_todo x rows).
Proof.
  intros P x rows Hx Hrows. apply Forall_forall. intros t Ht.
  apply insert_todo_in in Ht. destruct Ht as [->|Ht]; [exact Hx|].
  rewrite Forall_forall in Hrows. apply Hrows. exact Ht.
Qed.

Lemma insert_todo_banded :
  forall x mediums highs,
    has_priority "HIGH" x = true \/ has_priority "MEDIUM" x = true ->
    Forall (fun t => has_priority "MEDIUM" t = true) mediums ->
    Forall (fun t => has_priority "HIGH" t = true) highs ->
    exists mediums' highs',
      insert_todo x (mediums ++ highs) = mediums' ++ highs' /\
      Forall (fun t => has_priority "MEDIUM" t = true) mediums' /\
      Forall (fun t => has_priority "HIGH" t = true) highs'.
Proof.
  intros x mediums highs Hx Hm Hh.
  induction Hm as [|m mediums Hmp Hm IH].
  - simpl app. destruct Hx as [Hx|Hx].
    + exists [], (insert_todo x highs).
      split; [reflexivity | split; [constructor|]].
      apply insert_todo_all; assumption.
    + destruct highs as [|h highs].
      * exists [x], []. split; [reflexivity|].
        split; constructor; [exact Hx | constructor].
      * exists [x], (h :: highs). simpl.
        inversion Hh as [|? ? Hhp Hrest]; subst.
        unfold has_priority in Hx, Hhp.
        apply type_eqb_eq in Hx, Hhp. unfold todo_before.
        rewrite Hx, Hhp. simpl.
        split; [reflexivity|].
        split; [constructor; [|constructor] | constructor]; try assumption;
          unfold has_priority; [rewrite Hx | rewrite Hhp]; reflexivity.
  - destruct IH as (ms & hs & Heq & Hms & Hhs).
    simpl app. simpl insert_todo.
    destruct (todo_before x m) eqn:Hbefore.
    + destruct Hx as [Hx|Hx].
      * exfalso. unfold has_priority in Hx, Hmp.
        apply type_eqb_eq in Hx, Hmp. unfold todo_before in Hbefore.
        rewrite Hx, Hmp in Hbefore. simpl in Hbefore. discriminate.
      * exists (x :: m :: mediums), highs.
        split; [reflexivity|].
        split; [constructor; [exact Hx | constructor; assumption] | exact Hh].
    + exists (m :: ms), hs. rewrite Heq.
      split; [reflexivity|].
      split; [constructor; assumption | exact Hhs].
Qed.

Lemma order_todos_banded :
  forall rows,
    Forall (fun t => has_priority "HIGH" t = true \/
                     has_priority "MEDIUM" t = true) rows ->
    exists mediums highs,
      order_todos rows = mediums ++ highs /\
      Forall (fun t => has_priority "MEDIUM" t = true) mediums /\
      Forall (fun t => has_priority "HIGH" t = true) highs.
Proof.
  intros rows Hrows. induction Hrows as [|x rows Hx Hrows IH].
  - exists [], []. split; [reflexivity | split; constructor].
  - destruct IH as (ms & hs & Heq & Hms & Hhs).
    simpl order_todos. rewrite Heq.
    apply insert_todo_banded; assumption.
Qed.

Lemma Forall_firstn_todo :
  forall (P : todo -> Prop) n rows,
    Forall P rows -> Forall P (firstn n rows).
Proof.
  intros P n rows Hrows. revert n.
  induction Hrows as [|x rows Hx Hrows IH]; intro n.
  - rewrite firstn_nil. constructor.
  - destruct n; simpl; constructor; [exact Hx | apply IH].
Qed.

Lemma firstn_in_todo :
  forall n (rows : list todo) t, In t (firstn n rows) -> In t rows.
Proof.
  intros n rows t Hin. rewrite <- (firstn_skipn n rows).
  apply in_or_app. left. exact Hin.
Qed.

Lemma count_mediums_banded :
  forall mediums highs,
    Forall (fun t => has_priority "MEDIUM" t = true) mediums ->
    Forall (fun t => has_priority "HIGH" t = true) highs ->
    List.length (filter (has_priority "MEDIUM") (mediums ++ highs))
    = List.length mediums.
Proof.
  intros mediums highs Hm Hh. rewrite filter_app, length_app.
  assert (Hall : filter (has_priority "MEDIUM") mediums = mediums).
  { induction Hm as [|m ms Hmp Hm IH]; [reflexivity|].
    simpl. rewrite Hmp, IH. reflexivity. }
  assert (Hnone : filter (has_priority "MEDIUM") highs = []).
  { induction Hh as [|h hs Hhp Hh IH]; [reflexivity|].
    simpl. unfold has_priority in *. apply type_eqb_eq in Hhp.
    rewrite Hhp. simpl. exact IH. }
  rewrite Hall, Hnone. simpl. lia.
Qed.

Lemma selected_mediums :
  forall todos,
    filter (has_priority "MEDIUM") (filter selected_todo todos)
    = filter (fun t => is_pending t && has_priority "MEDIUM" t) todos.
Proof.
  induction todos as [|t todos IH]; [reflexivity|].
  cbn [filter]. unfold selected_todo at 1.
  destruct (is_pending t) eqn:Hp; cbn [andb].
  - destruct (has_priority "MEDIUM" t) eqn:Hm.
    + rewrite orb_true_r. cbn [filter]. rewrite Hm, IH. reflexivity.
    + rewrite orb_false_r.
      destruct (has_priority "HIGH" t); cbn [filter]; [rewrite Hm|]; exact IH.
  - exact IH.
Qed.

(** X15.  [_load_active_todos] returns at most 20 tasks, all of them
    pending tasks of the table with priority HIGH or MEDIUM; because the
    query sorts the priority text in descending order, every MEDIUM task
    of the result stands before every HIGH task, and when 20 or more
    pending MEDIUM tasks exist no HIGH task is returned at all. *)
Theorem load_active_todos_puts_medium_first :
  forall (todos : list todo),
    let result := _load_active_todos todos in
    (List.length result <= 20)%nat /\
    (forall t, In t result ->
       In t todos /\ is_pending t = true /\
       (has_priority "HIGH" t = true \/ has_priority "MEDIUM" t = true)) /\
    (exists mediums highs,
        result = mediums ++ highs /\
        Forall (fun t => has_priority "MEDIUM" t = true) mediums /\
        Forall (fun t => has_priority "HIGH" t = true) highs) /\
    ((20 <= List.length
              (filter (fun t => is_pending t && has_priority "MEDIUM" t) todos))%nat ->
     Forall (fun t => has_priority "MEDIUM" t = true) result).
Proof.
  intros todos result. subst result. unfold _load_active_todos.
  assert (Hsel : Forall (fun t => has_priority "HIGH" t = true \/
                                  has_priority "MEDIUM" t = true)
                        (filter selected_todo todos)).
  { apply Forall_forall. intros t Ht. apply filter_In in Ht.
    destruct Ht as [_ Hs]. unfold selected_todo in Hs.
    apply andb_prop in Hs. destruct Hs as [_ Hp].
    apply orb_prop in Hp. exact Hp. }
  destruct (order_todos_banded _ Hsel) as (ms & hs & Heq & Hms & Hhs).
  split; [apply firstn_le_length | split; [|split]].
  - intros t Ht. apply firstn_in_todo, order_todos_in, filter_In in Ht.
    destruct Ht as [Hin Hs]. unfold selected_todo in Hs.
    apply andb_prop in Hs. destruct Hs as [Hpend Hp].
    apply orb_prop in Hp. auto.
  - rewrite Heq, firstn_app.
    exists (firstn 20 ms), (firstn (20 - List.length ms) hs).
    split; [reflexivity | split; apply Forall_firstn_todo; assumption].
  - intro Hmany.
    assert (Hcount : List.length ms
                     = List.length (filter (fun t => is_pending t &&
                                                     has_priority "MEDIUM" t)
                                           todos)).
    { rewrite <- (count_mediums_banded ms hs Hms Hhs), <- Heq.
      rewrite order_todos_count, selected_mediums. reflexivity. }
    rewrite Heq, firstn_app.
    replace (20 - List.length ms)%nat with 0%nat by lia.
    rewrite firstn_O, app_nil_r. apply Forall_firstn_todo. exact Hms.
Qed.

(** ** Wake and the daily statistics *)

Lemma status_keys_after_wake :
  forall lo hi lo' hi' rows,
    let keys :=
      map ci_status
          (filter (fun r => within lo' hi' (ci_scheduled_time r)) rows) in
    let keys' :=
      map ci_status
          (filter (fun r => within lo' hi' (ci_scheduled_time r))
                  (map (wake_row lo hi) rows)) in
    List.length keys' = List.length keys /\
    List.length (filter (status_eqb completed) keys')
    = List.length (filter (status_eqb completed) keys) /\
    (List.length (filter (status_eqb missed) keys')
     <= List.length (filter (status_eqb missed) keys))%nat /\
    (List.length (filter (status_eqb sleeping) keys)
     <= List.length (filter (status_eqb sleeping) keys'))%nat.
Proof.
  intros lo hi lo' hi' rows keys keys'. subst keys keys'.
  induction rows as [|r rows (IHlen & IHdone & IHmiss & IHsleep)];
    [simpl; repeat split; lia|].
  cbn [map filter].
  destruct (wake_row_keeps_stamps lo hi r) as (_ & Hsched & _).
  rewrite Hsched.
  destruct (within lo' hi' (ci_scheduled_time r));
    [|split; [exact IHlen | split; [exact IHdone
                          | split; [exact IHmiss | exact IHsleep]]]].
  cbn [map filter List.length].
  destruct (slept_through_dec lo hi r) as [Hyes|Hno].
  - rewrite (wake_row_moves _ _ _ Hyes). cbn [ci_status with_status].
    destruct Hyes as [_ [Hst|Hst]]; rewrite Hst; cbn [status_eqb List.length];
      repeat split; lia.
  - rewrite (wake_row_keeps _ _ _ Hno).
    destruct (ci_status r); cbn [status_eqb List.length]; repeat split; lia.
Qed.

Lemma synthesized_entries_do_not_score :
  forall (added : list activity_log) (rows : list check_in),
    (forall l, In l added -> exists r, In r rows /\ sleeping_entry_for r l) ->
    forall (keep : activity_log -> bool),
      flat_map (fun l => match scored l with Some v => [v] | None => [] end)
               (filter keep added) = [] /\
      forall k, k <> Some "sleeping"%string ->
        filter (type_eqb k) (map al_productivity_type (filter keep added)) = [].
Proof.
  intros added rows Hnew keep.
  induction added as [|l added IH]; [split; [reflexivity | intros; reflexivity]|].
  destruct IH as [IHscore IHtype];
    [intros l0 Hl0; apply Hnew; right; exact Hl0|].
  destruct (Hnew l (or_introl eq_refl)) as (r & _ & Hty & _).
  cbn [filter]. destruct (keep l); [|split; assumption].
  cbn [flat_map map filter]. unfold scored at 1. rewrite Hty. simpl String.eqb.
  split; [exact IHscore|].
  intros k Hk. specialize (IHtype k Hk).
  destruct (type_eqb k (Some "sleeping"%string)) eqn:Heq; [|exact IHtype].
  apply type_eqb_eq in Heq. contradiction.
Qed.

(** X16.  The reconciliation of the wake handler leaves the productivity
    figures of every day as they were: the total and the responded count of
    [_get_daily_stats], the aligned, beneficial and wasted counts, the
    average alignment score and the productivity ratio are the same before
    and after; only the missed count can go down and the sleeping count
    up. *)
Theorem wake_keeps_productivity_figures :
  forall (d : db) (chat_id : Z) (lo hi : datetime) (target_date : Z),
    let before := _get_daily_stats d target_date in
    let after := _get_daily_stats (reconcile d chat_id lo hi) target_date in
    total_check_ins after = total_check_ins before /\
    responded_check_ins after = responded_check_ins before /\
    aligned_activities after = aligned_activities before /\
    beneficial_activities after = beneficial_activities before /\
    wasted_activities after = wasted_activities before /\
    avg_alignment_score after = avg_alignment_score before /\
    productivity_ratio after = productivity_ratio before /\
    missed_check_ins after <= missed_check_ins before /\
    sleeping_check_ins before <= sleeping_check_ins after.
Proof.
  intros d chat_id lo hi target_date before after.
  destruct (status_keys_after_wake lo hi (day_start target_date)
              (day_end target_date) (check_ins d))
    as (Hlen & Hdone & Hmiss & Hsleep).
  destruct (fold_synthesize_added
              (sleeping_in_window lo hi (map (wake_row lo hi) (check_ins d)))
              (activity_logs d)) as (added & Hfold & Hnew & _).
  set (keep := fun l : activity_log =>
                 within (day_start target_date) (day_end target_date)
                        (al_timestamp l)).
  destruct (synthesized_entries_do_not_score added _ Hnew keep)
    as [Hscore Htype].
  assert (Hlogs : filter keep (activity_logs (reconcile d chat_id lo hi))
                  = filter keep (activity_logs d) ++ filter keep added).
  { cbn [reconcile activity_logs]. rewrite Hfold. apply filter_app. }
  assert (Hget : forall k, k <> Some "sleeping"%string ->
    dict_get type_eqb k
      (group_count type_eqb
         (map al_productivity_type
              (filter keep (activity_logs (reconcile d chat_id lo hi)))))
    = dict_get type_eqb k
        (group_count type_eqb
           (map al_productivity_type (filter keep (activity_logs d))))).
  { intros k Hk.
    rewrite !(dict_get_group_count _ type_eqb type_eqb_eq).
    rewrite Hlogs, map_app, filter_app, (Htype k Hk), app_nil_r.
    reflexivity. }
  assert (Hresp : responded_check_ins after = responded_check_ins before).
  { subst before after. unfold _get_daily_stats. cbn [responded_check_ins].
    rewrite !(dict_get_group_count _ status_eqb status_eqb_eq).
    cbn [reconcile check_ins]. rewrite Hdone. reflexivity. }
  assert (Haligned : aligned_activities after = aligned_activities before)
    by (apply Hget; discriminate).
  assert (Hbenef : beneficial_activities after = beneficial_activities before)
    by (apply Hget; discriminate).
  assert (Hwasted : wasted_activities after = wasted_activities before)
    by (apply Hget; discriminate).
  split; [|split; [exact Hresp | split; [exact Haligned
          | split; [exact Hbenef | split; [exact Hwasted | split; [|split]]]]]].
  - subst before after. unfold _get_daily_stats. cbn [total_check_ins].
    rewrite !(dict_sum_group_count _ status_eqb).
    cbn [reconcile check_ins]. rewrite Hlen. reflexivity.
  - subst before after. unfold _get_daily_stats. cbn [avg_alignment_score].
    fold keep. rewrite Hlogs, flat_map_app, Hscore, app_nil_r. reflexivity.
  - change (productivity_ratio after)
      with (if responded_check_ins after >? 0
            then Some (aligned_activities after + beneficial_activities after,
                       responded_check_ins after)
            else None).
    rewrite Hresp, Haligned, Hbenef. reflexivity.
  - subst before after. unfold _get_daily_stats.
    cbn [missed_check_ins sleeping_check_ins].
    rewrite !(dict_get_group_count _ status_eqb status_eqb_eq).
    cbn [reconcile check_ins]. split; lia.
Qed.

(** ** Invariants that do not depend on the clock *)

Lemma store_ok_initial : store_ok initial.
Proof.
  split; [constructor | split; [intros r [] | split]].
  - intros l [].
  - intros p Hp. discriminate.
Qed.

Lemma store_ok_same_rows :
  forall s s',
    check_ins (store s') = check_ins (store s) ->
    activity_logs (store s') = activity_logs (store s) ->
    (pending_check_in_id s' = pending_check_in_id s \/
     pending_check_in_id s' = None) ->
    store_ok s -> store_ok s'.
Proof.
  intros s s' Hrows Hlogs Hptr (Hnodup & Hstamp & Hlok & Hpok).
  unfold store_ok, logs_ok. rewrite Hrows, Hlogs.
  repeat split; try assumption; try (apply Hstamp; assumption).
  intros p Hp. destruct Hptr as [Hptr|Hptr]; rewrite Hptr in Hp;
    [apply Hpok; exact Hp | discriminate].
Qed.

Lemma store_ok_send :
  forall s chat_id now delivery,
    store_ok s -> store_ok (snd (send_check_in s chat_id now delivery)).
Proof.
  intros s chat_id now delivery (Hnodup & Hstamp & Hlogs & _).
  rewrite send_check_in_state.
  set (new_id := next_rowid (map ci_id (check_ins (store s)))).
  split; [|split; [|split]]; simpl.
  - rewrite map_app. apply NoDup_app; [exact Hnodup | |].
    + simpl. constructor; [intros [] | constructor].
    + intros i Hi [Heq|[]]. simpl in Heq. subst i.
      apply (next_rowid_fresh _ Hi).
  - intros r Hin. apply in_app_or in Hin. destruct Hin as [Hin|[<-|[]]].
    + apply Hstamp. exact Hin.
    + simpl. split; [apply next_rowid_positive | reflexivity].
  - intros l Hin. simpl in Hin.
    destruct (Hlogs l Hin) as (r & Hr & Hre & Hst).
    exists r. simpl. repeat split; try assumption.
    apply in_or_app. left. exact Hr.
  - intros p Hp. inversion Hp; subst p.
    eexists. split; [apply in_or_app; right; left; reflexivity | reflexivity].
Qed.

Lemma store_ok_map :
  forall s f d',
    keeps_stamps f ->
    (forall r, settled r -> settled (f r)) ->
    check_ins d' = map f (check_ins (store s)) ->
    activity_logs d' = activity_logs (store s) ->
    store_ok s -> store_ok (mk_sys d' (pending_check_in_id s)).
Proof.
  intros s f d' Hf Hsettled Hrows Hlogs (Hnodup & Hstamp & Hlok & Hpok).
  split; [|split; [|split]]; cbn [store pending_check_in_id].
  - rewrite Hrows, map_map.
    rewrite (map_ext (fun r => ci_id (f r)) ci_id); [exact Hnodup|].
    intro r. apply Hf.
  - rewrite Hrows. intros r' Hin. apply in_map_iff in Hin.
    destruct Hin as (r & <- & Hin).
    destruct (Hf r) as (Hid & Hsched & Hsent).
    rewrite Hid, Hsched, Hsent. apply Hstamp. exact Hin.
  - apply (logs_ok_map (store s) d' f); try assumption.
    intro r. apply Hf.
  - intros p Hp. destruct (Hpok p Hp) as (r & Hr & Hid).
    exists (f r). rewrite Hrows. split; [apply in_map; exact Hr |].
    rewrite <- Hid. apply Hf.
Qed.

Lemma store_ok_lookup :
  forall s, store_ok s -> store_ok (snd (get_pending_check_in s)).
Proof.
  intros s Hok.
  destruct (get_pending_check_in_cases s)
    as [[_ ->]|[[_ (r & Hfind & ->)]|(_ & _ & ->)]]; try exact Hok.
  destruct Hok as (Hnodup & Hstamp & Hlogs & _).
  repeat split; try assumption; try (apply Hstamp; assumption).
  intros p Hp. simpl in Hp. inversion Hp; subst p.
  destruct (most_recent_sent_some _ _ Hfind) as (Hin & _).
  exists r. split; [exact Hin | reflexivity].
Qed.

Lemma store_ok_analyze_clear :
  forall s text i reply now_save now_update,
    store_ok s ->
    (exists r, In r (check_ins (store s)) /\ ci_id r = i) ->
    store_ok (clear_pending_check_in
                (snd (analyze_activity s text i reply now_save now_update))).
Proof.
  intros s text i reply now_save now_update Hok (r0 & Hr0 & Hi).
  assert (Hraise : store_ok (clear_pending_check_in s))
    by (apply (store_ok_same_rows s); auto).
  assert (Hpersist : forall a,
    store_ok
      (clear_pending_check_in
         (mk_sys (update_check_in_status
                    (save_activity_log (store s) i text a now_save)
                    i completed now_update)
                 (pending_check_in_id s)))).
  { intro a. destruct Hok as (Hnodup & Hstamp & Hlogs & _).
    split; [|split; [|split]]; simpl.
    - rewrite map_map.
      rewrite (map_ext (fun r => ci_id (status_row i completed now_update r))
                       ci_id); [exact Hnodup|].
      intro r. apply status_row_keeps_stamps.
    - intros r' Hin. apply in_map_iff in Hin. destruct Hin as (r & <- & Hin).
      destruct (status_row_keeps_stamps i completed now_update r)
        as (Hid & Hsched & Hsent).
      rewrite Hid, Hsched, Hsent. apply Hstamp. exact Hin.
    - intros l Hin. simpl in Hin. apply in_app_or in Hin.
      destruct Hin as [Hin|[<-|[]]].
      + destruct (Hlogs l Hin) as (r & Hr & Hre & Hst).
        exists (status_row i completed now_update r). simpl.
        split; [apply in_map; exact Hr |].
        destruct (status_row_keeps_stamps i completed now_update r) as (-> & _).
        split; [exact Hre | apply status_row_settled; exact Hst].
      + exists (status_row i completed now_update r0). simpl.
        split; [apply in_map; exact Hr0 |].
        unfold status_row. rewrite Hi, Z.eqb_refl. simpl.
        split; [reflexivity | left; reflexivity].
    - intros p Hp. discriminate. }
  destruct reply; simpl; try exact Hraise; apply Hpersist.
Qed.

Lemma store_ok_reply :
  forall s text reply now_save now_update,
    store_ok s ->
    store_ok (snd (handle_check_in_reply s text reply now_save now_update)).
Proof.
  intros s text reply now_save now_update Hok.
  unfold handle_check_in_reply.
  pose proof (store_ok_lookup s Hok) as Hok1.
  destruct (get_pending_check_in_result s) as [Hfst _].
  destruct (get_pending_check_in s) as [pending_id s1]. simpl in *.
  destruct pending_id as [i|]; [|exact Hok1].
  destruct (truthy (Some i)); [|exact Hok1].
  pose proof (store_ok_analyze_clear s1 text i reply now_save now_update Hok1)
    as Hdone.
  destruct (analyze_activity s1 text i reply now_save now_update) as [a s2].
  simpl in *. apply Hdone.
  destruct Hok1 as (_ & _ & _ & Hptr). apply Hptr. symmetry. exact Hfst.
Qed.

Lemma store_ok_wake :
  forall s chat_id today_clock now,
    store_ok s ->
    store_ok (snd (handle_wake_button s chat_id today_clock now)).
Proof.
  intros s chat_id today_clock now Hok.
  destruct (handle_wake_button_state s chat_id today_clock now)
    as [->|(lo & ->)]; [exact Hok|].
  destruct Hok as (Hnodup & Hstamp & Hlogs & Hptr).
  split; [|split; [|split]]; simpl.
  - rewrite map_map.
    rewrite (map_ext (fun r => ci_id (wake_row lo now r)) ci_id);
      [exact Hnodup|].
    intro r. apply wake_row_keeps_stamps.
  - intros r' Hin. apply in_map_iff in Hin. destruct Hin as (r & <- & Hin).
    destruct (wake_row_keeps_stamps lo now r) as (Hid & Hsched & Hsent).
    rewrite Hid, Hsched, Hsent. apply Hstamp. exact Hin.
  - intros l Hin. simpl in Hin. apply fold_synthesize_in in Hin.
    destruct Hin as [Hin|(r & Hr & Hl)].
    + destruct (Hlogs l Hin) as (r & Hr & Hre & Hst).
      exists (wake_row lo now r). simpl.
      split; [apply in_map; exact Hr |].
      destruct (wake_row_keeps_stamps lo now r) as (-> & _).
      split; [exact Hre | apply wake_row_settled; exact Hst].
    + unfold sleeping_in_window in Hr. apply filter_In in Hr.
      destruct Hr as [Hr Hb]. apply andb_prop in Hb. destruct Hb as [Hb _].
      apply status_eqb_eq in Hb.
      exists r. simpl. split; [exact Hr |].
      destruct Hl as (_ & _ & _ & Hre). split; [exact Hre | right; exact Hb].
  - intros p Hp. destruct (Hptr p Hp) as (r & Hr & Hid).
    exists (wake_row lo now r). split; [apply in_map; exact Hr |].
    rewrite <- Hid. apply wake_row_keeps_stamps.
Qed.

Lemma store_ok_exec :
  forall s e, store_ok s -> store_ok (exec s e).
Proof.
  intros s e Hok. destruct e; simpl.
  - unfold start_command. destruct (existsb _ _); [exact Hok|].
    apply (store_ok_same_rows s); auto.
  - unfold _send_hourly_check_in.
    destruct (_get_configured_chat_id s) as [chat|]; [|exact Hok].
    destruct (negb (truthy (Some chat))); [exact Hok|].
    destruct (_is_user_sleeping s chat); [exact Hok|].
    destruct busy; [exact Hok | apply store_ok_send; exact Hok].
  - unfold _retry_check_in.
    destruct (retry_count >? 3); [exact Hok|].
    destruct busy; [exact Hok | apply store_ok_send; exact Hok].
  - apply (store_ok_map s (stale_row (now - timedelta_minutes 90)));
      [apply stale_row_keeps_stamps | apply stale_row_settled
      | reflexivity | reflexivity | exact Hok].
  - apply store_ok_reply. exact Hok.
  - apply (store_ok_same_rows s); auto.
  - apply store_ok_wake. exact Hok.
  - apply store_ok_lookup. exact Hok.
  - apply (store_ok_same_rows s); auto.
Qed.

Lemma store_ok_run :
  forall history s, store_ok s -> store_ok (run s history).
Proof.
  induction history as [|e history IH]; intros s Hok; [exact Hok|].
  simpl. apply IH. apply store_ok_exec. exact Hok.
Qed.

Lemma scheduled_times_bounded :
  forall rows : list check_in,
    exists c, forall r, In r rows -> ci_scheduled_time r <= c.
Proof.
  induction rows as [|a rows [c Hc]].
  - exists 0. intros r [].
  - exists (Z.max c (ci_scheduled_time a)). intros r [<-|Hr]; [lia|].
    specialize (Hc r Hr). lia.
Qed.

Lemma store_ok_rows_ok :
  forall s, store_ok s -> exists c, rows_ok c (store s).
Proof.
  intros s (Hnodup & Hstamp & _).
  destruct (scheduled_times_bounded (check_ins (store s))) as [c Hc].
  exists c. split; [exact Hnodup|].
  intros r Hr. destruct (Hstamp r Hr) as [Hid Hsent].
  repeat split; try assumption. apply Hc. exact Hr.
Qed.

(** ** Two presses of Wake *)

Lemma handle_wake_button_store :
  forall s chat_id today_clock now,
    store (snd (handle_wake_button (mk_sys (store s) None) chat_id
                                   today_clock now))
    = store (snd (handle_wake_button s chat_id today_clock now)).
Proof.
  intros s chat_id today_clock now. unfold handle_wake_button.
  cbn [store pending_check_in_id].
  destruct (find _ _) as [row|]; [|reflexivity].
  destruct (uc_sleep_start_time row) as [sleep_start|]; [|reflexivity].
  destruct (retroactive_start sleep_start row today_clock) as [lo|];
    reflexivity.
Qed.

Lemma handle_wake_button_keeps_entries :
  forall s chat_id today_clock now i,
    let s' := snd (handle_wake_button s chat_id today_clock now) in
    (logs_of i (store s) <> [] -> logs_of i (store s') = logs_of i (store s)) /\
    (logs_of i (store s) = [] -> (List.length (logs_of i (store s')) <= 1)%nat).
Proof.
  intros s chat_id today_clock now i s'. subst s'.
  destruct (handle_wake_button_state s chat_id today_clock now)
    as [->|(lo & ->)].
  - split; [reflexivity | intros ->; simpl; lia].
  - cbn [store]. unfold logs_of, reconcile. cbn [activity_logs check_ins].
    destruct (fold_synthesize_added
                (sleeping_in_window lo now
                   (map (wake_row lo now) (check_ins (store s))))
                (activity_logs (store s))) as (added & -> & _ & Hcount).
    specialize (Hcount i). rewrite filter_app. split.
    + intro Hsome.
      destruct (existsb (refers_to i) (activity_logs (store s))) eqn:Hex.
      * destruct (filter (refers_to i) added); [apply app_nil_r|].
        simpl in Hcount. lia.
      * exfalso. apply Hsome. apply filter_nil_existsb. exact Hex.
    + intro Hnone. rewrite Hnone. simpl.
      destruct (existsb (refers_to i) (activity_logs (store s))); lia.
Qed.

(** C6, as the code has it.  In every state reached from the empty store,
    whatever the clock read on the way, a press of Wake gives every record
    that it moves to [sleeping] exactly one activity entry, with
    productivity type "sleeping", no raw response and the record's
    [scheduled_time] as timestamp; a second press right after it never
    duplicates an entry: a check-in that has entries keeps exactly those
    and one that has none gets at most one.  When the clock readings of the
    run and of the two presses never decrease, the second press adds no
    entry and changes no record, and it leaves the whole state untouched
    when the clock reads the same. *)
Theorem wake_synthesizes_one_sleeping_entry :
  forall (c : datetime) (history : list event) (chat_id : Z)
         (today_clock now today_clock' now' : datetime),
    let s := run initial history in
    let s1 := snd (handle_wake_button s chat_id today_clock now) in
    let s2 := snd (handle_wake_button s1 chat_id today_clock' now') in
    (forall r r',
        In r (check_ins (store s)) -> In r' (check_ins (store s1)) ->
        ci_id r' = ci_id r ->
        ci_status r <> sleeping -> ci_status r' = sleeping ->
        exists l, logs_of (ci_id r) (store s1) = [l] /\
                  sleeping_entry_for r l) /\
    (forall i, logs_of i (store s1) <> [] ->
               logs_of i (store s2) = logs_of i (store s1)) /\
    (forall i, logs_of i (store s1) = [] ->
               (List.length (logs_of i (store s2)) <= 1)%nat) /\
    (chronological c (history ++ [ev_wake chat_id today_clock now;
                                  ev_wake chat_id today_clock' now']) = true ->
     check_ins (store s2) = check_ins (store s1) /\
     activity_logs (store s2) = activity_logs (store s1) /\
     (now' = now -> s2 = s1)).
Proof.
  intros c history chat_id today_clock now today_clock' now' s s1 s2.
  split; [|split; [|split]].
  - intros r r' Hr Hr' Hid Hbefore Hafter.
    assert (Hok : store_ok s) by (apply store_ok_run; apply store_ok_initial).
    destruct (store_ok_rows_ok s Hok) as [c0 Hrows].
    destruct Hok as (_ & _ & Hlogs & _).
    assert (Hwf : well_formed c0 (mk_sys (store s) None)).
    { split; [exact Hrows | split; [exact Hlogs|]]. intros p Hp. discriminate. }
    subst s1. rewrite <- handle_wake_button_store in Hr' |- *.
    apply (handle_wake_button_entries c0 (mk_sys (store s) None) chat_id
             today_clock now r r'); assumption.
  - intro i.
    apply (handle_wake_button_keeps_entries s1 chat_id today_clock' now' i).
  - intro i.
    apply (handle_wake_button_keeps_entries s1 chat_id today_clock' now' i).
  - intro Hclock.
    rewrite chronological_app in Hclock. apply andb_prop in Hclock.
    destruct Hclock as [Hhistory Hpresses].
    pose proof (reachable_well_formed c history Hhistory) as Hwf. fold s in Hwf.
    unfold chronological in Hpresses. simpl in Hpresses.
    clock_facts.
    assert (Hsched : forall r, In r (check_ins (store s)) ->
                               ci_scheduled_time r <= now).
    { intros r Hr. destruct Hwf as ((_ & Hstamp) & _).
      destruct (Hstamp r Hr) as (_ & _ & Hle). lia. }
    destruct (handle_wake_button_twice s chat_id today_clock now
                today_clock' now' Hsched) as (Hrows & Hlogs & _ & Hsame);
      [lia|].
    repeat split; assumption.
Qed.

(** A prompt of 09:00 missed at 11:00; Wake at 11:30 and again at 11:31. *)
Lemma wake_synthesizes_one_sleeping_entry_witness :
  let history := [ev_start sample_chat (clock_at 0 20 0);
                  ev_sleep sample_chat (clock_at 0 21 30);
                  ev_wake sample_chat (clock_at 0 22 0) (clock_at 0 22 0);
                  ev_hourly (clock_at 1 9 0) false (Returns tt);
                  ev_maintenance (clock_at 1 11 0)] in
  let s := run initial history in
  let s1 := snd (handle_wake_button s sample_chat (clock_at 1 11 30) (clock_at 1 11 30)) in
  let s2 := snd (handle_wake_button s1 sample_chat (clock_at 1 11 31) (clock_at 1 11 31)) in
  chronological 0 (history ++ [ev_wake sample_chat (clock_at 1 11 30) (clock_at 1 11 30);
                               ev_wake sample_chat (clock_at 1 11 31) (clock_at 1 11 31)])
    = true /\
  (exists l, logs_of 1 (store s1) = [l] /\
             sleeping_entry_for (check_in_at 1 (clock_at 1 9 0) missed) l) /\
  check_ins (store s2) = check_ins (store s1) /\
  activity_logs (store s2) = activity_logs (store s1).
Proof.
  intros history s s1 s2.
  destruct (wake_synthesizes_one_sleeping_entry 0 history sample_chat
              (clock_at 1 11 30) (clock_at 1 11 30)
              (clock_at 1 11 31) (clock_at 1 11 31))
    as (Hentry & _ & _ & Hsecond).
  destruct (Hsecond eq_refl) as (Hrows & Hlogs & _).
  split; [reflexivity |].
  split; [|split; assumption].
  apply (Hentry (check_in_at 1 (clock_at 1 9 0) missed)
                (check_in_at 1 (clock_at 1 9 0) sleeping)).
  - left. reflexivity.
  - left. reflexivity.
  - reflexivity.
  - discriminate.
  - reflexivity.
Defined.

(** C6, counterexample to the claim as stated.  The recipient slept from
    21:00 to 21:30; the prompt of 22:00 went unanswered and was marked
    [missed] at 23:40.  Wake is pressed one second after midnight: the
    window opens at 08:00 of the new day and is empty, so nothing changes.
    The clock is then set back by two seconds and Wake is pressed again, at
    23:59:59 of the old day: the window now opens at 21:00, the record of
    22:00 turns [sleeping] and an entry is written for it. *)
Lemma second_wake_after_clock_step_back :
  let history := [ev_start sample_chat (clock_at 0 20 0);
                  ev_sleep sample_chat (clock_at 0 21 0);
                  ev_wake sample_chat (clock_at 0 21 30) (clock_at 0 21 30);
                  ev_hourly (clock_at 0 22 0) false (Returns tt);
                  ev_maintenance (clock_at 0 23 40)] in
  let after_midnight := clock_at 1 0 0 + us_per_second in
  let before_midnight := clock_at 1 0 0 - us_per_second in
  let s := run initial history in
  let s1 := snd (handle_wake_button s sample_chat after_midnight after_midnight) in
  let s2 := snd (handle_wake_button s1 sample_chat before_midnight before_midnight) in
  chronological 0 (history ++ [ev_wake sample_chat after_midnight after_midnight])
    = true /\
  before_midnight = after_midnight - 2 * us_per_second /\
  uc_is_sleeping (hd config_never_slept (user_configs (store s1))) = 0 /\
  check_ins (store s1) = [check_in_at 1 (clock_at 0 22 0) missed] /\
  activity_logs (store s1) = [] /\
  check_ins (store s2) = [check_in_at 1 (clock_at 0 22 0) sleeping] /\
  List.length (activity_logs (store s2)) = 1%nat /\
  check_ins (store s2) <> check_ins (store s1).
Proof.
  vm_compute. repeat split. discriminate.
Qed.

(** ** The sweep and the replies that arrived *)

Lemma extends_rows_run :
  forall history s,
    extends_rows (check_ins (store s)) (check_ins (store (run s history))).
Proof.
  induction history as [|e history IH]; intro s; simpl.
  - apply extends_rows_refl.
  - eapply extends_rows_trans; [apply extends_rows_exec | apply IH].
Qed.

Lemma extends_rows_in :
  forall rows rows' r,
    extends_rows rows rows' -> In r rows ->
    exists r', In r' rows' /\ moves_forward r r'.
Proof.
  intros rows rows' r (kept & added & -> & Hkept) Hr.
  induction Hkept as [|x y rows kept' Hxy Hrest IH]; [destruct Hr|].
  destruct Hr as [<-|Hr].
  - exists y. split; [left; reflexivity | exact Hxy].
  - destruct (IH Hr) as (r' & Hin & Hmove).
    exists r'. split; [right; exact Hin | exact Hmove].
Qed.

(** A record that is [completed] stays so, and no later record takes its
    id. *)
Lemma completed_stays :
  forall history s r1 r,
    store_ok s ->
    In r1 (check_ins (store s)) -> ci_status r1 = completed ->
    In r (check_ins (store (run s history))) -> ci_id r = ci_id r1 ->
    ci_status r = completed.
Proof.
  intros history s r1 r Hok Hr1 Hdone Hr Hid.
  destruct (extends_rows_in _ _ r1 (extends_rows_run history s) Hr1)
    as (r1' & Hr1' & (Hid' & _ & _ & _ & Hadv)).
  destruct (store_ok_run history s Hok) as (Hnodup & _).
  assert (r = r1').
  { apply (NoDup_map_injective _ _ ci_id _ _ _ Hnodup); try assumption.
    congruence. }
  subst r. rewrite Hdone in Hadv.
  destruct (ci_status r1'); try discriminate; reflexivity.
Qed.

Lemma reply_target_some :
  forall s p,
    reply_target s = Some p ->
    fst (get_pending_check_in s) = Some p /\ truthy (Some p) = true.
Proof.
  intros s p. unfold reply_target.
  destruct (truthy (fst (get_pending_check_in s))) eqn:Htruthy;
    [|discriminate].
  intro Heq. rewrite Heq in Htruthy. split; assumption.
Qed.

(** A reply that the analyzer stores completes the check-in it was handed
    to. *)
Lemma stored_reply_completes :
  forall s text reply now_save now_update p,
    store_ok s ->
    reply_target s = Some p ->
    stores_reply reply = true ->
    exists r1,
      In r1 (check_ins (store (exec s (ev_reply text reply now_save now_update))))
      /\ ci_id r1 = p /\ ci_status r1 = completed.
Proof.
  intros s text reply now_save now_update p Hok Htarget Hstores.
  destruct (reply_target_some s p Htarget) as [Hpending Htruthy].
  assert (Hjudgment : exists a, stored_judgment reply text = Some a)
    by (destruct reply; try discriminate; eexists; reflexivity).
  destruct Hjudgment as [a Ha].
  simpl. rewrite (handle_check_in_reply_stored s text reply a now_save
                    now_update p Hpending Htruthy Ha).
  destruct (store_ok_lookup s Hok) as (_ & _ & _ & Hptr).
  destruct (get_pending_check_in_result s) as [Hfst Hstore].
  destruct (Hptr p) as (r0 & Hr0 & Hid0); [congruence|].
  rewrite Hstore in Hr0.
  exists (status_row p completed now_update r0). simpl.
  split; [apply in_map; exact Hr0 |].
  unfold status_row. destruct (ci_id r0 =? p) eqn:Heq;
    [|rewrite Hid0, Z.eqb_refl in Heq; discriminate].
  simpl. split; [exact Hid0 | reflexivity].
Qed.

Lemma stored_answers_completed :
  forall history s r,
    store_ok s ->
    In r (check_ins (store (run s history))) ->
    In (ci_id r) (stored_answers s history) ->
    ci_status r = completed.
Proof.
  induction history as [|e history IH]; intros s r Hok Hr Hin;
    [destruct Hin|].
  assert (Hnext : In (ci_id r) (stored_answers (exec s e) history) ->
                  ci_status r = completed).
  { intro Hrest. apply (IH (exec s e)); try assumption.
    apply store_ok_exec. exact Hok. }
  unfold stored_answers in Hin. simpl in Hin, Hr.
  destruct e; try (apply Hnext; exact Hin);
    destruct (reply_target s) as [p|] eqn:Htarget;
    try (apply Hnext; exact Hin).
  simpl in Hin. destruct (stores_reply reply) eqn:Hstores;
    [|apply Hnext; exact Hin].
  destruct Hin as [Hp|Hin]; [|apply Hnext; exact Hin].
  simpl in Hp.
  destruct (stored_reply_completes s text reply now_save now_update p
              Hok Htarget Hstores) as (r1 & Hr1 & Hid1 & Hdone).
  apply (completed_stays history
           (exec s (ev_reply text reply now_save now_update)) r1 r);
    try assumption; [apply store_ok_exec; exact Hok | congruence].
Qed.

(** C5, as the code has it.  After any run from the empty store the sweep
    at [now] moves a record from [sent] to [missed] exactly when its
    [sent_time] is strictly more than 90 minutes before [now] and no reply
    has arrived for it; a record in any other status is never touched; the
    other tables and the pointer are left as they are; sweeping again at
    the same instant changes nothing, and a sweep absorbs every earlier
    one.  A record whose reply was stored is [completed].  Nothing is
    stated here about a [sent] record whose reply arrived and was dropped
    by the analyzer. *)
Theorem sweep_marks_unanswered_stale_records :
  forall (history : list event) (now : datetime),
    let s := run initial history in
    let s' := mark_stale_as_missed s now in
    let reply_arrived (r : check_in) :=
      In (ci_id r) (answered initial history) in
    let reply_stored (r : check_in) :=
      In (ci_id r) (stored_answers initial history) in
    Forall2 (fun r r' =>
               (ci_status r <> sent -> r' = r) /\
               ((reply_arrived r /\ ~ reply_stored r) \/
                (stale_at now r /\ ~ reply_arrived r /\
                 r' = with_status r missed) \/
                (~ (stale_at now r /\ ~ reply_arrived r) /\ r' = r)))
            (check_ins (store s)) (check_ins (store s')) /\
    (forall r, In r (check_ins (store s)) ->
               reply_stored r -> ci_status r = completed) /\
    user_configs (store s') = user_configs (store s) /\
    activity_logs (store s') = activity_logs (store s) /\
    pending_check_in_id s' = pending_check_in_id s /\
    mark_stale_as_missed s' now = s' /\
    (forall now', now <= now' ->
       mark_stale_as_missed s' now' = mark_stale_as_missed s now').
Proof.
  intros history now s s' reply_arrived reply_stored.
  assert (Hdone : forall r, In r (check_ins (store s)) ->
                            reply_stored r -> ci_status r = completed).
  { intros r Hr Hstored.
    apply (stored_answers_completed history initial r);
      [apply store_ok_initial | exact Hr | exact Hstored]. }
  split; [|split; [exact Hdone|]].
  - subst s'. simpl. apply Forall2_map_same. intros r Hr.
    assert (Hother : ci_status r <> sent ->
                     stale_row (now - timedelta_minutes 90) r = r).
    { intro Hst. apply stale_row_keeps. intros [Hsent _]. contradiction. }
    split; [exact Hother|].
    destruct (in_dec Z.eq_dec (ci_id r) (answered initial history))
      as [Harrived|Hnone].
    + destruct (in_dec Z.eq_dec (ci_id r) (stored_answers initial history))
        as [Hstored|Hdropped].
      * right. right. split.
        -- intros [_ Hno]. apply Hno. exact Harrived.
        -- apply Hother. rewrite (Hdone r Hr Hstored). discriminate.
      * left. split; assumption.
    + right. destruct (stale_at_dec now r) as [Hold|Hfresh].
      * left. split; [exact Hold |].
        split; [exact Hnone | apply stale_row_moves; exact Hold].
      * right. split; [intros [Hold _]; contradiction |].
        apply stale_row_keeps. exact Hfresh.
  - repeat split.
    + subst s'. apply mark_stale_absorbs. lia.
    + intros now' Hle. subst s'. apply mark_stale_absorbs. exact Hle.
Qed.

(** Prompts at 10:00, 11:00 and 12:00, the first one answered at 10:20;
    the sweep at 12:45 retires the prompt of 11:00 only. *)
Lemma sweep_marks_unanswered_stale_records_witness :
  let judgment := mk_analysis (Some "report"%string) (Some "aligned"%string)
                              None (Some 8) (Some "Work"%string) None None in
  let history := [ev_start sample_chat (clock_at 0 9 0);
                  ev_hourly (clock_at 0 10 0) false (Returns tt);
                  ev_reply "worked on report" (gemini_dict judgment)
                           (clock_at 0 10 20) (clock_at 0 10 20);
                  ev_hourly (clock_at 0 11 0) false (Returns tt);
                  ev_hourly (clock_at 0 12 0) false (Returns tt)] in
  let s := run initial history in
  let s' := mark_stale_as_missed s (clock_at 0 12 45) in
  answered initial history = [1] /\
  stored_answers initial history = [1] /\
  map ci_status (check_ins (store s)) = [completed; sent; sent] /\
  map ci_status (check_ins (store s')) = [completed; missed; sent] /\
  clock_at 0 12 45 <= clock_at 0 13 0 /\
  mark_stale_as_missed s' (clock_at 0 13 0)
  = mark_stale_as_missed s (clock_at 0 13 0).
Proof.
  intros judgment history s s'.
  destruct (sweep_marks_unanswered_stale_records history (clock_at 0 12 45))
    as (_ & _ & _ & _ & _ & _ & Habsorb).
  split; [reflexivity |]. split; [reflexivity |].
  split; [reflexivity |]. split; [reflexivity |].
  split; [vm_compute; discriminate |].
  apply Habsorb. vm_compute. discriminate.
Defined.
